(** * 2-7 Triple Draw opening-range trainer: hand classification engine

    A shallow embedding of the hand evaluator of the two application
    variants:

    - the single-position variant ([evaluateUTGHand], module [UTG]),
    - the multi-position variant ([interpretBetterHand], [getFullStrategy],
      [evaluateHandForPosition], module [Multi]).

    Card values are the integers produced by [getValue] (2..14); they are
    modelled as [Z].  JavaScript values that are not integers but can arise
    in the embedded code ([NaN] from arithmetic on [undefined], [-Infinity]
    from [Math.max()] of no arguments) are kept explicit in [jsnum]. *)

From Stdlib Require Import ZArith Lia String Ascii List.
From stdpp Require Import base list sorting gmap strings pretty finite.

Open Scope Z_scope.

(** ** JavaScript numbers that the engine can produce *)

Inductive jsnum : Type :=
  | Num (z : Z)
  | NaN
  | NegInfinity.

#[global] Instance jsnum_eq_dec : EqDecision jsnum.
Proof. solve_decision. Defined.

(** [x <= y] and [x < y]; every comparison with [NaN] is false. *)
Definition js_leb (x y : jsnum) : bool :=
  match x, y with
  | NaN, _ | _, NaN => false
  | NegInfinity, _ => true
  | Num _, NegInfinity => false
  | Num a, Num b => a <=? b
  end.

Definition js_ltb (x y : jsnum) : bool :=
  match x, y with
  | NaN, _ | _, NaN => false
  | _, NegInfinity => false
  | NegInfinity, Num _ => true
  | Num a, Num b => a <? b
  end.

(** [x > y] is [y < x]. *)
Definition js_gtb (x y : jsnum) : bool := js_ltb y x.

(** [Math.max(...xs)]: [-Infinity] on the empty list. *)
Definition Math_max (xs : list Z) : jsnum :=
  match xs with
  | [] => NegInfinity
  | x :: xs' => Num (foldl Z.max x xs')
  end.

(** ** [Array.prototype.sort] with a numeric comparator

    The sort is stable; it is modelled as insertion from the right, an
    element being placed before the first element it does not exceed. *)

Section Sort.
Context {A : Type} (cmp : A → A → Z).

Fixpoint insert_by (x : A) (l : list A) : list A :=
  match l with
  | [] => [x]
  | y :: l' => if cmp x y <=? 0 then x :: y :: l' else y :: insert_by x l'
  end.

Definition sort_by (l : list A) : list A := foldr insert_by [] l.
End Sort.

(** [.sort((a, b) => a - b)] and [.sort((a, b) => b - a)]. *)
Definition sort_asc : list Z → list Z := sort_by (λ a b, a - b).
Definition sort_desc : list Z → list Z := sort_by (λ a b, b - a).

(** [[...new Set(vals)]]: distinct elements in order of first occurrence. *)
Fixpoint set_of (vals : list Z) : list Z :=
  match vals with
  | [] => []
  | x :: l => x :: filter (λ y, y ≠ x) (set_of l)
  end.

(** ** The lowball comparator (identical in both variants)

    The loop runs over the indices of [sorted1]; reading [sorted2] past its
    end yields [undefined], which differs from every number and makes the
    subtraction [NaN].

    The values are integers and [x - y] is their exact difference.  The
    code subtracts doubles, which gives this same number whenever the
    difference is exact in a double, in particular for values of absolute
    value up to 2^52 (card values are 2 to 14); beyond that the code returns
    the difference rounded to a double.  The sign of the result, its being
    zero and [NaN] are the same in either reading. *)
Fixpoint compare_loop (sorted1 sorted2 : list Z) : jsnum :=
  match sorted1 with
  | [] => Num 0
  | x :: s1 =>
      match sorted2 with
      | [] => NaN
      | y :: s2 => if x =? y then compare_loop s1 s2 else Num (x - y)
      end
  end.

Definition compareLowballHands (hand1 hand2 : list Z) : jsnum :=
  let sorted1 := sort_desc hand1 in
  let sorted2 := sort_desc hand2 in
  compare_loop sorted1 sorted2.

(** [isStraight] (identical in both variants). *)
Definition slice (i j : nat) (l : list Z) : list Z := take (j - i) (drop i l).

Fixpoint isSliceStraight (sl : list Z) : bool :=
  match sl with
  | a :: ((b :: _) as tl) => if b =? a + 1 then isSliceStraight tl else false
  | _ => true
  end.

Definition isStraight (vals : list Z) : bool :=
  if (length vals <? 5)%nat then false
  else
    let sorted := sort_asc (set_of vals) in
    if (length sorted <? 5)%nat then false
    else existsb (λ i, isSliceStraight (slice i (i + 5) sorted))
                 (seq 0 (length sorted - 5 + 1)).


(** ** Strings *)

(** [Array.prototype.join] on an array of strings. *)
Fixpoint join (sep : string) (l : list string) : string :=
  match l with
  | [] => ""
  | [x] => x
  | x :: l' => x +:+ sep +:+ join sep l'
  end.

(** Numbers are integers here, printed in decimal. *)
Definition show (z : Z) : string := pretty z.

(** [`${x}`] for an array element that may be [undefined]. *)
Definition show_opt (o : option Z) : string :=
  match o with Some z => show z | None => "undefined" end.

(** [arr.join(sep)] and [arr.toString()] on an array of numbers. *)
Definition joinNums (sep : string) (l : list Z) : string := join sep (map show l).
Definition toString (l : list Z) : string := joinNums "," l.

Definition chars (s : string) : list ascii := list_ascii_of_string s.

Definition is_digit (c : ascii) : bool :=
  (48 <=? nat_of_ascii c)%nat && (nat_of_ascii c <=? 57)%nat.

(** [Number(c)] for a decimal digit [c]; it is only applied to characters
    that a [\d] of the guarding regular expression has matched. *)
Definition digit_value (c : ascii) : Z := Z.of_nat (nat_of_ascii c) - 48.

(** [Number.parseInt(s.charAt(i))]: [charAt] gives the empty string out of
    range, and [parseInt] of a string with no leading digit is [NaN]. *)
Definition parseInt_charAt (s : string) (i : nat) : jsnum :=
  match chars s !! i with
  | Some c => if is_digit c then Num (digit_value c) else NaN
  | None => NaN
  end.

(** [/^\d+s\+$/] *)
Definition match_threshold (p : string) : bool :=
  match reverse (chars p) with
  | plus :: s :: d :: ds =>
      Ascii.eqb plus "+" && Ascii.eqb s "s" && forallb is_digit (d :: ds)
  | _ => false
  end.

(** [/^\d{n}\+$/] *)
Definition match_digits_plus (n : nat) (p : string) : bool :=
  let cs := chars p in
  bool_decide (length cs = S n) && forallb is_digit (take n cs)
  && bool_decide (drop n cs = ["+"%char]).

(** [s.slice(0, -k)] *)
Definition slice_end (k : nat) (s : string) : string :=
  let cs := chars s in string_of_list_ascii (take (length cs - k) cs).

(** [s.includes(sub)] *)
Fixpoint str_includes_from (sub : string) (cs : list ascii) : bool :=
  String.prefix sub (string_of_list_ascii cs)
  || match cs with [] => false | _ :: cs' => str_includes_from sub cs' end.

Definition str_includes (s sub : string) : bool := str_includes_from sub (chars s).

(** [arr.includes(x)] on an array of numbers. *)
Definition includesNum (l : list Z) (x : jsnum) : bool :=
  match x with Num z => bool_decide (z ∈ l) | _ => false end.

Definition includesStr (l : list string) (x : string) : bool := bool_decide (x ∈ l).

(** ** Cards and the derived hand data (identical in both variants) *)

Record HandCard : Type := mkCard {
  rank : string;
  suit : string;
  display : string;
  value : Z
}.

(** [hand.map((card) => card.value).sort((a, b) => a - b)] *)
Definition handValues (hand : list HandCard) : list Z := sort_asc (map value hand).

Definition handSuits (hand : list HandCard) : list string := map suit hand.

(** [values.reduce((acc, val) => { acc[val] = (acc[val] || 0) + 1; return acc }, {})] *)
Definition valueCounts (values : list Z) : gmap Z nat :=
  foldl (λ acc val, <[val := (default 0 (acc !! val) + 1)%nat]> acc) ∅ values.

(** [Object.values(valueCounts).some((count) => count > 1)]; the order in
    which the counts are listed does not affect [some]. *)
Definition hasPair (values : list Z) : bool :=
  existsb (λ count, (1 <? count)%nat) (map_to_list (valueCounts values)).*2.

(** [new Set(suits).size === 1] *)
Definition hasFlush (suits : list string) : bool :=
  bool_decide (length (remove_dups suits) = 1%nat).

Definition hasWheel (values : list Z) : bool :=
  String.eqb (toString values) "2,3,4,5,14".

(** [Array.from(new Set(values)).sort((a, b) => a - b)] *)
Definition uniqueValues (values : list Z) : list Z := sort_asc (set_of values).

(** The condition guarding the pat-hand rule. *)
Definition patEligible (hand : list HandCard) : bool :=
  let values := handValues hand in
  negb (hasPair values) && negb (hasFlush (handSuits hand))
  && negb (isStraight values) && negb (hasWheel values).

(** The candidate four-card draw; [None] is [null]. *)
Definition fourBestCards (uniq : list Z) : option (list Z) :=
  if bool_decide (length uniq = 4%nat) then Some uniq
  else if bool_decide (length uniq = 5%nat) then Some (slice 0 4 uniq)
  else None.

(** The candidate three-card draws around a 2. *)
Definition threeCardDraws (uniq : list Z) : list (list Z) :=
  if (3 <=? length uniq)%nat then
    let otherCards := filter (λ v, v ≠ 2) uniq in
    match otherCards with
    | o0 :: o1 :: _ => [[2; o0; o1]]
    | _ => []
    end
  else [].

(** [valueCounts[k] >= n]; a missing key reads [undefined], which compares
    false. *)
Definition countAtLeast (counts : gmap Z nat) (k : Z) (n : nat) : bool :=
  match counts !! k with Some c => (n <=? c)%nat | None => false end.

(** ** The single-position variant *)

Module UTG.

Record Evaluation : Type := mkEvaluation {
  isPlayable : bool;
  correctAction : string;
  category : string;
  explanation : string
}.

(** The benchmarks of the general Draw-2 check, in [Object.entries] order
    (integer-like keys ascending, which is also the declared order). *)
Definition benchmarks : list (string * list Z) :=
  [("542", [5; 4; 2]); ("752", [7; 5; 2]); ("842", [8; 4; 2])]%string.

Definition evaluateUTGHand (hand : list HandCard) : Evaluation :=
  let values := handValues hand in
  let counts := valueCounts values in
  let patHit :=
    patEligible hand
    && match values !! 4%nat with Some highCard => highCard <=? 8 | None => false end in
  (* 1: pat hand *)
  if patHit then
    let highCard := show_opt (values !! 4%nat) in
    mkEvaluation true "raise" ("Pat " +:+ highCard +:+ "-high")
      ("A pat " +:+ highCard +:+ "-high is a strong made hand. A standard raise from UTG.")
  else
  let uniq := uniqueValues values in
  (* 2: exceptional fold (x7654) *)
  if (4 <=? length uniq)%nat && String.eqb (toString (slice 0 4 uniq)) "4,5,6,7" then
    mkEvaluation false "fold" "x7654 Trap Hand"
      "This hand draws to a straight (76543) and is a dangerous trap. Always fold."
  else
  (* 3: draw 1 *)
  let draw1 :=
    match fourBestCards uniq with
    | Some four =>
        if negb (isStraight four) && js_leb (compareLowballHands four [8; 6; 5; 4]) (Num 0)
        then Some four else None
    | None => None
    end in
  match draw1 with
  | Some four =>
      mkEvaluation true "raise" ("Draw 1 (" +:+ joinNums "" four +:+ ")")
        ("This hand has a four-card draw (" +:+ joinNums ", " four
         +:+ ") that is 8654 or better. This is a strong Draw 1.")
  | None =>
  (* 4: special 632xx / 762xx *)
  let highOver8 := js_gtb (Math_max values) (Num 8) in
  let has632Pattern :=
    bool_decide (length uniq = 5%nat) && bool_decide (6 ∈ values)
    && bool_decide (3 ∈ values) && bool_decide (2 ∈ values) && highOver8 in
  let has762Pattern :=
    bool_decide (length uniq = 5%nat) && bool_decide (7 ∈ values)
    && bool_decide (6 ∈ values) && bool_decide (2 ∈ values) && highOver8 in
  let shape := if has632Pattern then "632" else "762" in
  if has632Pattern || has762Pattern then
    if countAtLeast counts 2 2 then
      mkEvaluation true "raise" "Draw 2 (Special Blocker)"
        ("A hand like " +:+ shape
         +:+ " with a pair of 2s is a playable Draw 2 due to the blocker effect.")
    else
      mkEvaluation false "fold" "Weak Draw 2"
        ("A hand like " +:+ shape
         +:+ " without a pair of 2s is too weak to play from UTG.")
  else
  (* 5: general draw 2 *)
  let draw2 :=
    if bool_decide (2 ∈ values) then
      match threeCardDraws uniq with
      | best3With2 :: _ =>
          match List.find (λ nb, js_leb (compareLowballHands best3With2 nb.2) (Num 0))
                          benchmarks with
          | Some nb => Some (best3With2, nb.1)
          | None => None
          end
      | [] => None
      end
    else None in
  match draw2 with
  | Some (best3With2, name) =>
      mkEvaluation true "raise" ("Draw 2 (" +:+ name +:+ "+)")
        ("This hand has a three-card draw (" +:+ joinNums ", " best3With2
         +:+ ") that is " +:+ name +:+ " or better. This is a standard Draw 2.")
  | None =>
  (* 6: exceptional blocker raises *)
  if countAtLeast counts 2 2 && countAtLeast counts 3 2 then
    mkEvaluation true "raise" "Draw 3 (3322x Blocker)"
      "This hand has strong blockers (two 2s and two 3s) and is a playable Draw 3."
  else if countAtLeast counts 2 3
          && (bool_decide (3 ∈ values) || bool_decide (4 ∈ values) || bool_decide (7 ∈ values))
  then
    let kicker := List.find (λ v, (v =? 3) || (v =? 4) || (v =? 7)) values in
    mkEvaluation true "raise" ("Draw 3 (" +:+ show_opt kicker +:+ "222x Blocker)")
      "With three 2s, this hand has a powerful blocker effect, making it a playable Draw 3."
  else
    mkEvaluation false "fold" "Fold"
      "This hand does not meet the minimum requirements to be played from UTG."
  end
  end.

End UTG.

(** ** The multi-position variant *)

(** Outcome of a call that may throw a [TypeError] (a property read on
    [undefined]) or recurse without returning; [Diverges] is what a call
    yields when its recursion is not finished within the given depth. *)
Inductive outcome (A : Type) : Type :=
  | Returns (a : A)
  | Throws
  | Diverges.
Arguments Returns {A} a.
Arguments Throws {A}.
Arguments Diverges {A}.

#[global] Instance outcome_ret : MRet outcome := λ A a, Returns a.
#[global] Instance outcome_bind : MBind outcome := λ A B f m,
  match m with
  | Returns a => f a
  | Throws => Throws
  | Diverges => Diverges
  end.

Module Multi.

Inductive LearningPosition : Type := UTG | HJ | CO | BTN | SB | BB.

#[global] Instance LearningPosition_eq_dec : EqDecision LearningPosition.
Proof. solve_decision. Defined.

Definition allPositions : list LearningPosition := [UTG; HJ; CO; BTN; SB; BB].

Definition positionName (p : LearningPosition) : string :=
  match p with
  | UTG => "UTG" | HJ => "HJ" | CO => "CO" | BTN => "BTN" | SB => "SB" | BB => "BB"
  end.

Record HandRange : Type := mkRange {
  includes : list string;
  excludes : list string
}.

Record PositionStrategy : Type := mkStrategy {
  position : LearningPosition;
  patHands : HandRange;
  draw1Hands : HandRange;
  draw2Hands : HandRange;
  draw3Hands : HandRange;
  draw4Hands : HandRange;
  inheritsFrom : option LearningPosition
}.

Record Evaluation : Type := mkEvaluation {
  isPlayable : bool;
  correctAction : string;
  category : string;
  explanation : string;
  ruleUsed : string;
  benchmark : option string;
  minimumRaiseExample : option string
}.

(** The built-in strategy table. *)
Definition positionStrategies : list PositionStrategy := [
  mkStrategy UTG
    (mkRange ["8s+"] [])
    (mkRange ["8654+"] ["7654"])
    (mkRange ["542+"; "752+"; "842+"; "6322+"; "7622+"] [])
    (mkRange ["3222"; "3322"; "3332"; "4222"; "7222"] [])
    (mkRange [] [])
    None;
  mkStrategy HJ
    (mkRange [] [])
    (mkRange ["8753"; "8754"] [])
    (mkRange ["762"; "852"; "753"; "6322"; "8722"] [])
    (mkRange ["3222"; "3322"; "4422"; "5222"; "7722"] [])
    (mkRange [] [])
    (Some UTG);
  mkStrategy CO
    (mkRange ["96543"; "97654"] [])
    (mkRange [] [])
    (mkRange ["632"; "754"; "854"; "872"] [])
    (mkRange ["32"; "42"; "72"; "522"] [])
    (mkRange [] [])
    (Some HJ);
  mkStrategy BTN
    (mkRange ["T9875"; "T8765"; "T7654"; "T6543"] [])
    (mkRange ["all"] [])
    (mkRange ["all"] ["654"; "765"; "876"])
    (mkRange ["52"; "622"; "822"] [])
    (mkRange ["22"] [])
    (Some CO);
  mkStrategy SB
    (mkRange [] [])
    (mkRange [] [])
    (mkRange ["limp/raise strategy"] [])
    (mkRange ["limp/raise strategy"] [])
    (mkRange ["limp 2"; "33-55"] [])
    (Some BTN);
  mkStrategy BB
    (mkRange [] [])
    (mkRange [] [])
    (mkRange ["vs SB limp: any d2"] [])
    (mkRange ["vs SB limp: 63+"] [])
    (mkRange [] [])
    (Some SB)
]%string.

(** On a [HandRange] (the only shape the typed table holds) the legacy
    converter rebuilds the range from its two lists. *)
Definition convertLegacyHandRange (legacyData : HandRange) : HandRange :=
  mkRange (includes legacyData) (excludes legacyData).

(** The benchmark of an [NNNN+] or [NNN+] pattern:
    [pattern.slice(0, -1).split("").map(Number).sort((a, b) => a - b)]. *)
Definition benchmarkOf (pattern : string) : list Z :=
  sort_asc (map digit_value (chars (slice_end 1 pattern))).

(** The body of the fourth branch of [interpretBetterHand] (the pattern with
    a pair requirement). *)
Definition blockerPairRule (pattern : string) (testHand : list Z) : bool :=
  let basePattern := slice_end 3 pattern in
  let pairCard := parseInt_charAt pattern 2 in
  includesNum testHand (parseInt_charAt basePattern 0)
  && includesNum testHand (parseInt_charAt basePattern 1)
  && (2 <=? length (filter (λ x, Num x = pairCard) testHand))%nat.

Definition interpretBetterHand (pattern : string) (testHand : list Z) : bool :=
  if match_threshold pattern then
    let threshold := parseInt_charAt pattern 0 in
    let highCard := Math_max testHand in
    js_leb highCard threshold
  else if match_digits_plus 4 pattern then
    js_leb (compareLowballHands testHand (benchmarkOf pattern)) (Num 0)
  else if match_digits_plus 3 pattern then
    js_leb (compareLowballHands testHand (benchmarkOf pattern)) (Num 0)
  else if match_digits_plus 4 pattern && str_includes pattern "22" then
    blockerPairRule pattern testHand
  else false.

(** [parent.X.includes] followed by [current.X.includes], and likewise for
    [excludes]. *)
Definition mergeRange (parent current : HandRange) : HandRange :=
  mkRange (includes parent ++ includes current) (excludes parent ++ excludes current).

(** [getFullStrategy]; [fuel] bounds the depth of the recursion.  The
    result [None] is [undefined] ([positionStrategies[0]] of an empty
    table). *)
Fixpoint getFullStrategy (fuel : nat) (table : list PositionStrategy)
    (pos : LearningPosition) : outcome (option PositionStrategy) :=
  match fuel with
  | O => Diverges
  | S fuel' =>
      match List.find (λ s, bool_decide (position s = pos)) table with
      | None => Returns (head table)
      | Some strategy =>
          match inheritsFrom strategy with
          | None =>
              Returns (Some (mkStrategy (position strategy)
                (convertLegacyHandRange (patHands strategy))
                (convertLegacyHandRange (draw1Hands strategy))
                (convertLegacyHandRange (draw2Hands strategy))
                (convertLegacyHandRange (draw3Hands strategy))
                (convertLegacyHandRange (draw4Hands strategy))
                (inheritsFrom strategy)))
          | Some parent =>
              r ← getFullStrategy fuel' table parent;
              match r with
              | None => Throws
              | Some parentStrategy =>
                  Returns (Some (mkStrategy (position strategy)
                    (mergeRange (patHands parentStrategy)
                       (convertLegacyHandRange (patHands strategy)))
                    (mergeRange (draw1Hands parentStrategy)
                       (convertLegacyHandRange (draw1Hands strategy)))
                    (mergeRange (draw2Hands parentStrategy)
                       (convertLegacyHandRange (draw2Hands strategy)))
                    (mergeRange (draw3Hands parentStrategy)
                       (convertLegacyHandRange (draw3Hands strategy)))
                    (mergeRange (draw4Hands parentStrategy)
                       (convertLegacyHandRange (draw4Hands strategy)))
                    (inheritsFrom strategy)))
              end
          end
      end
  end.

(** The text built from a resolved strategy by [getMinimumRaiseExample]. *)
Definition minimumRaiseText (strategy : PositionStrategy) : string :=
  let examples :=
    (match includes (patHands strategy) with p :: _ => ["Pat: " +:+ p] | [] => [] end)
    ++ (match includes (draw1Hands strategy) with p :: _ => ["Draw1: " +:+ p] | [] => [] end)
    ++ (match includes (draw2Hands strategy) with p :: _ => ["Draw2: " +:+ p] | [] => [] end) in
  let joined := join ", " examples in
  if String.eqb joined "" then "Minimum playable hand for this position" else joined.

Definition getMinimumRaiseExample (fuel : nat) (table : list PositionStrategy)
    (pos : LearningPosition) : outcome string :=
  r ← getFullStrategy fuel table pos;
  match r with
  | None => Throws
  | Some strategy => Returns (minimumRaiseText strategy)
  end.

Definition inheritedNote (pos : LearningPosition) : string :=
  if bool_decide (pos ≠ UTG) then "Inherited from parent position." else "Standard range.".

Definition ruleName (pos : LearningPosition) (kind pattern : string) : string :=
  if bool_decide (pos ≠ UTG) then "Inherited " +:+ kind +:+ " (" +:+ pattern +:+ ")"
  else kind +:+ " (" +:+ pattern +:+ ")".

(** Pat hand evaluation: the first include pattern that the sorted values
    satisfy. *)
Definition patEvaluation (strategy : PositionStrategy) (hand : list HandCard)
    (pos : LearningPosition) : option Evaluation :=
  let values := handValues hand in
  if patEligible hand then
    match List.find (λ pattern, interpretBetterHand pattern values)
                    (includes (patHands strategy)) with
    | Some pattern =>
        Some (mkEvaluation true "raise"
          ("Pat " +:+ show_opt (values !! 4%nat) +:+ "-high")
          ("This pat hand meets the " +:+ pattern +:+ " requirement. " +:+ inheritedNote pos)
          (ruleName pos "Pat Range" pattern)
          (Some pattern) None)
    | None => None
    end
  else None.

(** Draw 1 evaluation: the exclusion, then the patterns, then the literal
    hand string. *)
Definition draw1Evaluation (fuel : nat) (table : list PositionStrategy)
    (strategy : PositionStrategy) (hand : list HandCard) (pos : LearningPosition)
    : outcome (option Evaluation) :=
  let uniq := uniqueValues (handValues hand) in
  match fourBestCards uniq with
  | Some four =>
      if negb (isStraight four) then
        let draw1Strategy := draw1Hands strategy in
        let handString := joinNums "" four in
        if (includesStr (excludes draw1Strategy) handString
            || includesStr (excludes draw1Strategy) "7654")
           && String.eqb handString "4567"
        then
          example ← getMinimumRaiseExample fuel table pos;
          Returns (Some (mkEvaluation false "fold" "Draw 1 Excluded (7654)"
            "7654 is specifically excluded from the Draw 1 range."
            (positionName pos +:+ " Draw 1 Exclusion")
            (Some "7654 excluded") (Some example)))
        else
          match List.find (λ pattern, String.eqb pattern "all"
                                       || interpretBetterHand pattern four)
                          (includes draw1Strategy) with
          | Some pattern =>
              Returns (Some (mkEvaluation true "raise"
                ("Draw 1 (" +:+ handString +:+ ")")
                ("This draw 1 meets the " +:+ pattern +:+ " requirement. "
                 +:+ inheritedNote pos)
                (ruleName pos "Draw 1" pattern)
                (Some pattern) None))
          | None =>
              if includesStr (includes draw1Strategy) handString then
                Returns (Some (mkEvaluation true "raise"
                  ("Draw 1 (" +:+ handString +:+ ")")
                  (handString +:+ " is specifically included in the "
                   +:+ positionName pos +:+ " range.")
                  (positionName pos +:+ " Draw 1 Specific")
                  (Some handString) None))
              else Returns None
          end
      else Returns None
  | None => Returns None
  end.

(** Draw 2 evaluation: the best three-card draw around a 2 against the
    include patterns. *)
Definition draw2Evaluation (strategy : PositionStrategy) (hand : list HandCard)
    (pos : LearningPosition) : option Evaluation :=
  let values := handValues hand in
  if bool_decide (2 ∈ values) then
    match threeCardDraws (uniqueValues values) with
    | best3With2 :: _ =>
        match List.find (λ pattern, interpretBetterHand pattern best3With2)
                        (includes (draw2Hands strategy)) with
        | Some pattern =>
            Some (mkEvaluation true "raise"
              ("Draw 2 (" +:+ joinNums "" best3With2 +:+ ")")
              ("This draw 2 meets the " +:+ pattern +:+ " requirement. "
               +:+ inheritedNote pos)
              (ruleName pos "Draw 2" pattern)
              (Some pattern) None)
        | None => None
        end
    | [] => None
    end
  else None.

(** [evaluateHandForPosition].  Every path reads a field of the resolved
    strategy before it returns, so an [undefined] strategy throws. *)
Definition evaluateHandForPosition (fuel : nat) (table : list PositionStrategy)
    (hand : list HandCard) (pos : LearningPosition) : outcome Evaluation :=
  r ← getFullStrategy fuel table pos;
  match r with
  | None => Throws
  | Some strategy =>
      match patEvaluation strategy hand pos with
      | Some e => Returns e
      | None =>
          d1 ← draw1Evaluation fuel table strategy hand pos;
          match d1 with
          | Some e => Returns e
          | None =>
              match draw2Evaluation strategy hand pos with
              | Some e => Returns e
              | None =>
                  example ← getMinimumRaiseExample fuel table pos;
                  Returns (mkEvaluation false "fold" "Fold"
                    ("This hand does not meet the minimum requirements for "
                     +:+ positionName pos +:+ ".")
                    (positionName pos +:+ " Minimum Standards")
                    (Some ("Below " +:+ positionName pos +:+ " threshold"))
                    (Some example))
              end
          end
      end
  end.

End Multi.

(** ** Notions used in the statements *)

Import Multi.

(** The number of copies of [v] in [l]. *)
Definition copies (v : Z) (l : list Z) : nat := length (filter (λ x, x = v) l).

(** The three sign tests a caller can make on the comparator's result. *)
Definition isNegative (r : jsnum) : bool := js_ltb r (Num 0).
Definition isZero (r : jsnum) : bool := bool_decide (r = Num 0).
Definition isPositive (r : jsnum) : bool := js_gtb r (Num 0).

(** Values whose differences a double holds exactly: every entry lies
    between -2^52 and 2^52, so every difference of two entries lies between
    -2^53 and 2^53 and is the number that the subtraction of the code
    returns. *)
Definition exactValues (l : list Z) : bool :=
  forallb (λ v, (- 2 ^ 52 <=? v) && (v <=? 2 ^ 52)) l.

(** Exactly one of three tests succeeds. *)
Definition exactlyOne (a b c : bool) : Prop :=
  (a, b, c) = (true, false, false) ∨ (a, b, c) = (false, true, false)
  ∨ (a, b, c) = (false, false, true).

(** All pat-hand include patterns of the built-in table, in the order in
    which the inheritance chain UTG, HJ, CO, BTN lists them. *)
Definition defaultPatPatterns : list string :=
  ["8s+"; "96543"; "97654"; "T9875"; "T8765"; "T7654"; "T6543"]%string.

(** Whether a resolved strategy makes a hand playable, rule by rule: the
    three rules of [evaluateHandForPosition] as boolean tests, and the
    Draw-1 exclusion test on a list of excludes. *)
Definition patMatch (strategy : PositionStrategy) (hand : list HandCard) : bool :=
  patEligible hand
  && existsb (λ pattern, interpretBetterHand pattern (handValues hand))
             (includes (patHands strategy)).

Definition draw1Excluded (excl : list string) (hand : list HandCard) : bool :=
  match fourBestCards (uniqueValues (handValues hand)) with
  | Some four =>
      negb (isStraight four)
      && ((includesStr excl (joinNums "" four) || includesStr excl "7654")
          && String.eqb (joinNums "" four) "4567")
  | None => false
  end.

Definition draw1Match (strategy : PositionStrategy) (hand : list HandCard) : bool :=
  match fourBestCards (uniqueValues (handValues hand)) with
  | Some four =>
      negb (isStraight four)
      && (existsb (λ pattern, String.eqb pattern "all" || interpretBetterHand pattern four)
                  (includes (draw1Hands strategy))
          || includesStr (includes (draw1Hands strategy)) (joinNums "" four))
  | None => false
  end.

Definition draw2Match (strategy : PositionStrategy) (hand : list HandCard) : bool :=
  bool_decide (2 ∈ handValues hand)
  && match threeCardDraws (uniqueValues (handValues hand)) with
     | best3With2 :: _ =>
         existsb (λ pattern, interpretBetterHand pattern best3With2)
                 (includes (draw2Hands strategy))
     | [] => false
     end.

Definition playableUnder (strategy : PositionStrategy) (hand : list HandCard) : bool :=
  patMatch strategy hand
  || (negb (draw1Excluded (excludes (draw1Hands strategy)) hand)
      && (draw1Match strategy hand || draw2Match strategy hand)).

(** The position whose strategy the resolver asks for next: the
    [inheritsFrom] of the first entry declared for [pos]. *)
Definition parentOf (table : list PositionStrategy) (pos : LearningPosition)
    : option LearningPosition :=
  match List.find (λ s, bool_decide (position s = pos)) table with
  | Some strategy => inheritsFrom strategy
  | None => None
  end.

(** The inheritance chain from a position comes to an end, at an entry
    without [inheritsFrom] or at a position that has no entry: the chain is
    acyclic. *)
Inductive chainEnds (table : list PositionStrategy) : LearningPosition → Prop :=
  | chain_stop pos : parentOf table pos = None → chainEnds table pos
  | chain_step pos parent :
      parentOf table pos = Some parent → chainEnds table parent → chainEnds table pos.

(** The number of links of a chain that ends. *)
Inductive depthIs (table : list PositionStrategy) : LearningPosition → nat → Prop :=
  | depth_stop pos : parentOf table pos = None → depthIs table pos 0
  | depth_step pos parent d :
      parentOf table pos = Some parent → depthIs table parent d →
      depthIs table pos (S d).

(** The position reached after [n] links. *)
Fixpoint ancestor (table : list PositionStrategy) (n : nat) (pos : LearningPosition)
    : option LearningPosition :=
  match n with
  | O => Some pos
  | S n' =>
      match parentOf table pos with
      | Some parent => ancestor table n' parent
      | None => None
      end
  end.

(** A position that is its own ancestor. *)
Definition onCycle (table : list PositionStrategy) (pos : LearningPosition) : Prop :=
  ∃ n, ancestor table (S n) pos = Some pos.

(** Hands used as examples: 9-7-6-5-4, the wheel A-5-4-3-2, T-T-T-9-2 and
    9-6-3-2-2. *)
Definition trapHand : list HandCard :=
  [mkCard "9" "♠" "9♠" 9; mkCard "7" "♥" "7♥" 7; mkCard "6" "♦" "6♦" 6;
   mkCard "5" "♣" "5♣" 5; mkCard "4" "♠" "4♠" 4]%string.

Definition wheelHand : list HandCard :=
  [mkCard "A" "♠" "A♠" 14; mkCard "5" "♥" "5♥" 5; mkCard "4" "♦" "4♦" 4;
   mkCard "3" "♣" "3♣" 3; mkCard "2" "♠" "2♠" 2]%string.

Definition tensHand : list HandCard :=
  [mkCard "T" "♠" "T♠" 10; mkCard "T" "♥" "T♥" 10; mkCard "T" "♦" "T♦" 10;
   mkCard "9" "♣" "9♣" 9; mkCard "2" "♠" "2♠" 2]%string.

Definition blockerHand : list HandCard :=
  [mkCard "9" "♠" "9♠" 9; mkCard "6" "♥" "6♥" 6; mkCard "3" "♦" "3♦" 3;
   mkCard "2" "♣" "2♣" 2; mkCard "2" "♠" "2♠" 2]%string.

Definition emptyRange : HandRange := mkRange [] [].

(** A table whose only entry inherits from itself, and a table whose HJ
    entry inherits from a position that has no entry. *)
Definition cyclicTable : list PositionStrategy :=
  [mkStrategy UTG (mkRange ["8s+"%string] []) emptyRange emptyRange emptyRange emptyRange
     (Some UTG)].

Definition danglingTable : list PositionStrategy :=
  [mkStrategy UTG (mkRange ["8s+"%string] []) emptyRange emptyRange emptyRange emptyRange
     None;
   mkStrategy HJ (mkRange ["9s+"%string] []) emptyRange emptyRange emptyRange emptyRange
     (Some CO)].

(** ** Notions used in the further properties *)

(** Two entries agree on what the evaluator reads for a given hand: the
    position, the parent, the pat, Draw-1 and Draw-2 includes, and the
    outcome of the Draw-1 exclusion test on their excludes. *)
Definition agreeFor (hand : list HandCard) (e e' : PositionStrategy) : Prop :=
  position e = position e' ∧ inheritsFrom e = inheritsFrom e'
  ∧ includes (patHands e) = includes (patHands e')
  ∧ includes (draw1Hands e) = includes (draw1Hands e')
  ∧ draw1Excluded (excludes (draw1Hands e)) hand
    = draw1Excluded (excludes (draw1Hands e')) hand
  ∧ includes (draw2Hands e) = includes (draw2Hands e').

(** Two entries that differ at most in the pat excludes, the Draw-2
    excludes and the Draw-3 and Draw-4 ranges. *)
Definition sameUsedRanges (e e' : PositionStrategy) : Prop :=
  position e = position e' ∧ inheritsFrom e = inheritsFrom e'
  ∧ includes (patHands e) = includes (patHands e')
  ∧ draw1Hands e = draw1Hands e'
  ∧ includes (draw2Hands e) = includes (draw2Hands e').

(** Two entries that differ at most in those and in the Draw-1 excludes. *)
Definition sameIncludes (e e' : PositionStrategy) : Prop :=
  position e = position e' ∧ inheritsFrom e = inheritsFrom e'
  ∧ includes (patHands e) = includes (patHands e')
  ∧ includes (draw1Hands e) = includes (draw1Hands e')
  ∧ includes (draw2Hands e) = includes (draw2Hands e').

(** Agreement of two outcomes of the resolver. *)
Definition agreeOutcome (hand : list HandCard)
    (o o' : outcome (option PositionStrategy)) : Prop :=
  match o, o' with
  | Returns r, Returns r' => option_Forall2 (agreeFor hand) r r'
  | Throws, Throws => True
  | Diverges, Diverges => True
  | _, _ => False
  end.


(** The built-in table without the ranges that the evaluator does not
    read, and without any Draw-1 excludes. *)
Definition strippedStrategies : list PositionStrategy :=
  map (λ e, mkStrategy (position e) (mkRange (includes (patHands e)) [])
              (draw1Hands e) (mkRange (includes (draw2Hands e)) [])
              emptyRange emptyRange (inheritsFrom e))
      positionStrategies.

Definition unexcludedStrategies : list PositionStrategy :=
  map (λ e, mkStrategy (position e) (patHands e)
              (mkRange (includes (draw1Hands e)) [])
              (draw2Hands e) (draw3Hands e) (draw4Hands e) (inheritsFrom e))
      positionStrategies.


(** ** Dealing a hand

    [generateRandomHand] draws a rank index and a suit index with
    [Math.floor(Math.random() * n)] until five different cards are in hand.
    The random source is an explicit list of index pairs; a list that runs
    out before the hand is full gives [None] (the loop is still running). *)

(** [Number.parseInt] on a string of decimal digits: the value of the
    leading digits, [NaN] when there is none.  (Blanks, signs and radix
    prefixes, which no rank has, are not modelled.) *)
Fixpoint leadingDigits (cs : list ascii) (acc : option Z) : option Z :=
  match cs with
  | c :: cs' =>
      if is_digit c then leadingDigits cs' (Some (default 0 acc * 10 + digit_value c))
      else acc
  | [] => acc
  end.

Definition parseInt (s : string) : jsnum :=
  match leadingDigits (chars s) None with Some z => Num z | None => NaN end.

Definition getValue (rank : string) : jsnum :=
  if String.eqb rank "A" then Num 14
  else if String.eqb rank "K" then Num 13
  else if String.eqb rank "Q" then Num 12
  else if String.eqb rank "J" then Num 11
  else if String.eqb rank "T" then Num 10
  else parseInt rank.

(** The decks of the two variants. *)
Definition ranks13 : list string :=
  ["2"; "3"; "4"; "5"; "6"; "7"; "8"; "9"; "T"; "J"; "Q"; "K"; "A"]%string.
Definition ranks9 : list string :=
  ["2"; "3"; "4"; "5"; "6"; "7"; "8"; "9"; "T"]%string.
Definition suits : list string := ["♠"; "♥"; "♦"; "♣"]%string.

(** The [value] field of a card is a number; [getValue] is a number on
    every rank of either deck (lemma [getValue_ranks]), so the other cases
    of this reading are never used. *)
Definition numberOf (x : jsnum) : Z := match x with Num z => z | _ => 0 end.

Definition makeCard (rank suit : string) : HandCard :=
  mkCard rank suit (rank +:+ suit) (numberOf (getValue rank)).

(** The [while (hand.length < 5)] loop; [usedCards] is the set of card
    keys.  An index outside the deck is not a value of
    [Math.floor(Math.random() * n)] and ends the model with [None]. *)
Fixpoint dealLoop (ranks : list string) (draws : list (nat * nat))
    (hand : list HandCard) (usedCards : gset string) : option (list HandCard) :=
  if (length hand <? 5)%nat then
    match draws with
    | [] => None
    | (i, j) :: draws' =>
        match ranks !! i, suits !! j with
        | Some rank, Some suit =>
            let cardKey := rank +:+ suit in
            if decide (cardKey ∈ usedCards) then dealLoop ranks draws' hand usedCards
            else dealLoop ranks draws' (hand ++ [makeCard rank suit])
                          ({[cardKey]} ∪ usedCards)
        | _, _ => None
        end
    end
  else Some hand.

(** [hand.sort((a, b) => b.value - a.value)] *)
Definition sortHand (hand : list HandCard) : list HandCard :=
  sort_by (λ a b, value b - value a) hand.

Definition generateRandomHand (ranks : list string) (draws : list (nat * nat))
    : option (list HandCard) :=
  match dealLoop ranks draws [] ∅ with
  | Some hand => Some (sortHand hand)
  | None => None
  end.


(** ** The trainer's state and handlers (single-position variant)

    The component keeps a [GameState] and the cards shown for the player
    "You".  A handler reads the state of the last render ([gameState]) and
    queues updates, each a function of the state before it ([prev]); the
    handler's effect is the composition of its updates, in the order queued.
    The fields [pot], [currentBet] and [drawsLeft] and the five other players
    are set once and carried unchanged by every update; they are left out.
    [Date.now()] and the random suffix of a mistake's id are inputs. *)

Module UTGApp.

Record MistakeRecord : Type := mkMistake {
  mistakeId : string;
  mistakeHand : list HandCard;
  userAction : string;
  mistakeCorrectAction : string;
  mistakeCategory : string;
  mistakeExplanation : string;
  timestamp : Z
}.

Record ReviewStats : Type := mkStats {
  totalReviewed : Z;
  correctOnReview : Z
}.

Record DrillModeState : Type := mkDrill {
  isActive : bool;
  mistakePool : list MistakeRecord;
  currentMistakeIndex : nat;
  reviewStats : ReviewStats
}.

Inductive Phase : Type := learning | drill.

#[global] Instance Phase_eq_dec : EqDecision Phase.
Proof. solve_decision. Defined.

Record Score : Type := mkScore {
  correct : Z;
  total : Z
}.

Record GameState : Type := mkGame {
  phase : Phase;
  currentHand : list HandCard;
  isPlayable : bool;
  showAnswer : bool;
  score : Score;
  playerAction : option string;
  correctAction : string;
  handCategory : string;
  explanation : string;
  mistakes : list MistakeRecord;
  drillMode : DrillModeState
}.

(** The game state together with the [cards] of the player "You". *)
Record AppState : Type := mkApp {
  gameState : GameState;
  yourCards : list string
}.

Definition initialState : AppState :=
  mkApp (mkGame learning [] false false (mkScore 0 0) None "fold" "" "" []
           (mkDrill false [] 0 (mkStats 0 0)))
        [].

Definition setGameState (f : GameState → GameState) (s : AppState) : AppState :=
  mkApp (f (gameState s)) (yourCards s).

Definition setYourCards (cards : list string) (s : AppState) : AppState :=
  mkApp (gameState s) cards.

(** The update of [dealNewHand] and [loadDrillHand]: a hand and its
    evaluation are shown, the answer is hidden. *)
Definition showHand (hand : list HandCard) (drillMode' : DrillModeState)
    (prev : GameState) : GameState :=
  let evaluation := UTG.evaluateUTGHand hand in
  mkGame (phase prev) hand (UTG.isPlayable evaluation) false (score prev) None
    (UTG.correctAction evaluation) (UTG.category evaluation)
    (UTG.explanation evaluation) (mistakes prev) drillMode'.

(** [dealNewHand], given the hand that [generateRandomHand] returned. *)
Definition dealNewHand (newHand : list HandCard) : AppState → AppState :=
  λ s, setYourCards (map display newHand)
         (setGameState (λ prev, showHand newHand (drillMode prev) prev) s).

Definition addScore (isCorrect : bool) (sc : Score) : Score :=
  mkScore (correct sc + (if isCorrect then 1 else 0)) (total sc + 1).

Definition answered (action : string) (score' : Score)
    (mistakes' : list MistakeRecord) (drillMode' : DrillModeState)
    (prev : GameState) : GameState :=
  mkGame (phase prev) (currentHand prev) (isPlayable prev) true score' (Some action)
    (correctAction prev) (handCategory prev) (explanation prev) mistakes' drillMode'.

Definition handlePlayerAction (gameState : GameState) (action : string)
    (now : Z) (randomSuffix : string) : AppState → AppState :=
  let isCorrect := bool_decide (action = correctAction gameState) in
  if negb isCorrect && bool_decide (phase gameState = learning) then
    let mistakeRecord :=
      mkMistake ("mistake_" +:+ show now +:+ "_" +:+ randomSuffix)
        (currentHand gameState) action (correctAction gameState)
        (handCategory gameState) (explanation gameState) now in
    setGameState (λ prev,
      answered action (addScore isCorrect (score prev))
        (mistakes prev ++ [mistakeRecord]) (drillMode prev) prev)
  else if bool_decide (phase gameState = drill) then
    setGameState (λ prev,
      answered action (score prev) (mistakes prev)
        (mkDrill (isActive (drillMode prev)) (mistakePool (drillMode prev))
           (currentMistakeIndex (drillMode prev))
           (mkStats (totalReviewed (reviewStats (drillMode prev)) + 1)
              (correctOnReview (reviewStats (drillMode prev))
               + (if isCorrect then 1 else 0))))
        prev)
  else
    setGameState (λ prev,
      answered action (addScore isCorrect (score prev)) (mistakes prev)
        (drillMode prev) prev).

Definition loadDrillHand (gameState : GameState) (index : nat) : AppState → AppState :=
  match mistakes gameState !! index with
  | None => λ s, s
  | Some mistake =>
      λ s, setYourCards (map display (mistakeHand mistake))
             (setGameState (λ prev,
                showHand (mistakeHand mistake)
                  (mkDrill (isActive (drillMode prev)) (mistakePool (drillMode prev))
                     index (reviewStats (drillMode prev)))
                  prev) s)
  end.

Definition setPhase (p : Phase) (drillMode' : DrillModeState) (prev : GameState)
    : GameState :=
  mkGame p (currentHand prev) (isPlayable prev) (showAnswer prev) (score prev)
    (playerAction prev) (correctAction prev) (handCategory prev) (explanation prev)
    (mistakes prev) drillMode'.

Definition startDrillMode (gameState : GameState) : AppState → AppState :=
  if bool_decide (length (mistakes gameState) = 0%nat) then λ s, s
  else
    λ s, loadDrillHand gameState 0
           (setGameState (λ prev,
              setPhase drill (mkDrill true (mistakes prev) 0 (mkStats 0 0)) prev) s).

Definition leaveDrill (prev : GameState) : GameState :=
  setPhase learning
    (mkDrill false (mistakePool (drillMode prev))
       (currentMistakeIndex (drillMode prev)) (reviewStats (drillMode prev)))
    prev.

Definition nextDrillHand (gameState : GameState) (newHand : list HandCard)
    : AppState → AppState :=
  let nextIndex := (currentMistakeIndex (drillMode gameState) + 1)%nat in
  if (nextIndex <? length (mistakes gameState))%nat then loadDrillHand gameState nextIndex
  else λ s, dealNewHand newHand (setGameState leaveDrill s).

Definition exitDrillMode (newHand : list HandCard) : AppState → AppState :=
  λ s, dealNewHand newHand (setGameState leaveDrill s).

Definition clearMistakes : AppState → AppState :=
  setGameState (λ prev,
    mkGame (phase prev) (currentHand prev) (isPlayable prev) (showAnswer prev)
      (score prev) (playerAction prev) (correctAction prev) (handCategory prev)
      (explanation prev) [] (drillMode prev)).

Definition nextHand (gameState : GameState) (newHand : list HandCard)
    : AppState → AppState :=
  if bool_decide (phase gameState = drill) then nextDrillHand gameState newHand
  else dealNewHand newHand.

(** What the user, the clock and the random source can make happen.  The
    hand of an event is the one that [generateRandomHand] returns when the
    handler deals. *)
Inductive Event : Type :=
  | Act (action : string) (now : Z) (randomSuffix : string)
  | Next (newHand : list HandCard)
  | StartDrill
  | ExitDrill (newHand : list HandCard)
  | Clear.

(** A handler runs on the state of the last render, which is the current
    one. *)
Definition step (s : AppState) (ev : Event) : AppState :=
  match ev with
  | Act action now randomSuffix =>
      handlePlayerAction (gameState s) action now randomSuffix s
  | Next newHand => nextHand (gameState s) newHand s
  | StartDrill => startDrillMode (gameState s) s
  | ExitDrill newHand => exitDrillMode newHand s
  | Clear => clearMistakes s
  end.

(** The component mounts by dealing a hand; then events follow. *)
Definition run (firstHand : list HandCard) (events : list Event) : AppState :=
  foldl step (dealNewHand firstHand initialState) events.

End UTGApp.


(** Invariants of the single-position trainer. *)

(** The counters add up: every answer counted in [total] was right, or was
    a mistake that may still be on the list. *)
Definition countersOk (g : UTGApp.GameState) : Prop :=
  0 ≤ UTGApp.correct (UTGApp.score g)
  ∧ UTGApp.correct (UTGApp.score g) + Z.of_nat (length (UTGApp.mistakes g))
    ≤ UTGApp.total (UTGApp.score g)
  ∧ 0 ≤ UTGApp.correctOnReview (UTGApp.reviewStats (UTGApp.drillMode g))
  ∧ UTGApp.correctOnReview (UTGApp.reviewStats (UTGApp.drillMode g))
    ≤ UTGApp.totalReviewed (UTGApp.reviewStats (UTGApp.drillMode g)).

(** The answer shown belongs to the hand shown. *)
Definition answerOfHand (g : UTGApp.GameState) : Prop :=
  UTGApp.correctAction g = UTG.correctAction (UTG.evaluateUTGHand (UTGApp.currentHand g))
  ∧ UTGApp.isPlayable g = UTG.isPlayable (UTG.evaluateUTGHand (UTGApp.currentHand g)).

(** A record is a real mistake on its hand. *)
Definition genuine (m : UTGApp.MistakeRecord) : Prop :=
  UTGApp.userAction m ≠ UTGApp.mistakeCorrectAction m
  ∧ UTGApp.mistakeCorrectAction m
    = UTG.correctAction (UTG.evaluateUTGHand (UTGApp.mistakeHand m)).

Definition isAct (ev : UTGApp.Event) : bool :=
  match ev with UTGApp.Act _ _ _ => true | _ => false end.
Definition isNext (ev : UTGApp.Event) : bool :=
  match ev with UTGApp.Next _ => true | _ => false end.


(** The trainer is replaying mistake number [k] of the list [ms]: the
    drill is active on that list, the hand shown is the recorded one with
    the evaluator's answer, the score is [sc] and [reviewed] hands have been
    answered in this drill. *)
Definition inDrill (ms : list UTGApp.MistakeRecord) (k : nat) (sc : UTGApp.Score)
    (reviewed : Z) (s : UTGApp.AppState) : Prop :=
  let g := UTGApp.gameState s in
  ∃ m, ms !! k = Some m
       ∧ UTGApp.phase g = UTGApp.drill
       ∧ UTGApp.isActive (UTGApp.drillMode g) = true
       ∧ UTGApp.currentMistakeIndex (UTGApp.drillMode g) = k
       ∧ UTGApp.mistakes g = ms
       ∧ UTGApp.mistakePool (UTGApp.drillMode g) = ms
       ∧ UTGApp.currentHand g = UTGApp.mistakeHand m
       ∧ UTGApp.yourCards s = map display (UTGApp.mistakeHand m)
       ∧ UTGApp.correctAction g
         = UTG.correctAction (UTG.evaluateUTGHand (UTGApp.mistakeHand m))
       ∧ UTGApp.score g = sc
       ∧ UTGApp.totalReviewed (UTGApp.reviewStats (UTGApp.drillMode g)) = reviewed.

(** The trainer is back in learning mode on a freshly dealt hand. *)
Definition backToLearning (ms : list UTGApp.MistakeRecord) (newHand : list HandCard)
    (s : UTGApp.AppState) : Prop :=
  let g := UTGApp.gameState s in
  UTGApp.phase g = UTGApp.learning
  ∧ UTGApp.isActive (UTGApp.drillMode g) = false
  ∧ UTGApp.currentHand g = newHand
  ∧ UTGApp.mistakes g = ms.

(** Further example hands: T-9-8-7-5, K-7-2-2-2 and T-9-6-3-2. *)
Definition looseHand : list HandCard :=
  [mkCard "T" "♠" "T♠" 10; mkCard "9" "♥" "9♥" 9; mkCard "8" "♦" "8♦" 8;
   mkCard "7" "♣" "7♣" 7; mkCard "5" "♠" "5♠" 5]%string.

Definition threeDeucesHand : list HandCard :=
  [mkCard "K" "♠" "K♠" 13; mkCard "7" "♥" "7♥" 7; mkCard "2" "♦" "2♦" 2;
   mkCard "2" "♣" "2♣" 2; mkCard "2" "♠" "2♠" 2]%string.

Definition weakDrawHand : list HandCard :=
  [mkCard "T" "♠" "T♠" 10; mkCard "9" "♥" "9♥" 9; mkCard "6" "♦" "6♦" 6;
   mkCard "3" "♣" "3♣" 3; mkCard "2" "♠" "2♠" 2]%string.

Definition sixHighStraight : list HandCard :=
  [mkCard "6" "♠" "6♠" 6; mkCard "5" "♥" "5♥" 5; mkCard "4" "♦" "4♦" 4;
   mkCard "3" "♣" "3♣" 3; mkCard "2" "♠" "2♠" 2]%string.


(** A state with two recorded mistakes, and a drill in which the first is
    answered and passed. *)
Definition twoMistakes : UTGApp.AppState :=
  UTGApp.run trapHand
    [UTGApp.Act "raise" 1 "a1b2c3d4e"; UTGApp.Next weakDrawHand;
     UTGApp.Act "raise" 2 "f5g6h7i8j"]%string.

Definition drillEvents : list UTGApp.Event :=
  [UTGApp.Act "fold" 3 "k9l0m1n2o"; UTGApp.Next looseHand]%string.

(** A card as [generateRandomHand] builds it, with a value in the deck's
    range; and the order of a dealt hand. *)
Definition dealtCard (ranks : list string) (c : HandCard) : Prop :=
  rank c ∈ ranks ∧ suit c ∈ suits ∧ display c = rank c +:+ suit c
  ∧ getValue (rank c) = Num (value c) ∧ 2 ≤ value c ≤ 14.

Definition highToLow (a b : HandCard) : Prop := value b ≤ value a.


(** ** Showing a range (multi-position variant)

    [expandBetterHandNotation], [formatHandRangeWithBreakdown] and
    [formatHandRange]. *)

(** [for (x = lo; x <= hi; x++)] and [for (x = 2; x < hi; x++)]: the values
    of the loop variable, in order. *)
Definition fromTo (lo hi : Z) : list Z :=
  map (λ i, lo + Z.of_nat i) (seq 0 (Z.to_nat (hi - lo + 1))).
Definition below (hi : Z) : list Z := fromTo 2 (hi - 1).

(** The hands that the nested loops of the three listings run through. *)
Definition patCandidates (threshold : Z) : list (list Z) :=
  high ← fromTo 2 threshold; second ← below high; third ← below second;
  fourth ← below third; fifth ← below fourth;
  [[high; second; third; fourth; fifth]].

Definition draw1Candidates : list (list Z) :=
  a ← fromTo 2 9; b ← below a; c ← below b; d ← below c; [[a; b; c; d]].

Definition draw2Candidates : list (list Z) :=
  a ← fromTo 2 9; b ← below a; c ← below b; [[a; b; c]].

(** [s.charAt(i)], a string of one character or none. *)
Definition charAt (s : string) (i : nat) : string :=
  match chars s !! i with Some c => String c "" | None => "" end.

Definition expandBetterHandNotation (pattern : string) : list string :=
  if match_threshold pattern then
    let patHands :=
      match parseInt_charAt pattern 0 with
      | Num threshold => map (joinNums "") (patCandidates threshold)
      | _ => []
      end in
    take 10 patHands
  else if match_digits_plus 4 pattern then
    let benchmark := benchmarkOf pattern in
    let draw1Hands :=
      map (joinNums "")
        (List.filter (λ testHand, js_leb (compareLowballHands testHand benchmark) (Num 0))
                     draw1Candidates) in
    take 15 draw1Hands
  else if match_digits_plus 3 pattern then
    let benchmark := benchmarkOf pattern in
    map (joinNums "")
      (List.filter (λ testHand, js_leb (compareLowballHands testHand benchmark) (Num 0))
                   draw2Candidates)
  else if match_digits_plus 4 pattern && str_includes pattern "22" then
    let basePattern := slice_end 3 pattern in
    let pairCard := charAt pattern 2 in
    [basePattern +:+ pairCard +:+ "(" +:+ pairCard +:+ ")"]
  else [pattern].

(** [/^\d{3,4}\+$/] *)
Definition match_digits34_plus (p : string) : bool :=
  match_digits_plus 3 p || match_digits_plus 4 p.

(** [parts.join(" | ") || "None"]: the empty string is falsy. *)
Definition orNone (s : string) : string := if String.eqb s "" then "None" else s.

Definition formatHandRangeWithBreakdown (range : HandRange) (showBreakdown : bool)
    : string :=
  let includesParts :=
    map (λ item,
      if showBreakdown
         && (str_includes item "+" || match_threshold item || match_digits34_plus item)
      then
        let expanded := expandBetterHandNotation item in
        if (1 <? length expanded)%nat then
          item +:+ "(" +:+ join ", " (take 8 expanded)
          +:+ (if (8 <? length expanded)%nat then "..." else "") +:+ ")"
        else item
      else item) (includes range) in
  let parts :=
    (if (0 <? length (includes range))%nat then [join ", " includesParts] else [])
    ++ (if (0 <? length (excludes range))%nat
        then ["except: " +:+ join ", " (excludes range)] else []) in
  orNone (join " | " parts).

Definition formatHandRange (range : HandRange) : string :=
  let parts :=
    (if (0 <? length (includes range))%nat then [join ", " (includes range)] else [])
    ++ (if (0 <? length (excludes range))%nat
        then ["except: " +:+ join ", " (excludes range)] else []) in
  orNone (join " | " parts).

(** A hand written high to low in the digits 2 to 9. *)
Definition descendingDigits (hand : list Z) : Prop :=
  Sorted Z.gt hand ∧ Forall (λ v, 2 ≤ v ≤ 9) hand.


(** ** The strategy editor (multi-position variant)

    [handleEditStrategy], [addHandToRange], [removeHandFromRange],
    [handleSaveStrategy] and the Cancel button of the strategy screen.

    [handleEditStrategy] copies a strategy object with a spread, so the copy
    holds the same five range objects as the entry of [positionStrategies]
    it was made from, and [push] and [splice] change those objects in place.
    The ranges are therefore kept in a store and a strategy object holds
    their addresses.  Strategy objects themselves are only read field by
    field, so they are modelled by their fields.  The stored item
    [pokerStrategies] is modelled by the table that its JSON text encodes. *)
Module Editor.

Definition loc : Type := nat.

Record StrategyObj : Type := mkObj {
  position : LearningPosition;
  patHands : loc;
  draw1Hands : loc;
  draw2Hands : loc;
  draw3Hands : loc;
  draw4Hands : loc;
  inheritsFrom : option LearningPosition
}.

Inductive RangeKey : Type := PatHands | Draw1Hands | Draw2Hands | Draw3Hands | Draw4Hands.
Inductive ListKey : Type := Includes | Excludes.

Definition field (key : RangeKey) (o : StrategyObj) : loc :=
  match key with
  | PatHands => patHands o
  | Draw1Hands => draw1Hands o
  | Draw2Hands => draw2Hands o
  | Draw3Hands => draw3Hands o
  | Draw4Hands => draw4Hands o
  end.

Definition listOf (type : ListKey) (range : HandRange) : list string :=
  match type with Includes => includes range | Excludes => excludes range end.

(** An in-place change of one of the two arrays of a range object. *)
Definition updateList (type : ListKey) (f : list string → list string)
    (range : HandRange) : HandRange :=
  match type with
  | Includes => mkRange (f (includes range)) (excludes range)
  | Excludes => mkRange (includes range) (f (excludes range))
  end.

Record State : Type := mkState {
  heap : gmap loc HandRange;
  positionStrategies : list StrategyObj;
  editingStrategy : option StrategyObj;
  editMode : bool;
  pokerStrategies : option (list PositionStrategy)
}.

(** Every address held by a strategy object is allocated; the default only
    makes the lookup total. *)
Definition rangeAt (h : gmap loc HandRange) (l : loc) : HandRange :=
  default (mkRange [] []) (h !! l).

Definition read (h : gmap loc HandRange) (o : StrategyObj) : PositionStrategy :=
  mkStrategy (position o)
    (rangeAt h (patHands o)) (rangeAt h (draw1Hands o)) (rangeAt h (draw2Hands o))
    (rangeAt h (draw3Hands o)) (rangeAt h (draw4Hands o)) (inheritsFrom o).

(** The table that [getFullStrategy] and the evaluation read. *)
Definition table (st : State) : list PositionStrategy :=
  map (read (heap st)) (positionStrategies st).

Definition handleEditStrategy (strategy : StrategyObj) (st : State) : State :=
  mkState (heap st) (positionStrategies st) (Some strategy) true (pokerStrategies st).

(** The chain of [range === editingStrategy.X] tests. *)
Definition keyOf (range : loc) (editingStrategy : StrategyObj) : RangeKey :=
  if decide (range = patHands editingStrategy) then PatHands
  else if decide (range = draw1Hands editingStrategy) then Draw1Hands
  else if decide (range = draw2Hands editingStrategy) then Draw2Hands
  else if decide (range = draw3Hands editingStrategy) then Draw3Hands
  else Draw4Hands.

Definition addHandToRange (range : loc) (type : ListKey) (newHand : string)
    (st : State) : State :=
  match editingStrategy st with
  | Some editing =>
      let updatedStrategy := editing in
      let target := field (keyOf range editing) updatedStrategy in
      mkState (alter (updateList type (λ l, l ++ [newHand])) target (heap st))
              (positionStrategies st) (Some updatedStrategy) (editMode st)
              (pokerStrategies st)
  | None => st
  end.

(** [splice(index, 1)] with an index that is not negative. *)
Definition removeHandFromRange (range : loc) (type : ListKey) (index : nat)
    (st : State) : State :=
  match editingStrategy st with
  | Some editing =>
      let updatedStrategy := editing in
      let target := field (keyOf range editing) updatedStrategy in
      mkState (alter (updateList type (delete index)) target (heap st))
              (positionStrategies st) (Some updatedStrategy) (editMode st)
              (pokerStrategies st)
  | None => st
  end.

Definition replaceEntry (updatedStrategy : StrategyObj) (l : list StrategyObj)
    : list StrategyObj :=
  map (λ strategy,
         if decide (position strategy = position updatedStrategy)
         then updatedStrategy else strategy) l.

Definition handleSaveStrategy (updatedStrategy : StrategyObj) (st : State) : State :=
  let updatedStrategies := replaceEntry updatedStrategy (positionStrategies st) in
  mkState (heap st) (replaceEntry updatedStrategy (positionStrategies st)) None false
          (Some (map (read (heap st)) updatedStrategies)).

Definition cancel (st : State) : State :=
  mkState (heap st) (positionStrategies st) None false (pokerStrategies st).

(** What the user can do on the strategy screen.  The Edit button of the
    [i]-th entry is shown while no entry is being edited; the other buttons
    are shown while one is.  An Add whose prompt gave no text does
    nothing. *)
Inductive Event : Type :=
  | Edit (i : nat)
  | Add (key : RangeKey) (type : ListKey) (newHand : string)
  | Remove (key : RangeKey) (type : ListKey) (index : nat)
  | Save
  | Cancel.

Definition editing (st : State) : option StrategyObj :=
  if editMode st then editingStrategy st else None.

Definition step (st : State) (ev : Event) : State :=
  match editing st, ev with
  | None, Edit i =>
      match positionStrategies st !! i with
      | Some strategy => handleEditStrategy strategy st
      | None => st
      end
  | Some e, Add key type newHand =>
      if String.eqb newHand "" then st
      else addHandToRange (field key e) type newHand st
  | Some e, Remove key type index => removeHandFromRange (field key e) type index st
  | Some e, Save => handleSaveStrategy e st
  | Some e, Cancel => cancel st
  | _, _ => st
  end.

Definition run (st : State) (events : list Event) : State := foldl step st events.

(** The state in which the screen opens on the built-in table: the five
    ranges of the [i]-th entry are the objects [5 i] to [5 i + 4]. *)
Definition objectOf (i : nat) (s : PositionStrategy) : StrategyObj :=
  mkObj (Multi.position s) (5 * i)%nat (5 * i + 1)%nat (5 * i + 2)%nat (5 * i + 3)%nat
        (5 * i + 4)%nat (Multi.inheritsFrom s).

Definition rangesOf (i : nat) (s : PositionStrategy) : list (loc * HandRange) :=
  [((5 * i)%nat, Multi.patHands s); ((5 * i + 1)%nat, Multi.draw1Hands s);
   ((5 * i + 2)%nat, Multi.draw2Hands s); ((5 * i + 3)%nat, Multi.draw3Hands s);
   ((5 * i + 4)%nat, Multi.draw4Hands s)].

Definition initialState : State :=
  mkState (list_to_map (mjoin (imap rangesOf Multi.positionStrategies)))
          (imap objectOf Multi.positionStrategies) None false None.

End Editor.

(** The range of a table entry under a key of the editor. *)
Definition rangeOf (key : Editor.RangeKey) (s : PositionStrategy) : HandRange :=
  match key with
  | Editor.PatHands => patHands s
  | Editor.Draw1Hands => draw1Hands s
  | Editor.Draw2Hands => draw2Hands s
  | Editor.Draw3Hands => draw3Hands s
  | Editor.Draw4Hands => draw4Hands s
  end.

(** Nothing is being edited. *)
Definition idle (st : Editor.State) : Prop := Editor.editingStrategy st = None.


(** ** Loading the stored strategies (multi-position variant)

    The effect that runs when the component mounts parses the stored item
    and merges every entry it finds into the built-in table.  The parsed
    JSON is untyped; [StoredRange] keeps the three shapes of a range that
    [convertLegacyHandRange] tells apart, and a stored entry keeps the
    [inheritsFrom] key only when the saved strategy had one.  Positions are
    restricted to the six that the table knows. *)
Module Stored.

Inductive StoredRange : Type :=
  | RangeObject (includes : list string) (excludes : option (list string))
  | LegacyList (hands : list string)
  | OtherValue.

Record StoredStrategy : Type := mkStored {
  position : LearningPosition;
  patHands : StoredRange;
  draw1Hands : StoredRange;
  draw2Hands : StoredRange;
  draw3Hands : StoredRange;
  draw4Hands : StoredRange;
  inheritsFrom : option LearningPosition
}.

(** [convertLegacyHandRange] on untyped data.  An array is truthy, so
    [legacyData.includes || []] is [legacyData.includes]. *)
Definition convertLegacyHandRange (legacyData : StoredRange) : HandRange :=
  match legacyData with
  | RangeObject includes excludes => mkRange includes (default [] excludes)
  | LegacyList hands => mkRange hands []
  | OtherValue => mkRange [] []
  end.

(** One turn of [parsed.forEach].  The converter always returns an object,
    so the [|| merged[existingIndex].X] alternatives are never taken; the
    two spreads leave [inheritsFrom] to the saved entry when it has the key
    and to the existing entry otherwise. *)
Definition mergeSaved (merged : list PositionStrategy) (savedStrategy : StoredStrategy)
    : list PositionStrategy :=
  match list_find (λ s, Multi.position s = position savedStrategy) merged with
  | Some (existingIndex, existing) =>
      <[existingIndex :=
          mkStrategy (position savedStrategy)
            (convertLegacyHandRange (patHands savedStrategy))
            (convertLegacyHandRange (draw1Hands savedStrategy))
            (convertLegacyHandRange (draw2Hands savedStrategy))
            (convertLegacyHandRange (draw3Hands savedStrategy))
            (convertLegacyHandRange (draw4Hands savedStrategy))
            (match inheritsFrom savedStrategy with
             | Some parent => Some parent
             | None => Multi.inheritsFrom existing
             end)]> merged
  | None => merged
  end.

Definition loadSaved (current : list PositionStrategy) (parsed : list StoredStrategy)
    : list PositionStrategy :=
  foldl mergeSaved current parsed.

(** What [JSON.parse] gives back for the text that [JSON.stringify] wrote
    for a table. *)
Definition storedRange (range : HandRange) : StoredRange :=
  RangeObject (includes range) (Some (excludes range)).

Definition storedStrategy (s : PositionStrategy) : StoredStrategy :=
  mkStored (Multi.position s)
    (storedRange (Multi.patHands s)) (storedRange (Multi.draw1Hands s))
    (storedRange (Multi.draw2Hands s)) (storedRange (Multi.draw3Hands s))
    (storedRange (Multi.draw4Hands s)) (Multi.inheritsFrom s).

Definition parsedText (table : list PositionStrategy) : list StoredStrategy :=
  map storedStrategy table.

End Stored.

(** Two entries for the same position, the first of which defines its
    inheritance whenever the second does. *)
Definition sameSlot (saved existing : PositionStrategy) : Prop :=
  position saved = position existing
  ∧ (inheritsFrom saved = None → inheritsFrom existing = None).

(** ** Seating the players (multi-position variant)

    The part of [dealNewHand] that builds the argument of [setPlayers].
    The chips of a player are shown and never computed with; they are left
    out.  The position is [None] for [undefined], which an index outside
    [allPositions] would give. *)
Module Seats.

Record Player : Type := mkPlayer {
  id : string;
  name : string;
  cards : list string;
  position : option string;
  isActive : bool;
  isDealer : bool
}.

Definition availablePositions : list LearningPosition := [UTG; HJ].

Definition allPositions : list string := ["UTG"; "HJ"; "CO"; "BU"; "SB"; "BB"]%string.

(** [arr.indexOf(x)] *)
Definition indexOf (x : string) (l : list string) : Z :=
  match list_find (λ y, y = x) l with
  | Some (i, _) => Z.of_nat i
  | None => -1
  end.

(** [arr[i]] for an integer [i]. *)
Definition at_index (l : list string) (i : Z) : option string :=
  if i <? 0 then None else l !! Z.to_nat i.

Definition back5 : list string := ["back"; "back"; "back"; "back"; "back"]%string.

Definition seatPlayers (players : list Player) (newPlayerPosition : LearningPosition)
    : list Player :=
  let startIdx := indexOf (positionName newPlayerPosition) allPositions in
  let updatedPlayers :=
    imap (λ index player,
            let currentPositionIndex := Z.rem (startIdx + Z.of_nat index) 6 in
            let currentPosition := at_index allPositions currentPositionIndex in
            mkPlayer (id player) (name player)
                     (if (index =? 0)%nat then [] else back5)
                     currentPosition (index =? 0)%nat false) players in
  match list_find (λ p, position p = Some "BU"%string) updatedPlayers with
  | Some (buPlayerIndex, p) =>
      <[buPlayerIndex :=
          mkPlayer (id p) (name p) (cards p) (position p) (isActive p) true]>
        updatedPlayers
  | None => updatedPlayers
  end.

(** The list handed to [setPlayers]. *)
Definition dealtPlayers (players : list Player) (newPlayerPosition : LearningPosition)
    (newHand : list HandCard) : list Player :=
  map (λ p, if decide (id p = "6"%string)
            then mkPlayer (id p) (name p) (map display newHand) (position p)
                          (isActive p) (isDealer p)
            else p)
      (seatPlayers players newPlayerPosition).

End Seats.


(** The player at [index] after seating, when the seat is [position]. *)
Definition seated (p : Seats.Player) (index : nat) (position : string) : Seats.Player :=
  Seats.mkPlayer (Seats.id p) (Seats.name p)
    (if (index =? 0)%nat then [] else Seats.back5) (Some position)
    (index =? 0)%nat (bool_decide (position = "BU"%string)).


(** ** The trainer's state and handlers (multi-position variant)

    The component keeps the six players and a [GameState]; as in the
    single-position variant a handler reads the state of the last render
    and queues updates.  The fields [pot], [currentBet], [drawsLeft],
    [drillMode] and [difficultyWeights] are set once and carried unchanged;
    they are left out.  The strategy table is the one of the last render;
    here it is a parameter, as is the depth allowed to the resolver.  The
    position drawn by [dealNewHand] is [availablePositions] at index 0 or 1,
    given by [pick]; the hand that [generateRandomHand] returned and
    [Date.now()] are inputs. *)
Module MultiApp.

Record MistakeRecord : Type := mkMistake {
  mistakeId : string;
  mistakeHand : list HandCard;
  userAction : string;
  mistakeCorrectAction : string;
  mistakeCategory : string;
  mistakeExplanation : string;
  timestamp : Z;
  mistakePosition : option string
}.

Inductive Phase : Type := learning | drill | strategy_management.

#[global] Instance Phase_eq_dec : EqDecision Phase.
Proof. solve_decision. Defined.

Record Score : Type := mkScore {
  correct : Z;
  total : Z
}.

Record GameState : Type := mkGame {
  phase : Phase;
  currentHand : list HandCard;
  isPlayable : bool;
  showAnswer : bool;
  score : Score;
  playerAction : option string;
  correctAction : string;
  handCategory : string;
  explanation : string;
  ruleUsed : string;
  benchmark : option string;
  mistakes : list MistakeRecord;
  minimumRaiseExample : option string
}.

Record AppState : Type := mkApp {
  players : list Seats.Player;
  gameState : GameState
}.

Definition initialPlayers : list Seats.Player := [
  Seats.mkPlayer "6" "You" [] (Some "UTG") true false;
  Seats.mkPlayer "1" "Oregano" Seats.back5 (Some "HJ") false false;
  Seats.mkPlayer "2" "Paprika" Seats.back5 (Some "CO") false false;
  Seats.mkPlayer "3" "Basil" Seats.back5 (Some "BU") false true;
  Seats.mkPlayer "4" "Thyme" Seats.back5 (Some "SB") false false;
  Seats.mkPlayer "5" "Rosemary" Seats.back5 (Some "BB") false false
]%string.

Definition initialState : AppState :=
  mkApp initialPlayers
        (mkGame learning [] false false (mkScore 0 0) None "fold" "" "" "" None [] None).

Definition setGameState (f : GameState → GameState) (s : AppState) : AppState :=
  mkApp (players s) (f (gameState s)).

Definition drawnPosition (pick : bool) : LearningPosition := if pick then HJ else UTG.

(** [dealNewHand]; it ends where the evaluation of the new hand ends. *)
Definition dealNewHand (fuel : nat) (table : list PositionStrategy)
    (players : list Seats.Player) (pick : bool) (newHand : list HandCard)
    (s : AppState) : outcome AppState :=
  let newPlayerPosition := drawnPosition pick in
  evaluation ← evaluateHandForPosition fuel table newHand newPlayerPosition;
  Returns
    (mkApp (Seats.dealtPlayers players newPlayerPosition newHand)
       (let prev := gameState s in
        mkGame (phase prev) newHand (Multi.isPlayable evaluation) false (score prev) None
          (Multi.correctAction evaluation) (Multi.category evaluation)
          (Multi.explanation evaluation) (Multi.ruleUsed evaluation)
          (Multi.benchmark evaluation) (mistakes prev)
          (Multi.minimumRaiseExample evaluation))).

(** [players.find((p) => p.id === "6")?.position] *)
Definition yourPosition (players : list Seats.Player) : option string :=
  match list_find (λ p, Seats.id p = "6"%string) players with
  | Some (_, p) => Seats.position p
  | None => None
  end.

Definition answered (action : string) (score' : Score)
    (mistakes' : list MistakeRecord) (prev : GameState) : GameState :=
  mkGame (phase prev) (currentHand prev) (isPlayable prev) true score' (Some action)
    (correctAction prev) (handCategory prev) (explanation prev) (ruleUsed prev)
    (benchmark prev) mistakes' (minimumRaiseExample prev).

Definition handlePlayerAction (gameState : GameState) (players : list Seats.Player)
    (action : string) (now : Z) : AppState → AppState :=
  let isCorrect := bool_decide (action = correctAction gameState) in
  if negb isCorrect && bool_decide (phase gameState = learning) then
    let mistakeRecord :=
      mkMistake ("mistake_" +:+ show now) (currentHand gameState) action
        (correctAction gameState) (handCategory gameState) (explanation gameState)
        now (yourPosition players) in
    setGameState (λ prev,
      answered action (mkScore (correct (score prev)) (total (score prev) + 1))
        (mistakes prev ++ [mistakeRecord]) prev)
  else
    setGameState (λ prev,
      answered action
        (mkScore (correct (score prev) + (if isCorrect then 1 else 0))
                 (total (score prev) + 1))
        (mistakes prev) prev).

Definition setPhase (p : Phase) (prev : GameState) : GameState :=
  mkGame p (currentHand prev) (isPlayable prev) (showAnswer prev) (score prev)
    (playerAction prev) (correctAction prev) (handCategory prev) (explanation prev)
    (ruleUsed prev) (benchmark prev) (mistakes prev) (minimumRaiseExample prev).

(** What the user can do.  The table with its action and Next buttons and
    the button that opens the strategy screen are rendered unless the phase
    is [strategy_management]; the strategy screen has the button back. *)
Inductive Event : Type :=
  | Act (action : string) (now : Z)
  | Next (pick : bool) (newHand : list HandCard)
  | OpenStrategies
  | BackToLearning.

Definition step (fuel : nat) (table : list PositionStrategy) (s : AppState)
    (ev : Event) : outcome AppState :=
  if bool_decide (phase (gameState s) = strategy_management) then
    match ev with
    | BackToLearning => Returns (setGameState (setPhase learning) s)
    | _ => Returns s
    end
  else
    match ev with
    | Act action now => Returns (handlePlayerAction (gameState s) (players s) action now s)
    | Next pick newHand => dealNewHand fuel table (players s) pick newHand s
    | OpenStrategies => Returns (setGameState (setPhase strategy_management) s)
    | BackToLearning => Returns s
    end.

(** The component mounts by dealing a hand; then events follow. *)
Definition run (fuel : nat) (table : list PositionStrategy) (firstPick : bool)
    (firstHand : list HandCard) (events : list Event) : outcome AppState :=
  foldl (λ acc ev, s ← acc; step fuel table s ev)
        (dealNewHand fuel table initialPlayers firstPick firstHand initialState)
        events.

End MultiApp.

(** The answer shown is the evaluator's answer for the hand shown at the
    position where the player with id 6 sits, who is the first of six. *)
Definition answerForSeat (fuel : nat) (table : list PositionStrategy)
    (s : MultiApp.AppState) : Prop :=
  ∃ you p2 p3 p4 p5 p6 pos e,
    MultiApp.players s = [you; p2; p3; p4; p5; p6]
    ∧ Seats.id you = "6"%string
    ∧ Seats.position you = Some (positionName pos)
    ∧ evaluateHandForPosition fuel table (MultiApp.currentHand (MultiApp.gameState s)) pos
      = Returns e
    ∧ MultiApp.correctAction (MultiApp.gameState s) = correctAction e
    ∧ MultiApp.handCategory (MultiApp.gameState s) = category e.

(** A record is a real mistake on its hand at its position. *)
Definition genuineAt (fuel : nat) (table : list PositionStrategy)
    (m : MultiApp.MistakeRecord) : Prop :=
  ∃ pos e,
    MultiApp.mistakePosition m = Some (positionName pos)
    ∧ evaluateHandForPosition fuel table (MultiApp.mistakeHand m) pos = Returns e
    ∧ MultiApp.mistakeCorrectAction m = correctAction e
    ∧ MultiApp.userAction m ≠ MultiApp.mistakeCorrectAction m.

(** Every answer is counted once, as correct or as a mistake. *)
Definition scoreSplits (g : MultiApp.GameState) : Prop :=
  MultiApp.phase g ≠ MultiApp.drill
  ∧ 0 ≤ MultiApp.correct (MultiApp.score g)
  ∧ MultiApp.total (MultiApp.score g)
    = MultiApp.correct (MultiApp.score g) + Z.of_nat (length (MultiApp.mistakes g)).

(** The state that a run returned, for a run that did return. *)
Definition returned (o : outcome MultiApp.AppState) : MultiApp.AppState :=
  match o with Returns s => s | _ => MultiApp.initialState end.

(** ** Facts about sorting *)

Section SortFacts.
Context {A : Type} (cmp : A → A → Z).
Let R (x y : A) : Prop := cmp x y <= 0.
Hypothesis cmp_total : ∀ x y, R x y ∨ R y x.

Lemma insert_by_perm x l : insert_by cmp x l ≡ₚ x :: l.
Proof.
  induction l as [|y l IH]; simpl; [done|].
  destruct (cmp x y <=? 0); [done|].
  rewrite IH. apply Permutation_swap.
Qed.

Lemma sort_by_perm l : sort_by cmp l ≡ₚ l.
Proof.
  induction l as [|x l IH]; simpl; [done|].
  rewrite insert_by_perm. by constructor.
Qed.

Lemma insert_by_hdrel a x l :
  R a x → HdRel R a l → HdRel R a (insert_by cmp x l).
Proof.
  intros Hax Hl. destruct l as [|y l]; simpl; [by constructor|].
  destruct (cmp x y <=? 0); constructor; [done|].
  by inversion Hl.
Qed.

Lemma insert_by_sorted x l : Sorted R l → Sorted R (insert_by cmp x l).
Proof.
  induction 1 as [|y l Hs IH Hhd]; simpl; [by repeat constructor|].
  destruct (cmp x y <=? 0) eqn:E.
  - apply Z.leb_le in E. repeat constructor; done.
  - apply Z.leb_gt in E. constructor; [done|].
    apply insert_by_hdrel; [|done].
    destruct (cmp_total x y) as [H|H]; [unfold R in H; lia|done].
Qed.

Lemma sort_by_sorted l : Sorted R (sort_by cmp l).
Proof.
  induction l; simpl; [constructor|]. by apply insert_by_sorted.
Qed.
End SortFacts.

Lemma Sorted_mono {A} (R R' : A → A → Prop) l :
  (∀ x y, R x y → R' x y) → Sorted R l → Sorted R' l.
Proof.
  intros HR. induction 1 as [|x l Hs IH Hhd]; constructor; [done|].
  destruct Hhd; constructor; auto.
Qed.

Lemma sort_asc_perm l : sort_asc l ≡ₚ l.
Proof. apply sort_by_perm. Qed.

Lemma sort_desc_perm l : sort_desc l ≡ₚ l.
Proof. apply sort_by_perm. Qed.

Lemma sort_asc_sorted l : Sorted Z.le (sort_asc l).
Proof.
  eapply Sorted_mono; [|apply (sort_by_sorted (λ a b, a - b))].
  - intros x y H. simpl in H. lia.
  - intros x y. simpl. lia.
Qed.

Lemma sort_desc_sorted l : Sorted Z.ge (sort_desc l).
Proof.
  eapply Sorted_mono; [|apply (sort_by_sorted (λ a b, b - a))].
  - intros x y H. simpl in H. lia.
  - intros x y. simpl. lia.
Qed.

Lemma sort_asc_length l : length (sort_asc l) = length l.
Proof. by rewrite sort_asc_perm. Qed.

Lemma sort_desc_length l : length (sort_desc l) = length l.
Proof. by rewrite sort_desc_perm. Qed.

#[local] Instance Zge_trans : Transitive Z.ge.
Proof. intros x y z. lia. Qed.
#[local] Instance Zge_antisymm : AntiSymm (=) Z.ge.
Proof. intros x y. lia. Qed.

(** The sorted arrangement of a multiset of integers is unique. *)
Lemma sort_asc_unique l1 l2 : l1 ≡ₚ l2 → sort_asc l1 = sort_asc l2.
Proof.
  intros H. apply (Sorted_unique Z.le); try apply sort_asc_sorted.
  by rewrite !sort_asc_perm.
Qed.

Lemma sort_desc_unique l1 l2 : l1 ≡ₚ l2 → sort_desc l1 = sort_desc l2.
Proof.
  intros H. apply (Sorted_unique Z.ge); try apply sort_desc_sorted.
  by rewrite !sort_desc_perm.
Qed.

Lemma sort_asc_id l : Sorted Z.le l → sort_asc l = l.
Proof.
  intros H. apply (Sorted_unique Z.le); [apply sort_asc_sorted|done|].
  apply sort_asc_perm.
Qed.

(** ** The comparator on sequences of equal length *)

Lemma compare_loop_num s1 : ∀ s2,
  length s1 = length s2 → ∃ z, compare_loop s1 s2 = Num z.
Proof.
  induction s1 as [|x s1 IH]; intros [|y s2] Hlen; simplify_eq/=; eauto.
  destruct (x =? y); eauto.
Qed.

Lemma compare_loop_zero s1 : ∀ s2,
  length s1 = length s2 → compare_loop s1 s2 = Num 0 ↔ s1 = s2.
Proof.
  induction s1 as [|x s1 IH]; intros [|y s2] Hlen; simplify_eq/=; [done|].
  destruct (Z.eqb_spec x y) as [->|Hne].
  - rewrite IH by done. split; congruence.
  - split; intros H; simplify_eq. lia.
Qed.

Lemma compare_loop_flip s1 : ∀ s2 x,
  length s1 = length s2 → compare_loop s1 s2 = Num x → compare_loop s2 s1 = Num (- x).
Proof.
  induction s1 as [|a s1 IH]; intros [|b s2] x Hlen H; simplify_eq/=; [done|].
  rewrite (Z.eqb_sym b a). destruct (Z.eqb_spec a b) as [->|Hne]; [by apply IH|].
  simplify_eq. f_equal. lia.
Qed.

Lemma compare_loop_trans s1 : ∀ s2 s3,
  length s1 = length s2 → length s2 = length s3 →
  js_leb (compare_loop s1 s2) (Num 0) = true →
  js_leb (compare_loop s2 s3) (Num 0) = true →
  js_leb (compare_loop s1 s3) (Num 0) = true.
Proof.
  induction s1 as [|a s1 IH]; intros [|b s2] [|c s3] H12 H23; simplify_eq/=; [done|].
  destruct (Z.eqb_spec a b) as [Hab|Hab], (Z.eqb_spec b c) as [Hbc|Hbc],
    (Z.eqb_spec a c) as [Hac|Hac]; simpl; try lia; eauto.
Qed.

(** The first index at which two sequences differ. *)
Lemma compare_loop_mismatch s1 : ∀ s2 z,
  compare_loop s1 s2 = Num z → z ≠ 0 →
  ∃ (i : nat) x y, s1 !! i = Some x ∧ s2 !! i = Some y
                   ∧ take i s1 = take i s2 ∧ x ≠ y ∧ z = x - y.
Proof.
  induction s1 as [|a s1 IH]; intros [|b s2] z H Hz; simplify_eq/=.
  destruct (Z.eqb_spec a b) as [->|Hab].
  - destruct (IH _ _ H Hz) as (i & x & y & ? & ? & ? & ? & ?).
    exists (S i), x, y. simpl. repeat split; try done. by f_equal.
  - simplify_eq. by exists 0%nat, a, b.
Qed.

(** ** Facts about the derived hand data *)

Lemma elem_of_set_of x l : x ∈ set_of l ↔ x ∈ l.
Proof.
  induction l as [|y l IH]; simpl; [done|].
  rewrite !elem_of_cons, list_elem_of_filter, IH.
  destruct (decide (x = y)); tauto.
Qed.

Lemma NoDup_set_of l : NoDup (set_of l).
Proof.
  induction l as [|y l IH]; simpl; constructor.
  - rewrite list_elem_of_filter. tauto.
  - by apply NoDup_filter.
Qed.

Lemma length_set_of l : (length (set_of l) ≤ length l)%nat.
Proof.
  induction l as [|y l IH]; simpl; [done|].
  pose proof (length_filter (λ z, z ≠ y) (set_of l)). lia.
Qed.

Lemma set_of_NoDup l : NoDup l → set_of l = l.
Proof.
  induction 1 as [|x l Hx Hnd IH]; simpl; [done|].
  rewrite IH. f_equal. clear IH Hnd.
  induction l as [|y l IH]; [done|].
  rewrite filter_cons. apply not_elem_of_cons in Hx as [Hne Hx].
  rewrite decide_True by done. f_equal. auto.
Qed.

Lemma set_of_length_NoDup l : length (set_of l) = length l → NoDup l.
Proof.
  induction l as [|x l IH]; simpl; [constructor|]. intros Hlen.
  pose proof (length_filter (λ z, z ≠ x) (set_of l)).
  pose proof (length_set_of l).
  constructor.
  - intros Hin%elem_of_set_of.
    pose proof (length_filter_lt (λ z, z ≠ x) (set_of l) x Hin). lia.
  - apply IH. lia.
Qed.

Lemma uniqueValues_perm l : uniqueValues l ≡ₚ set_of l.
Proof. apply sort_asc_perm. Qed.

Lemma elem_of_uniqueValues x l : x ∈ uniqueValues l ↔ x ∈ l.
Proof. by rewrite uniqueValues_perm, elem_of_set_of. Qed.

Lemma length_uniqueValues l : (length (uniqueValues l) ≤ length l)%nat.
Proof. rewrite uniqueValues_perm. apply length_set_of. Qed.

Lemma Sorted_le_NoDup_lt l : Sorted Z.le l → NoDup l → Sorted Z.lt l.
Proof.
  induction 1 as [|x l Hs IH Hhd]; intros Hnd; constructor.
  - apply IH. by inversion Hnd.
  - destruct Hhd as [|y l Hxy]; constructor.
    apply NoDup_cons in Hnd as [Hx _]. apply not_elem_of_cons in Hx as [? _]. lia.
Qed.

Lemma uniqueValues_sorted l : Sorted Z.lt (uniqueValues l).
Proof.
  apply Sorted_le_NoDup_lt; [apply sort_asc_sorted|].
  rewrite uniqueValues_perm. apply NoDup_set_of.
Qed.

(** A hand without a repeated value: its sorted values are its distinct
    sorted values. *)
Lemma uniqueValues_full l :
  Sorted Z.le l → length (uniqueValues l) = length l → uniqueValues l = l.
Proof.
  intros Hs Hlen. unfold uniqueValues in *. rewrite sort_asc_length in Hlen.
  rewrite set_of_NoDup by by apply set_of_length_NoDup.
  by apply sort_asc_id.
Qed.

Lemma valueCounts_fold l : ∀ (acc : gmap Z nat) v,
  foldl (λ acc val, <[val := (default 0 (acc !! val) + 1)%nat]> acc) acc l !! v
  = if decide (copies v l = 0%nat) then acc !! v
    else Some (default 0%nat (acc !! v) + copies v l)%nat.
Proof.
  unfold copies. induction l as [|x l IH]; intros acc v; simpl; [done|].
  rewrite IH, filter_cons. destruct (decide (x = v)) as [->|Hne]; simpl.
  - rewrite lookup_insert_eq. simpl.
    repeat case_decide; try lia; f_equal; lia.
  - by rewrite lookup_insert_ne.
Qed.

Lemma valueCounts_lookup l v :
  valueCounts l !! v = if decide (copies v l = 0%nat) then None else Some (copies v l).
Proof. unfold valueCounts. rewrite valueCounts_fold, lookup_empty. by case_decide. Qed.

Lemma hasPair_copies l : hasPair l = true ↔ ∃ v, (2 ≤ copies v l)%nat.
Proof.
  unfold hasPair. rewrite existsb_exists. split.
  - intros (c & Hin & Hc). apply list_elem_of_In, list_elem_of_fmap in Hin as ([v c'] & -> & Hin).
    apply elem_of_map_to_list in Hin. rewrite valueCounts_lookup in Hin.
    apply Nat.ltb_lt in Hc. simpl in Hc. case_decide; simplify_eq. exists v. lia.
  - intros (v & Hv). exists (copies v l). split; [|apply Nat.ltb_lt; lia].
    apply list_elem_of_In, list_elem_of_fmap. exists (v, copies v l). split; [done|].
    apply elem_of_map_to_list. rewrite valueCounts_lookup. case_decide; [lia|done].
Qed.

Lemma copies_not_elem v l : v ∉ l → copies v l = 0%nat.
Proof.
  unfold copies. induction l as [|x l IH]; [done|]. intros [Hne Hv]%not_elem_of_cons.
  rewrite filter_cons, decide_False by done. auto.
Qed.

Lemma copies_NoDup v l : NoDup l → (copies v l ≤ 1)%nat.
Proof.
  induction 1 as [|x l Hx Hnd IH]; [unfold copies; simpl; lia|]. unfold copies in *.
  rewrite filter_cons. case_decide; simpl; [|done]. subst.
  pose proof (copies_not_elem _ _ Hx) as H0. unfold copies in H0. lia.
Qed.

Lemma copies_dup l : ¬ NoDup l → ∃ v, (2 ≤ copies v l)%nat.
Proof.
  induction l as [|x l IH]; intros Hnd; [destruct Hnd; constructor|].
  destruct (decide (x ∈ l)) as [Hin|Hnin].
  - exists x. unfold copies. rewrite filter_cons, decide_True by done. simpl.
    assert (x ∈ filter (λ y, y = x) l) as Hf by (by apply list_elem_of_filter).
    destruct (filter (λ y, y = x) l); [inversion Hf|simpl; lia].
  - destruct IH as [v Hv]; [intros ?; apply Hnd; by constructor|].
    exists v. unfold copies in *. rewrite filter_cons. case_decide; simpl; lia.
Qed.

Lemma hasPair_NoDup l : hasPair l = false ↔ NoDup l.
Proof.
  split.
  - intros Hp. destruct (decide (NoDup l)) as [|Hnd]; [done|].
    apply copies_dup, hasPair_copies in Hnd. congruence.
  - intros Hnd. destruct (hasPair l) eqn:Hp; [|done].
    apply hasPair_copies in Hp as [v Hv]. pose proof (copies_NoDup v l Hnd). lia.
Qed.

Lemma countAtLeast_copies l k n :
  countAtLeast (valueCounts l) k n = true → (0 < n)%nat → (n ≤ copies k l)%nat.
Proof.
  unfold countAtLeast. rewrite valueCounts_lookup. case_decide; [done|].
  intros ?%Nat.leb_le. lia.
Qed.

(** ** Comparator theorems *)

(** C2: on lists of equal length the comparator is a total preorder test:
    exactly one of the three sign tests succeeds, swapping the arguments
    negates the sign, and "compare <= 0" is transitive. *)
Theorem compareLowballHands_total_order (A B C : list Z) :
  length A = length B → length B = length C →
  exactlyOne (isNegative (compareLowballHands A B)) (isZero (compareLowballHands A B))
             (isPositive (compareLowballHands A B))
  ∧ (∃ x y, compareLowballHands A B = Num x ∧ compareLowballHands B A = Num y
            ∧ Z.sgn x = - Z.sgn y)
  ∧ (js_leb (compareLowballHands A B) (Num 0) = true →
     js_leb (compareLowballHands B C) (Num 0) = true →
     js_leb (compareLowballHands A C) (Num 0) = true).
Proof.
  intros HAB HBC. unfold compareLowballHands.
  assert (length (sort_desc A) = length (sort_desc B)) as H1
    by by rewrite !sort_desc_length.
  assert (length (sort_desc B) = length (sort_desc C)) as H2
    by by rewrite !sort_desc_length.
  destruct (compare_loop_num _ _ H1) as [x Hx].
  split; [|split].
  - rewrite Hx. unfold exactlyOne, isNegative, isZero, isPositive, js_gtb. simpl.
    destruct (Z.ltb_spec x 0), (Z.ltb_spec 0 x); try lia.
    + rewrite bool_decide_eq_false_2; [auto|]. intros [=]. lia.
    + rewrite bool_decide_eq_false_2; [auto|]. intros [=]. lia.
    + rewrite bool_decide_eq_true_2; [auto|]. f_equal. lia.
  - exists x, (- x). split; [done|]. split; [by apply compare_loop_flip|].
    rewrite Z.sgn_opp. lia.
  - by apply compare_loop_trans.
Qed.

Lemma compareLowballHands_total_order_witness :
  js_leb (compareLowballHands [2; 3; 4; 5] [2; 3; 4; 6]) (Num 0) = true
  ∧ js_leb (compareLowballHands [2; 3; 4; 6] [8; 6; 5; 4]) (Num 0) = true
  ∧ js_leb (compareLowballHands [2; 3; 4; 5] [8; 6; 5; 4]) (Num 0) = true.
Proof.
  split; [reflexivity|]. split; [reflexivity|].
  apply (compareLowballHands_total_order [2; 3; 4; 5] [2; 3; 4; 6] [8; 6; 5; 4]);
    reflexivity.
Defined.

(** C3 (as the code has it): on lists of equal length whose values lie
    between -2^52 and 2^52, where the subtraction of two doubles is exact,
    the comparator returns an integer between -2^53 and 2^53, which is 0
    exactly when the two descending-sorted sequences are equal and otherwise
    is the difference of the two values at the first position where they
    differ. *)
Theorem compareLowballHands_result (a b : list Z) :
  length a = length b →
  exactValues a = true → exactValues b = true →
  ∃ z, compareLowballHands a b = Num z
       ∧ - 2 ^ 53 ≤ z ≤ 2 ^ 53
       ∧ (z = 0 ↔ sort_desc a = sort_desc b)
       ∧ (z ≠ 0 →
          ∃ (i : nat) x y, sort_desc a !! i = Some x ∧ sort_desc b !! i = Some y
                           ∧ take i (sort_desc a) = take i (sort_desc b)
                           ∧ x ≠ y ∧ z = x - y).
Proof.
  intros Hlen Ha Hb. unfold compareLowballHands.
  assert (length (sort_desc a) = length (sort_desc b)) as H1
    by by rewrite !sort_desc_length.
  assert (∀ l i v, exactValues l = true → sort_desc l !! i = Some v →
                   - 2 ^ 52 ≤ v ≤ 2 ^ 52) as Hbound.
  { intros l i v Hl Hv. unfold exactValues in Hl.
    rewrite forallb_forall in Hl.
    apply list_elem_of_lookup_2 in Hv. rewrite sort_desc_perm in Hv.
    apply list_elem_of_In, Hl in Hv.
    apply andb_true_iff in Hv as [?%Z.leb_le ?%Z.leb_le]. done. }
  destruct (compare_loop_num _ _ H1) as [z Hz]. exists z. split; [done|].
  assert (2 ^ 53 = 2 * 2 ^ 52) as Hpow by reflexivity.
  split; [|split].
  - destruct (decide (z = 0)) as [->|Hnz]; [lia|].
    destruct (compare_loop_mismatch _ _ _ Hz Hnz) as (i & x & y & Hx & Hy & _ & _ & ->).
    pose proof (Hbound _ _ _ Ha Hx). pose proof (Hbound _ _ _ Hb Hy). lia.
  - rewrite <- (compare_loop_zero _ _ H1), Hz. split; congruence.
  - by apply compare_loop_mismatch.
Qed.

Lemma compareLowballHands_result_witness :
  ∃ z, compareLowballHands [2; 3; 4; 6] [8; 6; 5; 4] = Num z
       ∧ - 2 ^ 53 ≤ z ≤ 2 ^ 53
       ∧ (z = 0 ↔ sort_desc [2; 3; 4; 6] = sort_desc [8; 6; 5; 4])
       ∧ (z ≠ 0 →
          ∃ (i : nat) x y, sort_desc [2; 3; 4; 6] !! i = Some x
                           ∧ sort_desc [8; 6; 5; 4] !! i = Some y
                           ∧ take i (sort_desc [2; 3; 4; 6]) = take i (sort_desc [8; 6; 5; 4])
                           ∧ x ≠ y ∧ z = x - y).
Proof.
  apply (compareLowballHands_result [2; 3; 4; 6] [8; 6; 5; 4]); reflexivity.
Defined.

(** The four-card draw 6-4-3-2 against the benchmark 8-6-5-4: two lists of
    equal length on which the result is -2, outside {-1, 0, 1}. *)
Lemma compareLowballHands_not_sign :
  length [2; 3; 4; 6] = length [8; 6; 5; 4]
  ∧ compareLowballHands [2; 3; 4; 6] [8; 6; 5; 4] = Num (-2)
  ∧ ¬ (compareLowballHands [2; 3; 4; 6] [8; 6; 5; 4] ∈ [Num (-1); Num 0; Num 1]).
Proof.
  split; [reflexivity|]. split; [reflexivity|].
  intros H. vm_compute in H. set_solver.
Qed.

(** ** The straight test on short inputs *)

Lemma isStraight_short vals : (length vals < 5)%nat → isStraight vals = false.
Proof.
  intros H. unfold isStraight. by apply Nat.ltb_lt in H as ->.
Qed.

Lemma isStraight_few_distinct vals :
  (length (set_of vals) < 5)%nat → isStraight vals = false.
Proof.
  intros H. unfold isStraight. destruct (length vals <? 5)%nat; [done|].
  rewrite sort_asc_length. by apply Nat.ltb_lt in H as ->.
Qed.

Lemma fourBestCards_length uniq four :
  fourBestCards uniq = Some four → length four = 4%nat.
Proof.
  unfold fourBestCards, slice. repeat case_bool_decide; intros; simplify_eq; [done|].
  rewrite length_take, length_drop. lia.
Qed.

(** C10: [isStraight] is false on every list with fewer than five distinct
    values, so it is false on every four-card draw that [fourBestCards]
    yields: the guard [!isStraight(fourBestCards)] of the Draw-1 check (one
    definition serves both variants) never rejects. *)
Theorem isStraight_draw1_guard_vacuous (vals uniq four : list Z) :
  (length (set_of vals) < 5)%nat →
  fourBestCards uniq = Some four →
  isStraight vals = false ∧ negb (isStraight four) = true.
Proof.
  intros Hvals Hfour. split; [by apply isStraight_few_distinct|].
  apply fourBestCards_length in Hfour.
  rewrite isStraight_short; [done|lia].
Qed.

Lemma isStraight_draw1_guard_vacuous_witness :
  isStraight [4; 5; 6; 7; 7; 6; 5; 4] = false
  ∧ negb (isStraight [5; 6; 7; 8]) = true.
Proof.
  apply (isStraight_draw1_guard_vacuous [4; 5; 6; 7; 7; 6; 5; 4] [5; 6; 7; 8; 10] [5; 6; 7; 8]).
  - vm_compute. lia.
  - reflexivity.
Defined.

(** ** Trap hands: four lowest distinct values 4, 5, 6, 7 *)

Lemma handValues_length hand : length (handValues hand) = length hand.
Proof. unfold handValues. by rewrite sort_asc_length, length_map. Qed.

Lemma handValues_sorted hand : Sorted Z.le (handValues hand).
Proof. apply sort_asc_sorted. Qed.

(** A five-card trap hand either repeats one of 4, 5, 6, 7 or has a fifth
    value above 7. *)
Lemma trap_shape hand :
  length hand = 5%nat →
  take 4 (uniqueValues (handValues hand)) = [4; 5; 6; 7] →
  (uniqueValues (handValues hand) = [4; 5; 6; 7] ∧ hasPair (handValues hand) = true)
  ∨ (∃ v, 7 < v ∧ handValues hand = [4; 5; 6; 7; v]
          ∧ uniqueValues (handValues hand) = [4; 5; 6; 7; v]).
Proof.
  intros Hlen Htake.
  pose proof (handValues_length hand) as Hvl. rewrite Hlen in Hvl.
  pose proof (length_uniqueValues (handValues hand)) as Hul. rewrite Hvl in Hul.
  pose proof (uniqueValues_sorted (handValues hand)) as Hsorted.
  destruct (uniqueValues (handValues hand)) as [|a [|b [|c [|d [|v [|? ?]]]]]] eqn:HU;
    simplify_eq/=; try lia.
  - left. split; [done|].
    destruct (hasPair (handValues hand)) eqn:Hp; [done|].
    apply hasPair_NoDup, set_of_NoDup in Hp.
    assert (length (uniqueValues (handValues hand)) = 5%nat) as Hbad.
    { unfold uniqueValues. by rewrite sort_asc_length, Hp. }
    rewrite HU in Hbad. done.
  - right. exists v.
    assert (uniqueValues (handValues hand) = handValues hand) as Heq.
    { apply uniqueValues_full; [apply handValues_sorted|]. by rewrite HU, Hvl. }
    rewrite <- Heq, HU. split; [|done].
    repeat match goal with
           | H : Sorted _ (_ :: _) |- _ => apply Sorted_inv in H as [? ?]
           | H : HdRel _ _ (_ :: _) |- _ => apply HdRel_inv in H
           end. lia.
Qed.

(** A strictly ascending list with lower bound [k] that holds [k] starts
    with it. *)
Lemma sorted_head_min k l :
  Sorted Z.lt l → (∀ v, v ∈ l → k ≤ v) → k ∈ l →
  ∃ l', l = k :: l' ∧ Sorted Z.lt l' ∧ (∀ v, v ∈ l' → k + 1 ≤ v).
Proof.
  intros Hs Hlow Hk. destruct l as [|x l]; [by apply elem_of_nil in Hk|].
  apply (Sorted_StronglySorted Z.lt) in Hs.
  apply StronglySorted_inv in Hs as [Hs Hall]. rewrite Forall_forall in Hall.
  assert (x = k) as ->.
  { apply elem_of_cons in Hk as [->|Hk]; [done|].
    apply Hall in Hk. pose proof (Hlow x ltac:(left)). lia. }
  exists l. split; [done|]. split; [by apply StronglySorted_Sorted|].
  intros v Hv%Hall. lia.
Qed.

(** "The four lowest distinct values are 4, 5, 6, 7", said without the
    evaluator's own computation: no value is below 4, and 4, 5, 6 and 7 all
    occur. *)
Lemma trap_values_iff (values : list Z) :
  take 4 (uniqueValues values) = [4; 5; 6; 7]
  ↔ (∀ v, v ∈ values → 4 ≤ v) ∧ 4 ∈ values ∧ 5 ∈ values ∧ 6 ∈ values ∧ 7 ∈ values.
Proof.
  pose proof (uniqueValues_sorted values) as Hs. split.
  - intros Htake.
    destruct (uniqueValues values) as [|a [|b [|c [|d rest]]]] eqn:HU; simplify_eq/=.
    apply (Sorted_StronglySorted Z.lt) in Hs.
    repeat match goal with
           | H : StronglySorted _ (_ :: _) |- _ => apply StronglySorted_inv in H as [? ?]
           | H : Forall _ (_ :: _) |- _ => apply Forall_cons in H as [? ?]
           end.
    repeat split; try (apply elem_of_uniqueValues; rewrite HU; set_solver).
    intros v Hv%elem_of_uniqueValues. rewrite HU in Hv.
    repeat (apply elem_of_cons in Hv as [->|Hv]); try lia.
    match goal with H : Forall (Z.lt 7) rest |- _ => rewrite Forall_forall in H;
      apply H in Hv end. lia.
  - intros (Hlow & H4 & H5 & H6 & H7).
    rewrite <- elem_of_uniqueValues in H4, H5, H6, H7.
    assert (∀ v, v ∈ uniqueValues values → 4 ≤ v) as Hlow'
      by (intros v Hv; apply Hlow; by apply (proj1 (elem_of_uniqueValues v values))).
    destruct (sorted_head_min 4 _ Hs Hlow' H4) as (l1 & HU & Hs1 & Hlow1).
    rewrite HU in *. clear HU.
    apply elem_of_cons in H5 as [?|H5]; [lia|].
    destruct (sorted_head_min 5 _ Hs1 Hlow1 H5) as (l2 & -> & Hs2 & Hlow2).
    do 2 (apply elem_of_cons in H6 as [?|H6]; [lia|]).
    destruct (sorted_head_min 6 _ Hs2 Hlow2 H6) as (l3 & -> & Hs3 & Hlow3).
    do 3 (apply elem_of_cons in H7 as [?|H7]; [lia|]).
    destruct (sorted_head_min 7 _ Hs3 Hlow3 H7) as (l4 & -> & _ & _). done.
Qed.

(** No trap hand passes the pat-hand rule of the single-position variant. *)
Lemma trap_not_pat_UTG hand :
  length hand = 5%nat →
  take 4 (uniqueValues (handValues hand)) = [4; 5; 6; 7] →
  patEligible hand
  && match handValues hand !! 4%nat with Some highCard => highCard <=? 8 | None => false end
  = false.
Proof.
  intros Hlen Htake. unfold patEligible.
  destruct (trap_shape hand Hlen Htake) as [[_ ->]|(v & Hv & -> & _)]; [done|].
  simpl. destruct (Z.leb_spec v 8); [|by rewrite andb_false_r].
  assert (v = 8) as -> by lia.
  replace (isStraight [4; 5; 6; 7; 8]) with true by reflexivity.
  simpl. by rewrite !andb_false_r.
Qed.

Lemma trap_check_fires hand :
  length hand = 5%nat →
  take 4 (uniqueValues (handValues hand)) = [4; 5; 6; 7] →
  (4 <=? length (uniqueValues (handValues hand)))%nat
  && String.eqb (toString (slice 0 4 (uniqueValues (handValues hand)))) "4,5,6,7" = true.
Proof.
  intros Hlen Htake.
  destruct (trap_shape hand Hlen Htake) as [[-> _]|(v & Hv & _ & ->)]; reflexivity.
Qed.

Lemma evaluateUTGHand_trap hand :
  length hand = 5%nat →
  take 4 (uniqueValues (handValues hand)) = [4; 5; 6; 7] →
  UTG.evaluateUTGHand hand
  = UTG.mkEvaluation false "fold" "x7654 Trap Hand"
      "This hand draws to a straight (76543) and is a dangerous trap. Always fold.".
Proof.
  intros Hlen Htake. unfold UTG.evaluateUTGHand. cbv zeta.
  rewrite (trap_not_pat_UTG hand Hlen Htake).
  by rewrite (trap_check_fires hand Hlen Htake).
Qed.

(** ** Strategy resolution *)

Lemma bind_Returns {A B} (f : A → outcome B) (m : outcome A) (b : B) :
  m ≫= f = Returns b → ∃ a, m = Returns a ∧ f a = Returns b.
Proof. destruct m; simpl; intros; simplify_eq; eauto. Qed.

(** More depth never changes a result. *)
Lemma getFullStrategy_mono n : ∀ table pos r m,
  getFullStrategy n table pos = Returns r → (n ≤ m)%nat →
  getFullStrategy m table pos = Returns r.
Proof.
  induction n as [|n IH]; intros table pos r m H Hle; [done|].
  destruct m as [|m]; [lia|]. simpl in *.
  destruct (List.find _ table) as [strategy|]; [|done].
  destruct (inheritsFrom strategy) as [parent|]; [|done].
  apply bind_Returns in H as (r' & Hr' & H).
  rewrite (IH _ _ _ m Hr') by lia. done.
Qed.

(** The resolver never reads a field of [undefined]: a parent is looked up
    only in a table that has an entry. *)
Lemma getFullStrategy_Some n : ∀ table pos r,
  table ≠ [] → getFullStrategy n table pos = Returns r → is_Some r.
Proof.
  induction n as [|n IH]; intros table pos r Hne H; [done|]. simpl in H.
  destruct (List.find _ table) as [strategy|].
  - destruct (inheritsFrom strategy) as [parent|]; [|simplify_eq; eauto].
    apply bind_Returns in H as (r' & Hr' & H).
    destruct r'; simplify_eq; eauto.
  - simplify_eq. destruct table; [done|eauto].
Qed.

Lemma getFullStrategy_not_Throws n : ∀ table pos,
  getFullStrategy n table pos ≠ Throws.
Proof.
  induction n as [|n IH]; intros table pos H; [done|]. simpl in H.
  destruct (List.find _ table) as [strategy|] eqn:Hfind; [|done].
  destruct (inheritsFrom strategy) as [parent|]; [|done].
  destruct (getFullStrategy n table parent) as [r| |] eqn:Hp; simpl in H; [|by eapply IH|done].
  destruct r; [done|].
  apply getFullStrategy_Some in Hp as [? ?]; [done|].
  intros ->. done.
Qed.

Lemma getMinimumRaiseExample_resolved fuel table pos strategy :
  getFullStrategy fuel table pos = Returns (Some strategy) →
  getMinimumRaiseExample fuel table pos = Returns (minimumRaiseText strategy).
Proof. intros H. unfold getMinimumRaiseExample. by rewrite H. Qed.

(** ** The range-notation interpreter on classes of patterns *)

Lemma interpret_threshold pattern testHand :
  match_threshold pattern = true →
  interpretBetterHand pattern testHand
  = js_leb (Math_max testHand) (parseInt_charAt pattern 0).
Proof. intros H. unfold interpretBetterHand. by rewrite H. Qed.

Lemma interpret_benchmark4 pattern testHand :
  match_threshold pattern = false → match_digits_plus 4 pattern = true →
  interpretBetterHand pattern testHand
  = js_leb (compareLowballHands testHand (benchmarkOf pattern)) (Num 0).
Proof. intros H1 H2. unfold interpretBetterHand. by rewrite H1, H2. Qed.

Lemma interpret_benchmark3 pattern testHand :
  match_threshold pattern = false → match_digits_plus 4 pattern = false →
  match_digits_plus 3 pattern = true →
  interpretBetterHand pattern testHand
  = js_leb (compareLowballHands testHand (benchmarkOf pattern)) (Num 0).
Proof. intros H1 H2 H3. unfold interpretBetterHand. by rewrite H1, H2, H3. Qed.

(** A string of none of the three forms matches nothing: the fourth branch
    repeats the test of the second and is never entered. *)
Lemma interpret_unmatched pattern testHand :
  match_threshold pattern = false → match_digits_plus 4 pattern = false →
  match_digits_plus 3 pattern = false →
  interpretBetterHand pattern testHand = false.
Proof. intros H1 H2 H3. unfold interpretBetterHand. by rewrite H1, H2, H3. Qed.

Lemma find_none_forall {A} (f : A → bool) l :
  (∀ x, x ∈ l → f x = false) → List.find f l = None.
Proof.
  induction l as [|x l IH]; intros H; [done|]. simpl.
  rewrite (H x) by left. apply IH. intros y Hy. apply H. by right.
Qed.

Lemma find_some_elem {A} (f : A → bool) l x :
  List.find f l = Some x → x ∈ l ∧ f x = true.
Proof.
  intros [Hin Hf]%find_some. split; [|done]. by apply list_elem_of_In.
Qed.

Lemma find_app_some {A} (f : A → bool) l1 l2 x :
  List.find f l1 = Some x → List.find f (l1 ++ l2) = Some x.
Proof.
  induction l1 as [|y l1 IH]; [done|]. simpl. destruct (f y); [done|]. apply IH.
Qed.

Lemma find_is_some {A} (f : A → bool) l x :
  x ∈ l → f x = true → is_Some (List.find f l).
Proof.
  induction 1 as [x l|x y l Hin IH]; simpl; intros Hf.
  - rewrite Hf. eauto.
  - destruct (f y); eauto.
Qed.

(** ** The built-in table, resolved *)

Lemma default_resolved pos :
  ∃ strategy,
    getFullStrategy 6 positionStrategies pos = Returns (Some strategy)
    ∧ includes (patHands strategy) ⊆ defaultPatPatterns
    ∧ includesStr (excludes (draw1Hands strategy)) "7654" = true
    ∧ List.hd_error (includes (draw1Hands strategy)) = Some "8654+"%string.
Proof.
  destruct pos; eexists; (split; [vm_compute; reflexivity|]); simpl;
    (split; [|split; reflexivity]); unfold defaultPatPatterns; set_solver.
Qed.

(** Of the built-in pat patterns only ["8s+"] has a form the interpreter
    knows; the rest match nothing. *)
Lemma default_pat_pattern pattern testHand :
  pattern ∈ defaultPatPatterns →
  interpretBetterHand pattern testHand = true →
  js_leb (Math_max testHand) (Num 8) = true.
Proof.
  unfold defaultPatPatterns. intros Hin.
  repeat (apply elem_of_cons in Hin as [->|Hin]);
    try (rewrite interpret_unmatched by reflexivity; discriminate).
  - by rewrite interpret_threshold by reflexivity.
  - by apply elem_of_nil in Hin.
Qed.

(** No trap hand passes the pat-hand rule under a strategy whose pat
    patterns are the built-in ones. *)
Lemma trap_not_pat_Multi strategy hand pos :
  length hand = 5%nat →
  take 4 (uniqueValues (handValues hand)) = [4; 5; 6; 7] →
  includes (patHands strategy) ⊆ defaultPatPatterns →
  patEvaluation strategy hand pos = None.
Proof.
  intros Hlen Htake Hsub. unfold patEvaluation.
  destruct (patEligible hand) eqn:Hpat; [|done].
  rewrite find_none_forall; [done|]. intros pattern Hin.
  destruct (interpretBetterHand pattern (handValues hand)) eqn:Hi; [|done].
  apply default_pat_pattern in Hi; [|by apply Hsub].
  pose proof (trap_not_pat_UTG hand Hlen Htake) as Hno. rewrite Hpat in Hno.
  destruct (trap_shape hand Hlen Htake) as [[_ Hp]|(v & Hv & Hvals & _)].
  - unfold patEligible in Hpat. by rewrite Hp in Hpat.
  - rewrite Hvals in Hi, Hno. simpl in Hi, Hno. lia.
Qed.

(** On a trap hand the Draw-1 exclusion fires whenever ["7654"] is among
    the resolved excludes. *)
Lemma draw1_trap fuel table strategy hand pos :
  length hand = 5%nat →
  take 4 (uniqueValues (handValues hand)) = [4; 5; 6; 7] →
  includesStr (excludes (draw1Hands strategy)) "7654" = true →
  draw1Evaluation fuel table strategy hand pos
  = (example ← getMinimumRaiseExample fuel table pos;
     Returns (Some (mkEvaluation false "fold" "Draw 1 Excluded (7654)"
       "7654 is specifically excluded from the Draw 1 range."
       (positionName pos +:+ " Draw 1 Exclusion")
       (Some "7654 excluded") (Some example)))).
Proof.
  intros Hlen Htake Hex. unfold draw1Evaluation.
  assert (fourBestCards (uniqueValues (handValues hand)) = Some [4; 5; 6; 7]) as ->.
  { destruct (trap_shape hand Hlen Htake) as [[-> _]|(v & _ & _ & ->)]; reflexivity. }
  replace (isStraight [4; 5; 6; 7]) with false by reflexivity.
  replace (joinNums "" [4; 5; 6; 7]) with "4567"%string by reflexivity.
  cbv zeta. rewrite Hex, orb_true_r. done.
Qed.

Lemma evaluateHandForPosition_trap fuel table strategy hand pos :
  length hand = 5%nat →
  take 4 (uniqueValues (handValues hand)) = [4; 5; 6; 7] →
  getFullStrategy fuel table pos = Returns (Some strategy) →
  includes (patHands strategy) ⊆ defaultPatPatterns →
  includesStr (excludes (draw1Hands strategy)) "7654" = true →
  evaluateHandForPosition fuel table hand pos
  = Returns (mkEvaluation false "fold" "Draw 1 Excluded (7654)"
      "7654 is specifically excluded from the Draw 1 range."
      (positionName pos +:+ " Draw 1 Exclusion")
      (Some "7654 excluded") (Some (minimumRaiseText strategy))).
Proof.
  intros Hlen Htake Hres Hpat Hex. unfold evaluateHandForPosition.
  rewrite Hres. simpl.
  rewrite trap_not_pat_Multi, draw1_trap by done.
  by rewrite (getMinimumRaiseExample_resolved _ _ _ _ Hres).
Qed.

(** C1: a five-card hand whose four lowest distinct values are 4, 5, 6, 7
    is folded, whatever its fifth card and its suits: by the single-position
    evaluator, and by the multi-position evaluator at every position of the
    built-in table, where the resolved Draw-1 range has an include pattern
    (["8654+"]) that the draw 4-5-6-7 satisfies and the exclusion is applied
    before it. *)
Theorem trap_hand_folds (hand : list HandCard) :
  length hand = 5%nat →
  take 4 (uniqueValues (handValues hand)) = [4; 5; 6; 7] →
  (UTG.isPlayable (UTG.evaluateUTGHand hand) = false
   ∧ UTG.correctAction (UTG.evaluateUTGHand hand) = "fold"%string)
  ∧ ∀ pos fuel, (6 ≤ fuel)%nat →
      ∃ e strategy pattern,
        evaluateHandForPosition fuel positionStrategies hand pos = Returns e
        ∧ isPlayable e = false ∧ correctAction e = "fold"%string
        ∧ getFullStrategy fuel positionStrategies pos = Returns (Some strategy)
        ∧ pattern ∈ includes (draw1Hands strategy)
        ∧ interpretBetterHand pattern [4; 5; 6; 7] = true.
Proof.
  intros Hlen Htake. split.
  - by rewrite evaluateUTGHand_trap.
  - intros pos fuel Hfuel.
    destruct (default_resolved pos) as (strategy & Hres & Hpat & Hex & Hinc).
    apply (getFullStrategy_mono _ _ _ _ fuel) in Hres; [|done].
    eexists _, strategy, "8654+"%string.
    split; [by apply evaluateHandForPosition_trap|].
    repeat split; try done.
    destruct (includes (draw1Hands strategy)); simplify_eq/=. by left.
Qed.

Lemma trap_hand_folds_witness :
  UTG.isPlayable (UTG.evaluateUTGHand trapHand) = false
  ∧ ∃ e, evaluateHandForPosition 6 positionStrategies trapHand BTN = Returns e
         ∧ isPlayable e = false.
Proof.
  destruct (trap_hand_folds trapHand) as [[Hutg _] Hmulti]; [reflexivity..|].
  split; [exact Hutg|].
  destruct (Hmulti BTN 6%nat) as (e & _ & _ & He & Hp & _); [lia|].
  exists e. by split.
Defined.

(** ** The wheel A-2-3-4-5 *)

Lemma wheel_values hand :
  map value hand ≡ₚ [2; 3; 4; 5; 14] → handValues hand = [2; 3; 4; 5; 14].
Proof.
  intros H. unfold handValues. by rewrite (sort_asc_unique _ _ H).
Qed.

Lemma patEvaluation_ineligible strategy hand pos :
  patEligible hand = false → patEvaluation strategy hand pos = None.
Proof. intros H. unfold patEvaluation. by rewrite H. Qed.

(** Only the pat-hand rule produces a category that starts with "Pat". *)
Lemma category_not_pat fuel table hand pos e :
  patEligible hand = false →
  evaluateHandForPosition fuel table hand pos = Returns e →
  String.prefix "Pat" (category e) = false.
Proof.
  intros Hpat. unfold evaluateHandForPosition.
  intros (r & _ & H)%bind_Returns. destruct r as [strategy|]; [|done].
  rewrite patEvaluation_ineligible in H by done.
  apply bind_Returns in H as (d1 & Hd1 & H).
  destruct d1 as [e1|].
  - simplify_eq. unfold draw1Evaluation in Hd1.
    repeat (case_match; simplify_eq/=; try done);
      try (apply bind_Returns in Hd1 as (? & _ & ?); by simplify_eq/=).
  - unfold draw2Evaluation in H.
    repeat (case_match; simplify_eq/=; try done);
      try (apply bind_Returns in H as (? & _ & ?); by simplify_eq/=).
Qed.

Lemma draw1_wheel fuel table strategy hand pos :
  handValues hand = [2; 3; 4; 5; 14] →
  List.hd_error (includes (draw1Hands strategy)) = Some "8654+"%string →
  ∃ e, draw1Evaluation fuel table strategy hand pos = Returns (Some e)
       ∧ isPlayable e = true ∧ category e = "Draw 1 (2345)"%string.
Proof.
  intros Hvals Hhd. unfold draw1Evaluation. rewrite Hvals.
  replace (fourBestCards (uniqueValues [2; 3; 4; 5; 14])) with (Some [2; 3; 4; 5])
    by reflexivity.
  replace (isStraight [2; 3; 4; 5]) with false by reflexivity.
  replace (joinNums "" [2; 3; 4; 5]) with "2345"%string by reflexivity.
  cbv zeta. rewrite andb_false_r.
  destruct (includes (draw1Hands strategy)) as [|p l]; simplify_eq/=.
  replace (interpretBetterHand "8654+" [2; 3; 4; 5]) with true by reflexivity.
  simpl. eauto.
Qed.

(** C4: a hand with value set {2, 3, 4, 5, 14} has no pair and no run of
    five consecutive values, yet it never passes the pat-hand rule, whatever
    its suits: the single-position evaluator files it as a Draw 1, and the
    multi-position evaluator never gives it a "Pat" category, under any
    strategy table and at any position (a Draw 1 under the built-in one). *)
Theorem wheel_never_pat (hand : list HandCard) :
  map value hand ≡ₚ [2; 3; 4; 5; 14] →
  hasPair (handValues hand) = false
  ∧ isStraight (handValues hand) = false
  ∧ patEligible hand = false
  ∧ UTG.category (UTG.evaluateUTGHand hand) = "Draw 1 (2345)"%string
  ∧ (∀ fuel table pos e,
       evaluateHandForPosition fuel table hand pos = Returns e →
       String.prefix "Pat" (category e) = false)
  ∧ (∀ pos fuel, (6 ≤ fuel)%nat →
       ∃ e, evaluateHandForPosition fuel positionStrategies hand pos = Returns e
            ∧ category e = "Draw 1 (2345)"%string).
Proof.
  intros Hperm. pose proof (wheel_values hand Hperm) as Hvals.
  assert (patEligible hand = false) as Hpat.
  { unfold patEligible. rewrite Hvals.
    replace (hasWheel [2; 3; 4; 5; 14]) with true by reflexivity.
    by rewrite andb_false_r. }
  rewrite Hvals. repeat split; try reflexivity; try done.
  - unfold UTG.evaluateUTGHand. cbv zeta. rewrite Hpat, Hvals. reflexivity.
  - intros fuel table pos e. by apply category_not_pat.
  - intros pos fuel Hfuel.
    destruct (default_resolved pos) as (strategy & Hres & _ & _ & Hinc).
    apply (getFullStrategy_mono _ _ _ _ fuel) in Hres; [|done].
    destruct (draw1_wheel fuel positionStrategies strategy hand pos Hvals Hinc)
      as (e & He & _ & Hcat).
    exists e. split; [|done]. unfold evaluateHandForPosition.
    rewrite Hres. simpl. rewrite patEvaluation_ineligible by done.
    by rewrite He.
Qed.

Lemma wheel_never_pat_witness :
  patEligible wheelHand = false
  ∧ UTG.category (UTG.evaluateUTGHand wheelHand) = "Draw 1 (2345)"%string.
Proof.
  destruct (wheel_never_pat wheelHand) as (_ & _ & Hpat & Hcat & _).
  - symmetry. exact (Permutation_rev [2; 3; 4; 5; 14]).
  - split; [exact Hpat|exact Hcat].
Defined.

(** ** Patterns with a blocker pair *)

(** A pattern of four digits and a plus sign is not of the threshold form. *)
Lemma digits_plus_not_threshold pattern :
  match_digits_plus 4 pattern = true → match_threshold pattern = false.
Proof.
  unfold match_digits_plus, match_threshold. cbv zeta.
  destruct (chars pattern) as [|a [|b [|c [|d [|e [|? ?]]]]]]; try done.
  simpl. destruct (Ascii.eqb_spec d "s") as [->|Hd].
  - replace (is_digit "s") with false by reflexivity.
    destruct (is_digit a), (is_digit b), (is_digit c); done.
  - intros _. by rewrite andb_false_r.
Qed.

(** Every pattern that could reach the pair-requirement branch has already
    been answered by the four-digit benchmark branch. *)
Lemma interpret_four_digits pattern testHand :
  match_digits_plus 4 pattern = true →
  interpretBetterHand pattern testHand
  = js_leb (compareLowballHands testHand (benchmarkOf pattern)) (Num 0).
Proof.
  intros H. apply interpret_benchmark4; [|done]. by apply digits_plus_not_threshold.
Qed.

(** C5 (the code differs): the pattern ["6322+"] has the blocker-pair form,
    but the interpreter answers it in the four-digit benchmark branch.  On
    the three-card draw 4-3-2 it reports a match although the candidate has
    no 6 and a single 2; on 9-6-3-2-2, which holds 6, 3 and two 2s, it
    reports none.  The pair-requirement rule gives the opposite answers. *)
Theorem blocker_pattern_read_as_benchmark :
  match_digits_plus 4 "6322+" = true
  ∧ str_includes "6322+" "22" = true
  ∧ interpretBetterHand "6322+" [2; 3; 4] = true
  ∧ blockerPairRule "6322+" [2; 3; 4] = false
  ∧ interpretBetterHand "6322+" [2; 2; 3; 6; 9] = false
  ∧ blockerPairRule "6322+" [2; 2; 3; 6; 9] = true.
Proof. repeat split; reflexivity. Qed.

(** ** The pattern ["all"] *)

Lemma interpret_all testHand : interpretBetterHand "all" testHand = false.
Proof. by apply interpret_unmatched. Qed.

(** C6 (the code differs): at BTN the resolved Draw-2 range lists ["all"],
    the three-card draw of T-T-T-9-2 is 2-9-10, the Draw-2 loop asks the
    interpreter alone, which knows no pattern ["all"], and the hand is
    folded.  (The Draw-1 loop tests for ["all"] itself.) *)
Theorem all_pattern_ignored_in_draw2 :
  ∃ strategy e,
    getFullStrategy 6 positionStrategies BTN = Returns (Some strategy)
    ∧ "all"%string ∈ includes (draw2Hands strategy)
    ∧ threeCardDraws (uniqueValues (handValues tensHand)) = [[2; 9; 10]]
    ∧ interpretBetterHand "all" [2; 9; 10] = false
    ∧ evaluateHandForPosition 6 positionStrategies tensHand BTN = Returns e
    ∧ isPlayable e = false ∧ category e = "Fold"%string.
Proof.
  do 2 eexists. split; [vm_compute; reflexivity|].
  split; [simpl; set_solver|].
  split; [reflexivity|]. split; [reflexivity|].
  split; [vm_compute; reflexivity|]. split; reflexivity.
Qed.

(** ** The special blocker shape of the single-position variant *)

(** In a five-card hand the shapes 632xx and 762xx ask for five distinct
    values, so the pair of 2s that the playable branch asks for is never
    there. *)
Lemma special_blocker_unreachable hand :
  length hand = 5%nat →
  UTG.category (UTG.evaluateUTGHand hand) ≠ "Draw 2 (Special Blocker)"%string.
Proof.
  intros Hlen. unfold UTG.evaluateUTGHand. cbv zeta.
  destruct (patEligible hand && _); [simpl; discriminate|].
  destruct ((4 <=? _)%nat && _); [simpl; discriminate|].
  match goal with |- context [match ?d with Some four => UTG.mkEvaluation _ _ _ _ | None => _ end] => destruct d eqn:Hd1 end; [simpl; discriminate|].
  match goal with |- context [if ?c || ?d then _ else _] => destruct (c || d) eqn:Hshape end.
  - destruct (countAtLeast _ 2 2) eqn:Hcount; [|simpl; discriminate]. intros _.
    apply countAtLeast_copies in Hcount; [|lia].
    assert (length (uniqueValues (handValues hand)) = 5%nat) as Hfive.
    { apply orb_true_iff in Hshape as [H|H];
        repeat (apply andb_true_iff in H as [H ?]); by apply bool_decide_eq_true in H. }
    assert (NoDup (handValues hand)) as Hnd.
    { apply set_of_length_NoDup. unfold uniqueValues in Hfive.
      rewrite sort_asc_length in Hfive. by rewrite Hfive, handValues_length. }
    pose proof (copies_NoDup 2 (handValues hand) Hnd). lia.
  - match goal with |- context [match ?d with Some _ => _ | None => _ end] => destruct d as [[best name]|] eqn:Hd2 end.
    + clear Hd1 Hshape. repeat (case_match; simplify_eq).
      match goal with
      | H : List.find _ UTG.benchmarks = Some _ |- _ =>
          apply find_some_elem in H as [Hin _]
      end.
      unfold UTG.benchmarks in Hin.
      repeat (apply elem_of_cons in Hin as [->|Hin]); try (simpl; discriminate).
      by apply elem_of_nil in Hin.
    + destruct (countAtLeast _ 2 2 && _); [simpl; discriminate|].
      destruct (countAtLeast _ 2 3 && _); simpl; discriminate.
Qed.

(** C9 (the code differs): 9-6-3-2-2 has four distinct values, so neither
    special shape is recognised; the hand is raised by the general Draw-2
    check, under the benchmark 752, and its category names no blocker. *)
Theorem scenario4_general_draw2 :
  length (uniqueValues (handValues blockerHand)) = 4%nat
  ∧ UTG.evaluateUTGHand blockerHand
    = UTG.mkEvaluation true "raise" "Draw 2 (752+)"
        "This hand has a three-card draw (2, 3, 6) that is 752 or better. This is a standard Draw 2.".
Proof. split; reflexivity. Qed.

(** ** Termination of the resolver *)

Lemma getFullStrategy_stop table pos n :
  parentOf table pos = None → ∃ r, getFullStrategy (S n) table pos = Returns r.
Proof.
  unfold parentOf. simpl. destruct (List.find _ table) as [strategy|]; [|eauto].
  intros ->. eauto.
Qed.

Lemma getFullStrategy_step table pos parent n :
  parentOf table pos = Some parent →
  (∀ rp, getFullStrategy n table parent = Returns rp →
         ∃ r, getFullStrategy (S n) table pos = Returns r)
  ∧ (getFullStrategy n table parent = Diverges →
     getFullStrategy (S n) table pos = Diverges).
Proof.
  unfold parentOf. simpl.
  destruct (List.find _ table) as [strategy|] eqn:Hfind; [|done].
  intros ->. split.
  - intros rp Hp. rewrite Hp. simpl.
    apply getFullStrategy_Some in Hp as [ps ->]; [eauto|].
    intros ->. done.
  - by intros ->.
Qed.

Lemma getFullStrategy_returns_inv table pos n r :
  getFullStrategy (S n) table pos = Returns r →
  parentOf table pos = None
  ∨ ∃ parent rp, parentOf table pos = Some parent
                 ∧ getFullStrategy n table parent = Returns rp.
Proof.
  unfold parentOf. simpl.
  destruct (List.find _ table) as [strategy|]; [|auto].
  destruct (inheritsFrom strategy) as [parent|]; [|auto].
  intros (rp & Hp & _)%bind_Returns. eauto.
Qed.

Lemma depthIs_returns table pos d :
  depthIs table pos d → ∃ r, getFullStrategy (S d) table pos = Returns r.
Proof.
  induction 1 as [pos Hstop|pos parent d Hpar _ [rp IH]].
  - by apply getFullStrategy_stop.
  - by eapply (getFullStrategy_step _ _ _ _ Hpar).
Qed.

Lemma chainEnds_depth table pos : chainEnds table pos → ∃ d, depthIs table pos d.
Proof.
  induction 1 as [pos Hstop|pos parent Hpar _ [d IH]].
  - exists 0%nat. by constructor.
  - exists (S d). by econstructor.
Qed.

Lemma depthIs_chainEnds table pos d : depthIs table pos d → chainEnds table pos.
Proof. induction 1; [by apply chain_stop|by eapply chain_step]. Qed.

Lemma depthIs_unique table pos d1 :
  depthIs table pos d1 → ∀ d2, depthIs table pos d2 → d1 = d2.
Proof.
  induction 1 as [pos Hstop|pos parent d Hpar _ IH]; intros d2 H2.
  - inversion H2; simplify_eq; done.
  - inversion H2 as [|? parent' d' Hpar' Hd']; simplify_eq. f_equal. by apply IH.
Qed.

(** The positions along a chain of depth [d]: one position of each depth
    from [d] down to 0. *)
Lemma depthIs_positions table pos d :
  depthIs table pos d →
  ∃ l : list LearningPosition,
    length l = S d ∧ ∀ (i : nat) p, l !! i = Some p → depthIs table p (d - i).
Proof.
  induction 1 as [pos Hstop|pos parent d Hpar Hd (l & Hlen & Hl)].
  - exists [pos]. split; [done|]. intros [|i] p Hp; simplify_eq/=. by constructor.
  - exists (pos :: l). split; [simpl; lia|]. intros [|i] p Hp; simplify_eq/=.
    + by econstructor.
    + by apply Hl.
Qed.

Lemma positions_NoDup_length (l : list LearningPosition) :
  NoDup l → (length l ≤ length allPositions)%nat.
Proof.
  intros Hnd. apply submseteq_length, NoDup_submseteq; [done|].
  intros []; unfold allPositions; set_solver.
Qed.

(** A chain that ends has fewer links than there are positions. *)
Lemma depthIs_bound table pos d :
  depthIs table pos d → (S d ≤ length allPositions)%nat.
Proof.
  intros (l & Hlen & Hl)%depthIs_positions. rewrite <- Hlen.
  apply positions_NoDup_length, NoDup_alt. intros i j p Hi Hj.
  pose proof (lookup_lt_Some _ _ _ Hi). pose proof (lookup_lt_Some _ _ _ Hj).
  pose proof (depthIs_unique _ _ _ (Hl _ _ Hi) _ (Hl _ _ Hj)). lia.
Qed.

Lemma getFullStrategy_returns_chainEnds n : ∀ table pos r,
  getFullStrategy n table pos = Returns r → chainEnds table pos.
Proof.
  induction n as [|n IH]; intros table pos r H; [done|].
  apply getFullStrategy_returns_inv in H as [Hstop|(parent & rp & Hpar & Hp)].
  - by apply chain_stop.
  - eapply chain_step; eauto.
Qed.

Lemma depthIs_ancestor table pos d :
  depthIs table pos d → ∀ n q, ancestor table n pos = Some q →
  (n ≤ d)%nat ∧ depthIs table q (d - n).
Proof.
  induction 1 as [pos Hstop|pos parent d Hpar Hd IH]; intros [|n] q Hq; simplify_eq/=.
  - split; [lia|by constructor].
  - by rewrite Hstop in Hq.
  - split; [lia|by econstructor].
  - rewrite Hpar in Hq. destruct (IH _ _ Hq). split; [lia|done].
Qed.

(** A chain that passes through a cycle does not end. *)
Lemma cycle_not_chainEnds table pos k q :
  ancestor table k pos = Some q → onCycle table q → ¬ chainEnds table pos.
Proof.
  intros Hq [n Hn] [d Hd]%chainEnds_depth.
  destruct (depthIs_ancestor _ _ _ Hd _ _ Hq) as [_ Hdq].
  destruct (depthIs_ancestor _ _ _ Hdq _ _ Hn) as [? Hdq'].
  pose proof (depthIs_unique _ _ _ Hdq _ Hdq'). lia.
Qed.

(** C7 (as the code has it): on a chain that ends, resolution returns
    within as many nested calls as there are positions; on a chain that does
    not end, resolution never returns and raises nothing; a position with no
    entry is answered with the first entry of the table, not with an
    error. *)
Theorem getFullStrategy_termination (table : list PositionStrategy)
    (pos : LearningPosition) :
  (chainEnds table pos →
   ∃ r, ∀ fuel, (length allPositions ≤ fuel)%nat →
        getFullStrategy fuel table pos = Returns r)
  ∧ (¬ chainEnds table pos → ∀ fuel, getFullStrategy fuel table pos = Diverges)
  ∧ (List.find (λ s, bool_decide (position s = pos)) table = None →
     ∀ fuel, getFullStrategy (S fuel) table pos = Returns (head table)).
Proof.
  split; [|split].
  - intros [d Hd]%chainEnds_depth.
    destruct (depthIs_returns _ _ _ Hd) as [r Hr]. exists r. intros fuel Hfuel.
    apply (getFullStrategy_mono _ _ _ _ _ Hr).
    pose proof (depthIs_bound _ _ _ Hd). lia.
  - intros Hno fuel.
    destruct (getFullStrategy fuel table pos) as [r| |] eqn:H; [| |done].
    + destruct Hno. by eapply getFullStrategy_returns_chainEnds.
    + by apply getFullStrategy_not_Throws in H.
  - intros Hfind fuel. simpl. by rewrite Hfind.
Qed.

Lemma cyclicTable_not_chainEnds : ¬ chainEnds cyclicTable UTG.
Proof.
  apply (cycle_not_chainEnds cyclicTable UTG 0 UTG); [reflexivity|].
  by exists 0%nat.
Qed.

Lemma getFullStrategy_termination_witness :
  (∃ r, ∀ fuel, (length allPositions ≤ fuel)%nat →
        getFullStrategy fuel positionStrategies BB = Returns r)
  ∧ (∀ fuel, getFullStrategy fuel cyclicTable UTG = Diverges)
  ∧ (∀ fuel, getFullStrategy (S fuel) danglingTable CO = Returns (head danglingTable)).
Proof.
  split; [|split].
  - apply (getFullStrategy_termination positionStrategies BB).
    apply chain_step with SB; [reflexivity|].
    apply chain_step with BTN; [reflexivity|].
    apply chain_step with CO; [reflexivity|].
    apply chain_step with HJ; [reflexivity|].
    apply chain_step with UTG; [reflexivity|].
    apply chain_stop. reflexivity.
  - apply (getFullStrategy_termination cyclicTable UTG).
    exact cyclicTable_not_chainEnds.
  - apply (getFullStrategy_termination danglingTable CO). reflexivity.
Defined.

(** No resolution error on either table: resolving HJ in [danglingTable]
    follows an [inheritsFrom] to CO, which has no entry, and returns a merged
    strategy (the patterns of the first entry followed by HJ's own);
    resolving UTG in [cyclicTable], which is on a cycle, returns at no
    depth. *)
Lemma getFullStrategy_no_resolution_error :
  parentOf danglingTable HJ = Some CO
  ∧ List.find (λ s, bool_decide (position s = CO)) danglingTable = None
  ∧ getFullStrategy 6 danglingTable HJ
    = Returns (Some (mkStrategy HJ (mkRange ["8s+"; "9s+"]%string []) emptyRange
                       emptyRange emptyRange emptyRange (Some CO)))
  ∧ onCycle cyclicTable UTG
  ∧ ¬ (∃ fuel, getFullStrategy fuel cyclicTable UTG ≠ Diverges).
Proof.
  split; [reflexivity|]. split; [reflexivity|]. split; [reflexivity|].
  split; [by exists 0%nat|].
  intros [fuel H]. apply H. clear H.
  induction fuel as [|fuel IH]; [done|]. simpl. by rewrite IH.
Qed.

(** ** Inheritance *)

Lemma find_existsb {A} (f : A → bool) l :
  existsb f l = match List.find f l with Some _ => true | None => false end.
Proof. induction l as [|x l IH]; [done|]. simpl. by destruct (f x). Qed.

Lemma evaluateHandForPosition_playable fuel table hand pos strategy :
  getFullStrategy fuel table pos = Returns (Some strategy) →
  ∃ e, evaluateHandForPosition fuel table hand pos = Returns e
       ∧ isPlayable e = playableUnder strategy hand.
Proof.
  intros Hres. unfold evaluateHandForPosition. rewrite Hres. simpl.
  unfold playableUnder, patMatch, draw1Excluded, draw1Match, draw2Match.
  unfold patEvaluation, draw1Evaluation, draw2Evaluation. cbv zeta.
  rewrite (getMinimumRaiseExample_resolved _ _ _ _ Hres).
  repeat (case_match; simplify_eq/=).
  all: eexists; (split; [reflexivity|]); simpl; rewrite ?find_existsb.
  all: repeat match goal with
              | H : List.find _ _ = _ |- _ => rewrite H; clear H
              | H : includesStr _ _ = _ |- _ => rewrite H; clear H
              end.
  all: simpl; rewrite ?orb_true_r, ?andb_false_r; done.
Qed.

Lemma includesStr_app l1 l2 x :
  includesStr (l1 ++ l2) x = includesStr l1 x || includesStr l2 x.
Proof.
  unfold includesStr. apply eq_true_iff_eq.
  rewrite orb_true_iff, !bool_decide_eq_true. apply elem_of_app.
Qed.

Lemma draw1Excluded_app excl1 excl2 hand :
  draw1Excluded (excl1 ++ excl2) hand
  = draw1Excluded excl1 hand || draw1Excluded excl2 hand.
Proof.
  unfold draw1Excluded. destruct (fourBestCards _) as [four|]; [|done].
  rewrite !includesStr_app.
  destruct (negb (isStraight four)), (includesStr excl1 _), (includesStr excl1 _),
    (includesStr excl2 _), (includesStr excl2 _), (String.eqb _ _); done.
Qed.

Lemma patMatch_extends parentStrategy childStrategy own hand :
  includes (patHands childStrategy) = includes (patHands parentStrategy) ++ own →
  patMatch parentStrategy hand = true → patMatch childStrategy hand = true.
Proof.
  unfold patMatch. intros ->. rewrite existsb_app.
  intros [-> ->]%andb_true_iff. done.
Qed.

Lemma draw1Match_extends parentStrategy childStrategy own hand :
  includes (draw1Hands childStrategy) = includes (draw1Hands parentStrategy) ++ own →
  draw1Match parentStrategy hand = true → draw1Match childStrategy hand = true.
Proof.
  unfold draw1Match. intros ->. destruct (fourBestCards _) as [four|]; [|done].
  rewrite existsb_app, includesStr_app.
  intros [-> [->| ->]%orb_true_iff]%andb_true_iff; simpl; [done|].
  by rewrite !orb_true_r.
Qed.

Lemma draw2Match_extends parentStrategy childStrategy own hand :
  includes (draw2Hands childStrategy) = includes (draw2Hands parentStrategy) ++ own →
  draw2Match parentStrategy hand = true → draw2Match childStrategy hand = true.
Proof.
  unfold draw2Match. intros ->. destruct (threeCardDraws _) as [|best ?].
  - by rewrite andb_false_r.
  - rewrite existsb_app. intros [-> ->]%andb_true_iff. done.
Qed.

(** A strategy that extends another one: every range of the child is the
    parent's followed by the child's own entries. *)
Lemma playableUnder_extends parentStrategy childStrategy ownExcludes hand :
  (∃ own, includes (patHands childStrategy) = includes (patHands parentStrategy) ++ own) →
  (∃ own, includes (draw1Hands childStrategy) = includes (draw1Hands parentStrategy) ++ own) →
  (∃ own, includes (draw2Hands childStrategy) = includes (draw2Hands parentStrategy) ++ own) →
  excludes (draw1Hands childStrategy) = excludes (draw1Hands parentStrategy) ++ ownExcludes →
  draw1Excluded ownExcludes hand = false →
  playableUnder parentStrategy hand = true →
  playableUnder childStrategy hand = true.
Proof.
  intros [o0 Hpat] [o1 Hd1] [o2 Hd2] Hex Hown.
  unfold playableUnder. rewrite Hex, draw1Excluded_app, Hown, orb_false_r.
  intros [Hp|[Hnot Hd]%andb_true_iff]%orb_true_iff.
  - by rewrite (patMatch_extends _ _ _ _ Hpat Hp).
  - rewrite Hnot. simpl. apply orb_true_iff in Hd as [H1|H2].
    + rewrite (draw1Match_extends _ _ _ _ Hd1 H1). by rewrite orb_true_r.
    + rewrite (draw2Match_extends _ _ _ _ Hd2 H2). by rewrite !orb_true_r.
Qed.

(** C8: when the entry of position [child] inherits from [parent], a hand
    that is playable at [parent] is playable at [child], unless the Draw-1
    exclusion test succeeds on the excludes that the child's entry declares
    itself. *)
Theorem inheritance_monotone (table : list PositionStrategy)
    (child parent : LearningPosition) (childEntry : PositionStrategy)
    (hand : list HandCard) (fuel : nat) (atParent : Evaluation) :
  List.find (λ s, bool_decide (position s = child)) table = Some childEntry →
  inheritsFrom childEntry = Some parent →
  evaluateHandForPosition fuel table hand parent = Returns atParent →
  isPlayable atParent = true →
  draw1Excluded (excludes (draw1Hands childEntry)) hand = false →
  ∃ atChild,
    evaluateHandForPosition (S fuel) table hand child = Returns atChild
    ∧ isPlayable atChild = true.
Proof.
  intros Hfind Hinh Hparent Hplay Hown.
  pose proof Hparent as Hres. unfold evaluateHandForPosition in Hres.
  apply bind_Returns in Hres as (r & Hres & _).
  assert (is_Some r) as [parentStrategy ->].
  { eapply getFullStrategy_Some; [|done]. intros ->. done. }
  destruct (evaluateHandForPosition_playable _ _ hand _ _ Hres) as (e & He & Hpe).
  rewrite Hparent in He. simplify_eq.
  assert (∃ childStrategy,
    getFullStrategy (S fuel) table child = Returns (Some childStrategy)
    ∧ patHands childStrategy = mergeRange (patHands parentStrategy) (convertLegacyHandRange (patHands childEntry))
    ∧ draw1Hands childStrategy = mergeRange (draw1Hands parentStrategy) (convertLegacyHandRange (draw1Hands childEntry))
    ∧ draw2Hands childStrategy = mergeRange (draw2Hands parentStrategy) (convertLegacyHandRange (draw2Hands childEntry)))
    as (childStrategy & Hchild & Hp & H1 & H2).
  { eexists. split; [simpl; rewrite Hfind, Hinh, Hres; reflexivity|]. done. }
  destruct (evaluateHandForPosition_playable _ _ hand _ _ Hchild) as (atChild & He & Hce).
  exists atChild. split; [done|]. rewrite Hce.
  apply (playableUnder_extends parentStrategy childStrategy
           (excludes (draw1Hands childEntry)) hand); try done.
  - rewrite Hp. simpl. eauto.
  - rewrite H1. simpl. eauto.
  - rewrite H2. simpl. eauto.
  - by rewrite H1.
  - by rewrite <- Hpe.
Qed.

Lemma inheritance_monotone_witness :
  ∃ atChild,
    evaluateHandForPosition 2 positionStrategies wheelHand HJ = Returns atChild
    ∧ isPlayable atChild = true.
Proof.
  eapply (inheritance_monotone positionStrategies HJ UTG _ wheelHand 1);
    [reflexivity|reflexivity|vm_compute; reflexivity|reflexivity|reflexivity].
Defined.

(** * Further properties of the engine *)

(** ** What [isStraight] recognises *)

Lemma isSliceStraight_run a : isSliceStraight [a; a + 1; a + 2; a + 3; a + 4] = true.
Proof.
  simpl. rewrite Z.eqb_refl.
  replace (a + 2 =? a + 1 + 1) with true by lia.
  replace (a + 3 =? a + 2 + 1) with true by lia.
  replace (a + 4 =? a + 3 + 1) with true by lia. done.
Qed.

Lemma isSliceStraight_five a b c d e :
  isSliceStraight [a; b; c; d; e] = true →
  b = a + 1 ∧ c = a + 2 ∧ d = a + 3 ∧ e = a + 4.
Proof.
  simpl. repeat (case_match; try done). lia.
Qed.

(** In a strictly ascending list the successor of an element, when it
    occurs at all, is the next element. *)
Lemma sorted_successor_next a l1 l2 :
  Sorted Z.lt (l1 ++ a :: l2) → a + 1 ∈ l1 ++ a :: l2 →
  ∃ l2', l2 = (a + 1) :: l2'.
Proof.
  intros Hs Hin. apply (Sorted_StronglySorted Z.lt) in Hs.
  apply StronglySorted_app in Hs as (Hcross & _ & Hs2).
  apply StronglySorted_inv in Hs2 as [Hs2 Hall]. rewrite Forall_forall in Hall.
  assert (a + 1 ∈ l2) as Hin2.
  { apply elem_of_app in Hin as [Hin|Hin].
    - pose proof (Hcross (a + 1) a Hin ltac:(left)). lia.
    - apply elem_of_cons in Hin as [?|Hin]; [lia|done]. }
  destruct (sorted_head_min (a + 1) l2) as (l2' & -> & _); eauto.
  - by apply StronglySorted_Sorted.
  - intros v Hv%Hall. lia.
Qed.

(** X1: [isStraight] holds exactly of the lists that contain five
    consecutive integers. *)
Theorem isStraight_iff_run (vals : list Z) :
  isStraight vals = true
  ↔ ∃ a, a ∈ vals ∧ a + 1 ∈ vals ∧ a + 2 ∈ vals ∧ a + 3 ∈ vals ∧ a + 4 ∈ vals.
Proof.
  pose proof (uniqueValues_sorted vals) as Hs.
  pose proof (length_uniqueValues vals) as Hlen.
  unfold isStraight. fold (uniqueValues vals). split.
  - destruct (length vals <? 5)%nat; [done|].
    destruct (length (uniqueValues vals) <? 5)%nat eqn:Hfive; [done|].
    apply Nat.ltb_ge in Hfive.
    intros (i & Hi & Hrun)%existsb_exists.
    apply in_seq in Hi. unfold slice in Hrun.
    replace (i + 5 - i)%nat with 5%nat in Hrun by lia.
    assert (length (take 5 (drop i (uniqueValues vals))) = 5%nat) as Hl
      by (rewrite length_take, length_drop; lia).
    destruct (take 5 (drop i (uniqueValues vals))) as [|a [|b [|c [|d [|e [|? ?]]]]]] eqn:Ht;
      simplify_eq/=.
    apply isSliceStraight_five in Hrun as (-> & -> & -> & ->).
    assert (∀ v, v ∈ [a; a + 1; a + 2; a + 3; a + 4] → v ∈ vals) as Hsub.
    { intros v Hv. apply elem_of_uniqueValues. rewrite <- Ht in Hv.
      apply elem_of_take in Hv as (j & Hv & _).
      rewrite lookup_drop in Hv. by eapply list_elem_of_lookup_2. }
    exists a. repeat split; apply Hsub; set_solver.
  - intros (a & H0 & H1 & H2 & H3 & H4).
    rewrite <- elem_of_uniqueValues in H0, H1, H2, H3, H4.
    apply list_elem_of_split in H0 as (l1 & l2 & HU). rewrite HU in *.
    destruct (sorted_successor_next a l1 l2 Hs H1) as [l3 ->].
    pose proof (sorted_successor_next (a + 1) (l1 ++ [a]) l3) as Hn.
    rewrite <- app_assoc in Hn. simpl in Hn.
    replace (a + 1 + 1) with (a + 2) in Hn by lia.
    destruct (Hn Hs H2) as [l4 ->]. clear Hn.
    pose proof (sorted_successor_next (a + 2) (l1 ++ [a; a + 1]) l4) as Hn.
    rewrite <- app_assoc in Hn. simpl in Hn.
    replace (a + 2 + 1) with (a + 3) in Hn by lia.
    destruct (Hn Hs H3) as [l5 ->]. clear Hn.
    pose proof (sorted_successor_next (a + 3) (l1 ++ [a; a + 1; a + 2]) l5) as Hn.
    rewrite <- app_assoc in Hn. simpl in Hn.
    replace (a + 3 + 1) with (a + 4) in Hn by lia.
    destruct (Hn Hs H4) as [l6 ->]. clear Hn.
    rewrite length_app in *. simpl in *.
    replace (length vals <? 5)%nat with false by (symmetry; apply Nat.ltb_ge; lia).
    replace (length l1 + S (S (S (S (S (length l6))))) <? 5)%nat with false
      by (symmetry; apply Nat.ltb_ge; lia).
    apply existsb_exists. exists (length l1). split.
    + apply in_seq. lia.
    + unfold slice. rewrite drop_app_length.
      replace (length l1 + 5 - length l1)%nat with 5%nat by lia.
      simpl. apply isSliceStraight_run.
Qed.

(** ** What [valueCounts], [hasPair] and [hasFlush] compute *)

(** X2: [valueCounts] has a key exactly for the values of the hand and
    holds under it the number of copies; [hasPair] holds exactly when some
    value occurs twice, that is, when the values are not pairwise
    distinct. *)
Theorem valueCounts_hasPair_meaning (values : list Z) :
  (∀ v, valueCounts values !! v
        = if decide (v ∈ values) then Some (copies v values) else None)
  ∧ (∀ v, v ∈ values → (0 < copies v values)%nat)
  ∧ (hasPair values = true ↔ ∃ v, (2 ≤ copies v values)%nat)
  ∧ (hasPair values = false ↔ NoDup values).
Proof.
  assert (∀ v, v ∈ values ↔ (0 < copies v values)%nat) as Hpos.
  { intros v. unfold copies. split.
    - intros Hv. assert (v ∈ filter (λ x, x = v) values) as Hf
        by by apply list_elem_of_filter.
      destruct (filter (λ x, x = v) values); [by apply elem_of_nil in Hf|simpl; lia].
    - intros Hc. destruct (filter (λ x, x = v) values) as [|x l] eqn:Hf;
        [simpl in Hc; lia|].
      assert (x ∈ filter (λ x, x = v) values) as Hx by (rewrite Hf; left).
      apply list_elem_of_filter in Hx as [-> ?]. done. }
  split; [|split; [|split]].
  - intros v. rewrite valueCounts_lookup.
    destruct (decide (v ∈ values)) as [Hv|Hv].
    + apply Hpos in Hv. case_decide; [lia|done].
    + rewrite copies_not_elem by done. done.
  - intros v. apply Hpos.
  - apply hasPair_copies.
  - apply hasPair_NoDup.
Qed.

(** X3: [hasFlush] holds exactly of a non-empty list of suits that are all
    the same; on no suits at all it is false. *)
Theorem hasFlush_iff (suits : list string) :
  hasFlush suits = true ↔ ∃ s, s ∈ suits ∧ ∀ x, x ∈ suits → x = s.
Proof.
  unfold hasFlush. rewrite bool_decide_eq_true.
  pose proof (NoDup_remove_dups suits) as Hnd. split.
  - intros Hlen. destruct (remove_dups suits) as [|s [|? ?]] eqn:Hr; simplify_eq/=.
    exists s. split.
    + apply elem_of_remove_dups. rewrite Hr. left.
    + intros x Hx%elem_of_remove_dups. rewrite Hr in Hx. set_solver.
  - intros (s & Hs & Hall).
    assert (∀ x, x ∈ remove_dups suits → x = s) as Hall'
      by (intros x Hx; apply Hall; by apply elem_of_remove_dups).
    apply elem_of_remove_dups in Hs.
    destruct (remove_dups suits) as [|a [|b l]]; [by apply elem_of_nil in Hs|done|].
    apply NoDup_cons in Hnd as [Hab _].
    destruct Hab. rewrite (Hall' a), (Hall' b); [left|right; left|left].
Qed.

(** ** The comparator on lists of any length *)

Lemma compare_loop_NaN s1 : ∀ s2,
  compare_loop s1 s2 = NaN
  ↔ (length s2 < length s1)%nat ∧ take (length s2) s1 = s2.
Proof.
  induction s1 as [|x s1 IH]; intros [|y s2]; simpl.
  - split; [done|]. intros [? _]. lia.
  - split; [done|]. intros [? _]. lia.
  - split; [|done]. intros _. split; [lia|done].
  - destruct (Z.eqb_spec x y) as [->|Hne].
    + rewrite IH. split; intros [? ?]; (split; [lia|congruence]).
    + split; [done|]. intros [_ ?]. congruence.
Qed.

Lemma compare_loop_zero_prefix s1 : ∀ s2,
  compare_loop s1 s2 = Num 0
  ↔ (length s1 ≤ length s2)%nat ∧ s1 = take (length s1) s2.
Proof.
  induction s1 as [|x s1 IH]; intros [|y s2]; simpl.
  - split; [|done]. intros _. split; [lia|done].
  - split; [|done]. intros _. split; [lia|done].
  - split; [done|]. intros [? _]. lia.
  - destruct (Z.eqb_spec x y) as [->|Hne].
    + rewrite IH. split; intros [? ?]; (split; [lia|congruence]).
    + split; [intros [=]; lia|]. intros [_ ?]. congruence.
Qed.

(** X4: the comparator sees its arguments as multisets (their order does
    not matter); it returns [NaN] exactly when the second hand is shorter
    and is matched in full by the highest cards of the first, and 0 exactly
    when the first hand is no longer than the second and is matched in full
    by the highest cards of the second (the extra low cards of the second
    are never looked at). *)
Theorem compareLowballHands_any_length (hand1 hand2 : list Z) :
  (∀ hand1' hand2', hand1 ≡ₚ hand1' → hand2 ≡ₚ hand2' →
     compareLowballHands hand1 hand2 = compareLowballHands hand1' hand2')
  ∧ (compareLowballHands hand1 hand2 = NaN
     ↔ (length hand2 < length hand1)%nat
       ∧ take (length hand2) (sort_desc hand1) = sort_desc hand2)
  ∧ (compareLowballHands hand1 hand2 = Num 0
     ↔ (length hand1 ≤ length hand2)%nat
       ∧ sort_desc hand1 = take (length hand1) (sort_desc hand2)).
Proof.
  unfold compareLowballHands. split; [|split].
  - intros h1 h2 H1 H2.
    by rewrite (sort_desc_unique _ _ H1), (sort_desc_unique _ _ H2).
  - rewrite compare_loop_NaN, !sort_desc_length. done.
  - rewrite compare_loop_zero_prefix, !sort_desc_length. done.
Qed.

(** ** What the range-notation interpreter accepts *)

Lemma foldl_max_le (N x : Z) (xs : list Z) :
  foldl Z.max x xs ≤ N ↔ x ≤ N ∧ Forall (λ v, v ≤ N) xs.
Proof.
  revert x. induction xs as [|y xs IH]; intros x; simpl.
  - split; [intros; split; [done|constructor]|by intros [? _]].
  - rewrite IH, Forall_cons. split.
    + intros [? ?]. repeat split; [lia|lia|done].
    + intros (? & ? & ?). split; [lia|done].
Qed.

Lemma Math_max_le (N : Z) (xs : list Z) :
  js_leb (Math_max xs) (Num N) = true ↔ Forall (λ v, v ≤ N) xs.
Proof.
  destruct xs as [|x xs]; simpl.
  - split; [constructor|done].
  - rewrite Z.leb_le, foldl_max_le, Forall_cons. done.
Qed.

Lemma match_threshold_first pattern :
  match_threshold pattern = true →
  ∃ d, chars pattern !! 0%nat = Some d ∧ is_digit d = true.
Proof.
  unfold match_threshold.
  destruct (reverse (chars pattern)) as [|plus [|s [|d ds]]] eqn:Hr; try done.
  intros [_ Hd]%andb_true_iff.
  assert (chars pattern = reverse ds ++ [d; s; plus]) as ->.
  { rewrite <- (reverse_involutive (chars pattern)), Hr.
    rewrite !reverse_cons, <- !app_assoc. done. }
  rewrite forallb_forall in Hd.
  destruct (reverse ds) as [|c l] eqn:Hds; simpl.
  - exists d. split; [done|]. apply Hd. by left.
  - exists c. split; [done|]. apply Hd. right.
    apply list_elem_of_In, elem_of_reverse. rewrite Hds. left.
Qed.

(** X5: a pattern of the form [digits s +] is matched by exactly the hands
    whose values are all at most the first digit of the pattern (so ["8s+"]
    asks for a high card of at most 8, the empty hand matches, and only the
    first digit of a longer number counts). *)
Theorem interpretBetterHand_threshold (pattern : string) (testHand : list Z) :
  match_threshold pattern = true →
  ∃ d, chars pattern !! 0%nat = Some d ∧ is_digit d = true
       ∧ 0 ≤ digit_value d ≤ 9
       ∧ (interpretBetterHand pattern testHand = true
          ↔ Forall (λ v, v ≤ digit_value d) testHand).
Proof.
  intros Hm. destruct (match_threshold_first pattern Hm) as (d & Hd & Hdig).
  exists d. split; [done|]. split; [done|]. split.
  - unfold is_digit in Hdig. apply andb_true_iff in Hdig as [H1 H2].
    apply Nat.leb_le in H1, H2. unfold digit_value. lia.
  - rewrite interpret_threshold by done. unfold parseInt_charAt.
    rewrite Hd, Hdig. apply Math_max_le.
Qed.

Lemma interpretBetterHand_threshold_witness :
  ∃ d, chars "10s+" !! 0%nat = Some d ∧ is_digit d = true
       ∧ 0 ≤ digit_value d ≤ 9
       ∧ (interpretBetterHand "10s+" [1; 1; 0] = true
          ↔ Forall (λ v, v ≤ digit_value d) [1; 1; 0]).
Proof. apply (interpretBetterHand_threshold "10s+" [1; 1; 0]). reflexivity. Defined.

Lemma match_digits_plus_last n pattern :
  match_digits_plus n pattern = true → last (chars pattern) = Some "+"%char.
Proof.
  unfold match_digits_plus. cbv zeta.
  intros [[_ _]%andb_true_iff Hd%bool_decide_eq_true]%andb_true_iff.
  rewrite <- (take_drop n (chars pattern)), Hd. apply last_snoc.
Qed.

Lemma match_threshold_last pattern :
  match_threshold pattern = true → last (chars pattern) = Some "+"%char.
Proof.
  unfold match_threshold. rewrite <- head_reverse.
  destruct (reverse (chars pattern)) as [|plus [|s [|d ds]]]; try done.
  intros [[Hp%Ascii.eqb_eq _]%andb_true_iff _]%andb_true_iff. by subst.
Qed.

(** X6: the interpreter matches no hand against a pattern that does not
    end in a plus sign: a literal such as ["8753"] or the word ["all"] is
    never matched by it. *)
Theorem interpretBetterHand_needs_plus (pattern : string) (testHand : list Z) :
  last (chars pattern) ≠ Some "+"%char →
  interpretBetterHand pattern testHand = false.
Proof.
  intros Hlast. apply interpret_unmatched.
  - destruct (match_threshold pattern) eqn:H; [|done].
    by apply match_threshold_last in H.
  - destruct (match_digits_plus 4 pattern) eqn:H; [|done].
    by apply match_digits_plus_last in H.
  - destruct (match_digits_plus 3 pattern) eqn:H; [|done].
    by apply match_digits_plus_last in H.
Qed.

Lemma interpretBetterHand_needs_plus_witness :
  interpretBetterHand "8753" [3; 5; 7; 8] = false.
Proof. apply interpretBetterHand_needs_plus. vm_compute. discriminate. Defined.

(** ** The evaluators' results *)

Lemma evaluateUTGHand_action hand :
  UTG.correctAction (UTG.evaluateUTGHand hand)
  = if UTG.isPlayable (UTG.evaluateUTGHand hand) then "raise"%string else "fold"%string.
Proof.
  unfold UTG.evaluateUTGHand. cbv zeta.
  destruct (patEligible hand && _); [done|].
  destruct ((4 <=? _)%nat && _); [done|].
  match goal with
  | |- context [match ?d with Some four => UTG.mkEvaluation _ _ _ _ | None => _ end] =>
      destruct d
  end; [done|].
  match goal with |- context [if ?c || ?d then _ else _] => destruct (c || d) end.
  { by destruct (countAtLeast _ 2 2). }
  match goal with
  | |- context [match ?d with Some _ => _ | None => _ end] => destruct d as [[? ?]|]
  end; [done|].
  destruct (countAtLeast _ 2 2 && _); [done|].
  by destruct (countAtLeast _ 2 3 && _).
Qed.

Lemma evaluateHandForPosition_action fuel table hand pos e :
  evaluateHandForPosition fuel table hand pos = Returns e →
  correctAction e = if isPlayable e then "raise"%string else "fold"%string.
Proof.
  unfold evaluateHandForPosition.
  intros (r & _ & H)%bind_Returns. destruct r as [strategy|]; [|done].
  destruct (patEvaluation strategy hand pos) as [e0|] eqn:Hpat.
  { simplify_eq. unfold patEvaluation in Hpat.
    repeat (case_match; simplify_eq/=; try done). }
  apply bind_Returns in H as (d1 & Hd1 & H).
  destruct d1 as [e1|].
  - simplify_eq. unfold draw1Evaluation in Hd1.
    repeat (case_match; simplify_eq/=; try done);
      try (apply bind_Returns in Hd1 as (? & _ & ?); by simplify_eq/=).
  - unfold draw2Evaluation in H.
    repeat (case_match; simplify_eq/=; try done);
      try (apply bind_Returns in H as (? & _ & ?); by simplify_eq/=).
Qed.

(** X7: in both variants the recommended action is "raise" exactly when the
    hand is reported playable, and "fold" otherwise. *)
Theorem action_follows_playable (hand : list HandCard) :
  UTG.correctAction (UTG.evaluateUTGHand hand)
  = (if UTG.isPlayable (UTG.evaluateUTGHand hand) then "raise" else "fold")%string
  ∧ ∀ fuel table pos e,
      evaluateHandForPosition fuel table hand pos = Returns e →
      correctAction e = (if isPlayable e then "raise" else "fold")%string.
Proof.
  split; [apply evaluateUTGHand_action|].
  intros fuel table pos e. apply evaluateHandForPosition_action.
Qed.

(** ** What the multi-position evaluator reads of a strategy table *)

Lemma find_agree hand table table' pos :
  Forall2 (agreeFor hand) table table' →
  option_Forall2 (agreeFor hand)
    (List.find (λ s, bool_decide (position s = pos)) table)
    (List.find (λ s, bool_decide (position s = pos)) table').
Proof.
  induction 1 as [|e e' t t' He Ht IH]; simpl; [constructor|].
  destruct He as (Hp & Hrest). rewrite <- Hp.
  destruct (bool_decide (position e = pos)); [|done].
  constructor. by split.
Qed.

Lemma getFullStrategy_agree hand table table' :
  Forall2 (agreeFor hand) table table' →
  ∀ fuel pos,
    agreeOutcome hand (getFullStrategy fuel table pos) (getFullStrategy fuel table' pos).
Proof.
  intros Ht. induction fuel as [|fuel IH]; intros pos; simpl; [done|].
  destruct (find_agree hand table table' pos Ht) as [e e' (Hp & Hi & H1 & H2 & H3 & H4)|].
  - rewrite <- Hi. destruct (inheritsFrom e) as [parent|].
    + specialize (IH parent).
      destruct (getFullStrategy fuel table parent) as [[s|]| |],
        (getFullStrategy fuel table' parent) as [[s'|]| |]; simpl in *;
        try done; try by inversion IH.
      inversion IH as [? ? (Hp' & Hi' & H1' & H2' & H3' & H4')|]; simplify_eq.
      constructor. repeat split; simpl; try done; try congruence.
      by rewrite !draw1Excluded_app, H3, H3'.
    + simpl. constructor. repeat split; simpl; done.
  - simpl. destruct Ht; constructor. done.
Qed.

Lemma minimumRaiseText_agree hand s s' :
  agreeFor hand s s' → minimumRaiseText s = minimumRaiseText s'.
Proof.
  intros (_ & _ & H1 & H2 & _ & H4). unfold minimumRaiseText. by rewrite H1, H2, H4.
Qed.

Lemma evaluateHandForPosition_agree hand table table' fuel pos :
  Forall2 (agreeFor hand) table table' →
  evaluateHandForPosition fuel table hand pos
  = evaluateHandForPosition fuel table' hand pos.
Proof.
  intros Ht. pose proof (getFullStrategy_agree hand table table' Ht fuel pos) as Hres.
  unfold evaluateHandForPosition, getMinimumRaiseExample, draw1Evaluation,
    getMinimumRaiseExample.
  destruct (getFullStrategy fuel table pos) as [[s|]| |],
    (getFullStrategy fuel table' pos) as [[s'|]| |]; simpl in *;
    try done; try by inversion Hres.
  inversion Hres as [? ? Hs|]; simplify_eq.
  rewrite (minimumRaiseText_agree hand s s' Hs).
  destruct Hs as (_ & _ & H1 & H2 & H3 & H4).
  unfold patEvaluation, draw2Evaluation. rewrite H1, H2, H4.
  unfold draw1Excluded in H3.
  destruct (fourBestCards _) as [four|]; [|done].
  destruct (negb (isStraight four)); [|done].
  simpl in H3. by rewrite H3.
Qed.

(** X8: the evaluation reads, of every entry of the table, only the
    position, the parent, the pat includes, the Draw-1 range and the Draw-2
    includes: two tables that differ in pat excludes, Draw-2 excludes,
    Draw-3 or Draw-4 ranges give the same result for every hand, position and
    depth. *)
Theorem evaluation_ignores_unused_ranges (table table' : list PositionStrategy)
    (hand : list HandCard) (fuel : nat) (pos : LearningPosition) :
  Forall2 sameUsedRanges table table' →
  evaluateHandForPosition fuel table hand pos
  = evaluateHandForPosition fuel table' hand pos.
Proof.
  intros Ht. apply evaluateHandForPosition_agree.
  eapply Forall2_impl; [done|].
  intros e e' (? & ? & ? & Hd1 & ?). repeat split; try done; by rewrite Hd1.
Qed.

(** X9: Draw-1 excludes act on one draw only: for a hand whose four-card
    draw is not written "4567", two tables that differ in their Draw-1
    excludes (in any way) give the same result. *)
Theorem excludes_act_on_4567_only (table table' : list PositionStrategy)
    (hand : list HandCard) (fuel : nat) (pos : LearningPosition) :
  Forall2 sameIncludes table table' →
  (∀ four, fourBestCards (uniqueValues (handValues hand)) = Some four →
           joinNums "" four ≠ "4567"%string) →
  evaluateHandForPosition fuel table hand pos
  = evaluateHandForPosition fuel table' hand pos.
Proof.
  intros Ht Hnot. apply evaluateHandForPosition_agree.
  eapply Forall2_impl; [done|].
  assert (∀ excl, draw1Excluded excl hand = false) as Hex.
  { intros excl. unfold draw1Excluded.
    destruct (fourBestCards _) as [four|]; [|done].
    specialize (Hnot four eq_refl). apply String.eqb_neq in Hnot.
    by rewrite Hnot, !andb_false_r. }
  intros e e' (? & ? & ? & ? & ?). repeat split; try done. by rewrite !Hex.
Qed.

Lemma evaluation_ignores_unused_ranges_witness :
  evaluateHandForPosition 6 positionStrategies tensHand BTN
  = evaluateHandForPosition 6 strippedStrategies tensHand BTN.
Proof.
  apply (evaluation_ignores_unused_ranges positionStrategies strippedStrategies).
  unfold positionStrategies, strippedStrategies. simpl.
  repeat constructor.
Defined.

Lemma excludes_act_on_4567_only_witness :
  evaluateHandForPosition 6 positionStrategies wheelHand BB
  = evaluateHandForPosition 6 unexcludedStrategies wheelHand BB.
Proof.
  apply (excludes_act_on_4567_only positionStrategies unexcludedStrategies).
  - unfold positionStrategies, unexcludedStrategies. simpl. repeat constructor.
  - intros four H. vm_compute in H. injection H as <-. vm_compute. discriminate.
Defined.

(** X10: when the resolved Draw-1 includes list the word ["all"], every
    hand that has a four-card draw (four or five distinct values) and is not
    caught by the Draw-1 exclusion is playable. *)
Theorem all_in_draw1_plays (table : list PositionStrategy) (fuel : nat)
    (pos : LearningPosition) (strategy : PositionStrategy) (hand : list HandCard)
    (four : list Z) :
  getFullStrategy fuel table pos = Returns (Some strategy) →
  "all"%string ∈ includes (draw1Hands strategy) →
  fourBestCards (uniqueValues (handValues hand)) = Some four →
  draw1Excluded (excludes (draw1Hands strategy)) hand = false →
  ∃ e, evaluateHandForPosition fuel table hand pos = Returns e
       ∧ isPlayable e = true ∧ correctAction e = "raise"%string.
Proof.
  intros Hres Hall Hfour Hex.
  destruct (evaluateHandForPosition_playable _ _ hand _ _ Hres) as (e & He & Hp).
  exists e. split; [done|].
  assert (isPlayable e = true) as Hplay.
  { rewrite Hp. unfold playableUnder. rewrite Hex. simpl.
    unfold draw1Match. rewrite Hfour.
    rewrite (isStraight_short four) by (apply fourBestCards_length in Hfour; lia).
    simpl. rewrite find_existsb.
    destruct (find_is_some (λ pattern, String.eqb pattern "all"
                                       || interpretBetterHand pattern four)
                _ _ Hall eq_refl) as [p ->].
    simpl. by rewrite orb_true_r. }
  split; [done|].
  rewrite (evaluateHandForPosition_action _ _ _ _ _ He). by rewrite Hplay.
Qed.

Lemma all_in_draw1_plays_witness :
  ∃ e, evaluateHandForPosition 6 positionStrategies looseHand BTN = Returns e
       ∧ isPlayable e = true ∧ correctAction e = "raise"%string.
Proof.
  eapply (all_in_draw1_plays positionStrategies 6 BTN _ looseHand [5; 7; 8; 9]).
  - vm_compute. reflexivity.
  - simpl. set_solver.
  - reflexivity.
  - reflexivity.
Defined.

(** ** Blocker hands and weak draws in the single-position variant *)

Lemma copies_countAtLeast l k n :
  (n ≤ copies k l)%nat → (0 < n)%nat → countAtLeast (valueCounts l) k n = true.
Proof.
  intros Hn Hpos. unfold countAtLeast. rewrite valueCounts_lookup.
  case_decide; [lia|]. by apply Nat.leb_le.
Qed.

Lemma copies_elem_of v l : (0 < copies v l)%nat → v ∈ l.
Proof.
  unfold copies. intros Hc.
  destruct (filter (λ x, x = v) l) as [|x l'] eqn:Hf; [simpl in Hc; lia|].
  assert (x ∈ filter (λ x, x = v) l) as Hx by (rewrite Hf; left).
  by apply list_elem_of_filter in Hx as [-> ?].
Qed.

(** The text of a list of numbers that starts with a number below 3 does
    not start with the digit 4. *)
Lemma toString_low_head a l s :
  a ≤ 2 → toString (a :: l) ≠ String "4" s.
Proof.
  intros Ha. unfold toString, joinNums. simpl.
  assert (∃ c t, show a = String c t ∧ c ≠ "4"%char) as (c & t & -> & Hc).
  { destruct a as [|p|p].
    - by exists "0"%char, ""%string.
    - assert (p = 1 ∨ p = 2)%positive as [-> | ->] by lia.
      + by exists "1"%char, ""%string.
      + by exists "2"%char, ""%string.
    - exists "-"%char, (pretty (Npos p)). done. }
  destruct (map show l); cbn; intros [= ? _]; done.
Qed.

(** A hand that holds a 2 is not a trap hand. *)
Lemma deuce_not_trap values :
  2 ∈ values →
  (4 <=? length (uniqueValues values))%nat
  && String.eqb (toString (slice 0 4 (uniqueValues values))) "4,5,6,7" = false.
Proof.
  intros H2.
  destruct ((4 <=? length (uniqueValues values))%nat) eqn:Hlen; [|done]. simpl.
  apply String.eqb_neq. apply Nat.leb_le in Hlen.
  pose proof (uniqueValues_sorted values) as Hs.
  apply elem_of_uniqueValues in H2.
  destruct (uniqueValues values) as [|a rest] eqn:HU; [simpl in Hlen; lia|].
  unfold slice. simpl. apply toString_low_head.
  apply (Sorted_StronglySorted Z.lt), StronglySorted_inv in Hs as [_ Hall].
  rewrite Forall_forall in Hall.
  apply elem_of_cons in H2 as [->|H2%Hall]; lia.
Qed.

(** X11: in the single-position variant a hand that holds two 2s and two
    3s, or three 2s and a 3, a 4 or a 7, is always raised (by the pair-blocker
    rules, unless an earlier rule already raises it); no rule folds it
    first. *)
Theorem blocker_hands_are_raised (hand : list HandCard) :
  ((2 ≤ copies 2 (handValues hand))%nat ∧ (2 ≤ copies 3 (handValues hand))%nat)
  ∨ ((3 ≤ copies 2 (handValues hand))%nat
     ∧ (3 ∈ handValues hand ∨ 4 ∈ handValues hand ∨ 7 ∈ handValues hand)) →
  UTG.isPlayable (UTG.evaluateUTGHand hand) = true
  ∧ UTG.correctAction (UTG.evaluateUTGHand hand) = "raise"%string.
Proof.
  intros Hshape.
  assert (UTG.isPlayable (UTG.evaluateUTGHand hand) = true) as Hplay.
  { assert (2 ≤ copies 2 (handValues hand))%nat as Htwo by (destruct Hshape; lia).
    pose proof (copies_countAtLeast _ 2 2 Htwo ltac:(lia)) as Hc2.
    assert (2 ∈ handValues hand) as Hin by (apply copies_elem_of; lia).
    unfold UTG.evaluateUTGHand. cbv zeta.
    destruct (patEligible hand && _); [done|].
    rewrite (deuce_not_trap _ Hin), Hc2.
    match goal with
    | |- context [match ?d with Some four => UTG.mkEvaluation _ _ _ _ | None => _ end] =>
        destruct d
    end; [done|].
    match goal with |- context [if ?c || ?d then _ else _] => destruct (c || d) end;
      [done|].
    match goal with
    | |- context [match ?d with Some _ => _ | None => _ end] => destruct d as [[? ?]|]
    end; [done|].
    destruct Hshape as [[_ H3]|[H2 Hk]].
    - by rewrite (copies_countAtLeast _ 3 2 H3 ltac:(lia)).
    - destruct (countAtLeast _ 3 2); [done|]. simpl.
      rewrite (copies_countAtLeast _ 2 3 H2 ltac:(lia)).
      assert (bool_decide (3 ∈ handValues hand) || bool_decide (4 ∈ handValues hand)
              || bool_decide (7 ∈ handValues hand) = true) as ->; [|done].
      destruct Hk as [Hk|[Hk|Hk]]; apply (bool_decide_eq_true_2 _) in Hk; rewrite Hk;
        by rewrite ?orb_true_r. }
  split; [done|]. by rewrite evaluateUTGHand_action, Hplay.
Qed.

Lemma blocker_hands_are_raised_witness :
  UTG.isPlayable (UTG.evaluateUTGHand threeDeucesHand) = true
  ∧ UTG.correctAction (UTG.evaluateUTGHand threeDeucesHand) = "raise"%string.
Proof.
  apply (blocker_hands_are_raised threeDeucesHand).
  right. split; [vm_compute; lia|]. right. right. vm_compute. set_solver.
Defined.

Lemma Math_max_gt (N : Z) (xs : list Z) v :
  v ∈ xs → N < v → js_gtb (Math_max xs) (Num N) = true.
Proof.
  intros Hv Hlt. destruct xs as [|x xs]; [by apply elem_of_nil in Hv|].
  unfold js_gtb. simpl. apply Z.ltb_lt.
  destruct (Z.le_gt_cases (foldl Z.max x xs) N) as [Hle|?]; [|lia].
  apply foldl_max_le in Hle as [Hx Hall]. rewrite Forall_forall in Hall.
  apply elem_of_cons in Hv as [->|Hv%Hall]; lia.
Qed.

(** X12: in the single-position variant a hand of five distinct values
    that holds 6-3-2 or 7-6-2, has a card above 8 and fails the Draw-1
    benchmark is folded as a "Weak Draw 2"; the general Draw-2 benchmarks are
    not consulted for it. *)
Theorem weak_draw2_is_folded (hand : list HandCard) (v : Z) :
  length hand = 5%nat →
  length (uniqueValues (handValues hand)) = 5%nat →
  2 ∈ handValues hand → 6 ∈ handValues hand →
  3 ∈ handValues hand ∨ 7 ∈ handValues hand →
  v ∈ handValues hand → 8 < v →
  js_leb (compareLowballHands (take 4 (uniqueValues (handValues hand))) [8; 6; 5; 4])
         (Num 0) = false →
  UTG.isPlayable (UTG.evaluateUTGHand hand) = false
  ∧ UTG.correctAction (UTG.evaluateUTGHand hand) = "fold"%string
  ∧ UTG.category (UTG.evaluateUTGHand hand) = "Weak Draw 2"%string.
Proof.
  intros Hlen Hfive H2 H6 H37 Hv Hhigh Hd1.
  pose proof (handValues_length hand) as Hvl. rewrite Hlen in Hvl.
  pose proof (handValues_sorted hand) as Hsorted.
  assert (NoDup (handValues hand)) as Hnd.
  { apply set_of_length_NoDup. unfold uniqueValues in Hfive.
    rewrite sort_asc_length in Hfive. by rewrite Hfive. }
  assert (match handValues hand !! 4%nat with
          | Some highCard => highCard <=? 8 | None => false end = false) as Hhc.
  { destruct (handValues hand) as [|a [|b [|c [|d [|e [|? ?]]]]]]; simplify_eq/=.
    apply (Sorted_StronglySorted Z.le) in Hsorted.
    repeat match goal with
           | H : StronglySorted _ (_ :: _) |- _ => apply StronglySorted_inv in H as [? ?]
           | H : Forall _ (_ :: _) |- _ => apply Forall_cons in H as [? ?]
           end.
    repeat (apply elem_of_cons in Hv as [->|Hv]); try lia.
    by apply elem_of_nil in Hv. }
  assert (countAtLeast (valueCounts (handValues hand)) 2 2 = false) as Hc2.
  { destruct (countAtLeast _ 2 2) eqn:Hc; [|done].
    apply countAtLeast_copies in Hc; [|lia].
    pose proof (copies_NoDup 2 _ Hnd). lia. }
  assert (UTG.evaluateUTGHand hand
          = UTG.mkEvaluation false "fold" "Weak Draw 2"
              ("A hand like " +:+ (if bool_decide (3 ∈ handValues hand) then "632" else "762")
               +:+ " without a pair of 2s is too weak to play from UTG.")%string) as ->;
    [|done].
  unfold UTG.evaluateUTGHand. cbv zeta.
  rewrite Hhc, andb_false_r, (deuce_not_trap _ H2), Hc2.
  assert (fourBestCards (uniqueValues (handValues hand))
          = Some (take 4 (uniqueValues (handValues hand)))) as ->.
  { unfold fourBestCards. by rewrite Hfive. }
  cbv beta iota. rewrite Hd1, andb_false_r. cbv beta iota.
  rewrite Hfive, (Math_max_gt 8 _ v Hv Hhigh).
  rewrite (bool_decide_eq_true_2 _ H2), (bool_decide_eq_true_2 _ H6).
  replace (bool_decide (5%nat = 5%nat)) with true by reflexivity.
  rewrite !andb_true_r, !andb_true_l.
  destruct H37 as [H3|H7].
  - rewrite (bool_decide_eq_true_2 _ H3). done.
  - rewrite (bool_decide_eq_true_2 _ H7), orb_true_r. done.
Qed.

Lemma weak_draw2_is_folded_witness :
  UTG.isPlayable (UTG.evaluateUTGHand weakDrawHand) = false
  ∧ UTG.correctAction (UTG.evaluateUTGHand weakDrawHand) = "fold"%string
  ∧ UTG.category (UTG.evaluateUTGHand weakDrawHand) = "Weak Draw 2"%string.
Proof.
  apply (weak_draw2_is_folded weakDrawHand 10);
    try reflexivity; try lia; try (vm_compute; set_solver).
Defined.

(** ** The built-in table, position by position *)

Lemma existsb_inert {A} (f : A → bool) l extra :
  (∀ x, x ∈ extra → f x = false) → existsb f (l ++ extra) = existsb f l.
Proof.
  intros H. rewrite existsb_app.
  assert (existsb f extra = false) as ->; [|by rewrite orb_false_r].
  induction extra as [|x extra IH]; [done|]. simpl.
  rewrite (H x) by left. apply IH. intros y Hy. apply H. by right.
Qed.

(** Extending the includes of a strategy by patterns that the interpreter
    does not know, none of which is the word ["all"] or the text of the
    hand's four-card draw, changes nothing. *)
Lemma playableUnder_inert s s' hand extraPat extraD1 extraD2 :
  includes (patHands s') = includes (patHands s) ++ extraPat →
  includes (draw1Hands s') = includes (draw1Hands s) ++ extraD1 →
  includes (draw2Hands s') = includes (draw2Hands s) ++ extraD2 →
  excludes (draw1Hands s') = excludes (draw1Hands s) →
  (∀ p, p ∈ extraPat ++ extraD1 ++ extraD2 → last (chars p) ≠ Some "+"%char) →
  (∀ p, p ∈ extraD1 → p ≠ "all"%string) →
  (∀ four, fourBestCards (uniqueValues (handValues hand)) = Some four →
           joinNums "" four ∉ extraD1) →
  playableUnder s' hand = playableUnder s hand.
Proof.
  intros Hp H1 H2 Hex Hinert Hall Hlit.
  unfold playableUnder, patMatch, draw1Match, draw2Match.
  rewrite Hp, H1, H2, Hex.
  rewrite existsb_inert; last first.
  { intros p Hin. apply interpretBetterHand_needs_plus, Hinert. set_solver. }
  f_equal. f_equal. f_equal.
  - destruct (fourBestCards _) as [four|] eqn:Hfour; [|done]. f_equal.
    rewrite existsb_inert; last first.
    { intros p Hin. rewrite interpretBetterHand_needs_plus by (apply Hinert; set_solver).
      rewrite orb_false_r. apply String.eqb_neq. by apply Hall. }
    f_equal. rewrite includesStr_app.
    assert (includesStr extraD1 (joinNums "" four) = false) as ->;
      [|by rewrite orb_false_r].
    apply bool_decide_eq_false_2. by apply Hlit.
  - f_equal. destruct (threeCardDraws _) as [|best ?]; [done|].
    apply existsb_inert. intros p Hin.
    apply interpretBetterHand_needs_plus, Hinert. set_solver.
Qed.

(** The text of an ascending draw of card values does not start with
    "87". *)
Lemma ascending_draw_text four s :
  Sorted Z.lt four → Forall (λ v, 2 ≤ v ≤ 14) four →
  joinNums "" four ≠ String "8" (String "7" s).
Proof.
  intros Hs Hb. unfold joinNums.
  destruct four as [|a [|b rest]]; [done| |].
  - apply Forall_cons in Hb as [Ha _]. simpl.
    assert (a = 2 ∨ a = 3 ∨ a = 4 ∨ a = 5 ∨ a = 6 ∨ a = 7 ∨ a = 8 ∨ a = 9 ∨ a = 10
            ∨ a = 11 ∨ a = 12 ∨ a = 13 ∨ a = 14) as Hcases by lia.
    repeat (destruct Hcases as [->|Hcases]; [by vm_compute|]). subst. by vm_compute.
  - apply Forall_cons in Hb as [Ha Hb]. apply Forall_cons in Hb as [Hb _].
    apply Sorted_inv in Hs as [_ Hab]. apply HdRel_inv in Hab.
    assert (a = 8 ∨ a ≠ 8) as [->|Hne] by lia.
    + assert (b = 9 ∨ b = 10 ∨ b = 11 ∨ b = 12 ∨ b = 13 ∨ b = 14) as Hcases by lia.
      change (map show (8 :: b :: rest)) with ("8"%string :: show b :: map show rest).
      repeat (destruct Hcases as [->|Hcases];
              [destruct (map show rest); cbn; intros [=]|]).
      subst. destruct (map show rest); cbn; intros [=].
    + assert (a = 2 ∨ a = 3 ∨ a = 4 ∨ a = 5 ∨ a = 6 ∨ a = 7 ∨ a = 9 ∨ a = 10
              ∨ a = 11 ∨ a = 12 ∨ a = 13 ∨ a = 14) as Hcases by lia.
      simpl map.
      repeat (destruct Hcases as [->|Hcases]; [cbn; intros [=]|]).
      subst. cbn. intros [=].
Qed.

Lemma fourBestCards_ascending hand four :
  Forall (λ c, 2 ≤ value c ≤ 14) hand →
  fourBestCards (uniqueValues (handValues hand)) = Some four →
  Sorted Z.lt four ∧ Forall (λ v, 2 ≤ v ≤ 14) four.
Proof.
  intros Hb Hfour.
  assert (Sorted Z.lt four ∧ ∀ v, v ∈ four → v ∈ uniqueValues (handValues hand))
    as [Hs Hsub].
  { pose proof (uniqueValues_sorted (handValues hand)) as Hs.
    unfold fourBestCards, slice in Hfour.
    repeat case_bool_decide; simplify_eq; [done|].
    split.
    - apply (Sorted_StronglySorted Z.lt) in Hs. apply StronglySorted_Sorted.
      rewrite <- (take_drop 4 (uniqueValues (handValues hand))) in Hs.
      by apply StronglySorted_app_1_l in Hs.
    - intros v. simpl. rewrite drop_0. intros (i & Hi & _)%elem_of_take.
      by eapply list_elem_of_lookup_2. }
  split; [done|]. apply Forall_forall. intros v Hv%Hsub.
  apply (proj1 (elem_of_uniqueValues v (handValues hand))) in Hv.
  unfold handValues in Hv. rewrite sort_asc_perm in Hv. apply list_elem_of_fmap in Hv as (c & -> & Hc).
  rewrite Forall_forall in Hb. by apply Hb.
Qed.

(** X13: under the built-in table the six positions play only two ranges.
    For every hand of cards valued 2 to 14, HJ and CO report a hand playable
    exactly when UTG does, and SB and BB exactly when BTN does: everything
    that the HJ, CO, SB and BB entries add is written in a form that the
    evaluator never matches. *)
Theorem builtin_positions_collapse (hand : list HandCard) (fuel : nat) :
  (6 ≤ fuel)%nat →
  Forall (λ c, 2 ≤ value c ≤ 14) hand →
  ∃ eUTG eHJ eCO eBTN eSB eBB,
    evaluateHandForPosition fuel positionStrategies hand UTG = Returns eUTG
    ∧ evaluateHandForPosition fuel positionStrategies hand HJ = Returns eHJ
    ∧ evaluateHandForPosition fuel positionStrategies hand CO = Returns eCO
    ∧ evaluateHandForPosition fuel positionStrategies hand BTN = Returns eBTN
    ∧ evaluateHandForPosition fuel positionStrategies hand SB = Returns eSB
    ∧ evaluateHandForPosition fuel positionStrategies hand BB = Returns eBB
    ∧ isPlayable eHJ = isPlayable eUTG ∧ isPlayable eCO = isPlayable eUTG
    ∧ isPlayable eSB = isPlayable eBTN ∧ isPlayable eBB = isPlayable eBTN.
Proof.
  intros Hfuel Hb.
  assert (∀ pos, ∃ s, getFullStrategy 6 positionStrategies pos = Returns (Some s))
    as Hres by (intros []; eexists; vm_compute; reflexivity).
  assert (∀ pos s, getFullStrategy 6 positionStrategies pos = Returns (Some s) →
                   ∃ e, evaluateHandForPosition fuel positionStrategies hand pos = Returns e
                        ∧ isPlayable e = playableUnder s hand) as Heval.
  { intros pos s Hs. apply evaluateHandForPosition_playable.
    by apply (getFullStrategy_mono 6). }
  destruct (Hres UTG) as [sU HU], (Hres HJ) as [sH HH], (Hres CO) as [sC HC],
    (Hres BTN) as [sB HB], (Hres SB) as [sS HS], (Hres BB) as [sBB HBB].
  destruct (Heval _ _ HU) as (eU & -> & HpU), (Heval _ _ HH) as (eH & -> & HpH),
    (Heval _ _ HC) as (eC & -> & HpC), (Heval _ _ HB) as (eB & -> & HpB),
    (Heval _ _ HS) as (eS & -> & HpS), (Heval _ _ HBB) as (eBB & -> & HpBB).
  exists eU, eH, eC, eB, eS, eBB. repeat (split; [done|]).
  rewrite HpU, HpH, HpC, HpB, HpS, HpBB.
  vm_compute in HU, HH, HC, HB, HS, HBB. simplify_eq.
  assert (∀ four, fourBestCards (uniqueValues (handValues hand)) = Some four →
                  joinNums "" four ∉ ["8753"; "8754"]%string) as Hlit.
  { intros four Hfour. destruct (fourBestCards_ascending hand four Hb Hfour) as [Hs Hv].
    intros Hin. repeat (apply elem_of_cons in Hin as [Hin|Hin]);
      try (by apply ascending_draw_text in Hin). by apply elem_of_nil in Hin. }
  split; [|split; [|split]].
  - eapply (playableUnder_inert _ _ hand [] ["8753"; "8754"]%string
              ["762"; "852"; "753"; "6322"; "8722"]%string); try reflexivity; try done.
    + intros p Hin. repeat (apply elem_of_cons in Hin as [->|Hin]); try by vm_compute.
      by apply elem_of_nil in Hin.
    + intros p Hin. repeat (apply elem_of_cons in Hin as [->|Hin]); try done.
      by apply elem_of_nil in Hin.
  - eapply (playableUnder_inert _ _ hand ["96543"; "97654"]%string
              ["8753"; "8754"]%string
              ["762"; "852"; "753"; "6322"; "8722"; "632"; "754"; "854"; "872"]%string);
      try reflexivity; try done.
    + intros p Hin. repeat (apply elem_of_cons in Hin as [->|Hin]); try by vm_compute.
      by apply elem_of_nil in Hin.
    + intros p Hin. repeat (apply elem_of_cons in Hin as [->|Hin]); try done.
      by apply elem_of_nil in Hin.
  - eapply (playableUnder_inert _ _ hand [] [] ["limp/raise strategy"]%string);
      try reflexivity; try done.
    + intros p Hin. repeat (apply elem_of_cons in Hin as [->|Hin]); try by vm_compute.
      by apply elem_of_nil in Hin.
    + intros p Hin. by apply elem_of_nil in Hin.
    + intros four _ Hin. by apply elem_of_nil in Hin.
  - eapply (playableUnder_inert _ _ hand [] []
              ["limp/raise strategy"; "vs SB limp: any d2"]%string);
      try reflexivity; try done.
    + intros p Hin. repeat (apply elem_of_cons in Hin as [->|Hin]); try by vm_compute.
      by apply elem_of_nil in Hin.
    + intros p Hin. by apply elem_of_nil in Hin.
    + intros four _ Hin. by apply elem_of_nil in Hin.
Qed.

Lemma builtin_positions_collapse_witness :
  ∃ eUTG eHJ eCO eBTN eSB eBB,
    evaluateHandForPosition 6 positionStrategies looseHand UTG = Returns eUTG
    ∧ evaluateHandForPosition 6 positionStrategies looseHand HJ = Returns eHJ
    ∧ evaluateHandForPosition 6 positionStrategies looseHand CO = Returns eCO
    ∧ evaluateHandForPosition 6 positionStrategies looseHand BTN = Returns eBTN
    ∧ evaluateHandForPosition 6 positionStrategies looseHand SB = Returns eSB
    ∧ evaluateHandForPosition 6 positionStrategies looseHand BB = Returns eBB
    ∧ isPlayable eHJ = isPlayable eUTG ∧ isPlayable eCO = isPlayable eUTG
    ∧ isPlayable eSB = isPlayable eBTN ∧ isPlayable eBB = isPlayable eBTN.
Proof.
  apply (builtin_positions_collapse looseHand 6); [lia|].
  unfold looseHand. repeat constructor; simpl; lia.
Defined.

(** ** Dealt hands *)

Lemma getValue_ranks rank :
  rank ∈ ranks13 → ∃ z, getValue rank = Num z ∧ 2 ≤ z ≤ 14.
Proof.
  unfold ranks13. intros Hin.
  repeat (apply elem_of_cons in Hin as [->|Hin]);
    try (eexists; split; [vm_compute; reflexivity|lia]).
  by apply elem_of_nil in Hin.
Qed.

(** ** The single-position trainer *)

Arguments UTG.evaluateUTGHand : simpl never.

Lemma foldl_invariant {A B} (P : A → Prop) (f : A → B → A) (l : list B) (a : A) :
  P a → (∀ a b, P a → P (f a b)) → P (foldl f a l).
Proof.
  intros Ha Hf. revert a Ha. induction l as [|b l IH]; intros a Ha; [done|].
  simpl. apply IH. by apply Hf.
Qed.

Lemma step_countersOk s ev :
  countersOk (UTGApp.gameState s) → countersOk (UTGApp.gameState (UTGApp.step s ev)).
Proof.
  destruct s as [g cards]. unfold countersOk. simpl. intros (H0 & H1 & H2 & H3).
  destruct ev as [action now suffix|newHand| |newHand|]; simpl.
  - unfold UTGApp.handlePlayerAction.
    destruct (bool_decide (action = _)), (bool_decide (_ = UTGApp.learning)),
      (bool_decide (_ = UTGApp.drill)); simpl; rewrite ?length_app; simpl; lia.
  - unfold UTGApp.nextHand, UTGApp.nextDrillHand, UTGApp.loadDrillHand.
    repeat case_match; simpl; lia.
  - unfold UTGApp.startDrillMode, UTGApp.loadDrillHand.
    repeat case_match; simpl; lia.
  - lia.
  - lia.
Qed.

(** X14: whatever the user does, the score never exceeds the number of
    answers: at every moment [correct] plus the number of recorded mistakes
    is at most [total], and the review score is at most the number of
    reviewed hands. *)
Theorem counters_add_up (firstHand : list HandCard) (events : list UTGApp.Event) :
  countersOk (UTGApp.gameState (UTGApp.run firstHand events)).
Proof.
  unfold UTGApp.run. apply (foldl_invariant (λ s, countersOk (UTGApp.gameState s))).
  - unfold countersOk. simpl. lia.
  - intros s ev. apply step_countersOk.
Qed.

Lemma step_genuine s ev :
  answerOfHand (UTGApp.gameState s) ∧ Forall genuine (UTGApp.mistakes (UTGApp.gameState s)) →
  answerOfHand (UTGApp.gameState (UTGApp.step s ev))
  ∧ Forall genuine (UTGApp.mistakes (UTGApp.gameState (UTGApp.step s ev))).
Proof.
  destruct s as [g cards]. unfold answerOfHand. simpl. intros [[Ha Hp] Hm].
  destruct ev as [action now suffix|newHand| |newHand|]; simpl.
  - unfold UTGApp.handlePlayerAction.
    destruct (negb _ && _) eqn:Hbranch; [|by repeat case_match].
    simpl. split; [done|]. apply Forall_app. split; [done|].
    apply Forall_singleton. split; simpl; [|done].
    apply andb_true_iff in Hbranch as [Hneq _].
    apply negb_true_iff in Hneq. by apply bool_decide_eq_false in Hneq.
  - unfold UTGApp.nextHand, UTGApp.nextDrillHand, UTGApp.loadDrillHand.
    repeat case_match; simpl; done.
  - unfold UTGApp.startDrillMode, UTGApp.loadDrillHand.
    repeat case_match; simpl; done.
  - done.
  - split; [done|constructor].
Qed.

(** X15: at every moment the action shown as correct is the evaluator's
    answer for the hand shown, and every record on the mistake list is a
    real mistake: the recorded answer differs from the recorded correct
    action, which is the evaluator's answer for the recorded hand. *)
Theorem mistakes_are_genuine (firstHand : list HandCard) (events : list UTGApp.Event) :
  answerOfHand (UTGApp.gameState (UTGApp.run firstHand events))
  ∧ Forall genuine (UTGApp.mistakes (UTGApp.gameState (UTGApp.run firstHand events))).
Proof.
  unfold UTGApp.run.
  apply (foldl_invariant
           (λ s, answerOfHand (UTGApp.gameState s)
                 ∧ Forall genuine (UTGApp.mistakes (UTGApp.gameState s)))).
  - split; [done|constructor].
  - intros s ev. apply step_genuine.
Qed.

Lemma startDrill_enters s m ms :
  UTGApp.mistakes (UTGApp.gameState s) = m :: ms →
  inDrill (m :: ms) 0 (UTGApp.score (UTGApp.gameState s)) 0
          (UTGApp.step s UTGApp.StartDrill).
Proof.
  destruct s as [g cards]. simpl. intros Hms.
  unfold UTGApp.startDrillMode, UTGApp.loadDrillHand. rewrite Hms. simpl.
  exists m. by repeat split.
Qed.

Lemma drill_act ms k sc reviewed s action now suffix :
  inDrill ms k sc reviewed s →
  inDrill ms k sc (reviewed + 1) (UTGApp.step s (UTGApp.Act action now suffix)).
Proof.
  destruct s as [g cards]. unfold inDrill. simpl.
  intros (m & Hm & Hph & Hact & Hidx & Hms & Hpool & Hhand & Hcards & Hans & Hsc & Hrev).
  exists m. unfold UTGApp.handlePlayerAction. rewrite Hph.
  replace (bool_decide (UTGApp.drill = UTGApp.learning)) with false by done.
  rewrite andb_false_r. simpl. repeat split; try done. by rewrite Hrev.
Qed.

Lemma drill_next ms k sc reviewed s newHand :
  inDrill ms k sc reviewed s → (S k < length ms)%nat →
  inDrill ms (S k) sc reviewed (UTGApp.step s (UTGApp.Next newHand)).
Proof.
  destruct s as [g cards]. unfold inDrill. simpl.
  intros (m & Hm & Hph & Hact & Hidx & Hms & Hpool & Hhand & Hcards & Hans & Hsc & Hrev) Hlt.
  destruct (lookup_lt_is_Some_2 ms (S k) Hlt) as [m' Hm'].
  exists m'. unfold UTGApp.nextHand, UTGApp.nextDrillHand, UTGApp.loadDrillHand.
  rewrite Hph, Hidx, Hms. simpl.
  replace (k + 1)%nat with (S k) by lia.
  replace (S k <? length ms)%nat with true by (symmetry; by apply Nat.ltb_lt).
  rewrite Hm'. simpl. by repeat split.
Qed.

Lemma drill_last ms k sc reviewed s newHand :
  inDrill ms k sc reviewed s → ¬ (S k < length ms)%nat →
  backToLearning ms newHand (UTGApp.step s (UTGApp.Next newHand)).
Proof.
  destruct s as [g cards]. unfold inDrill, backToLearning. simpl.
  intros (m & Hm & Hph & Hact & Hidx & Hms & Hpool & Hhand & Hcards & Hans & Hsc & Hrev) Hlt.
  unfold UTGApp.nextHand, UTGApp.nextDrillHand.
  rewrite Hph, Hidx, Hms. simpl.
  replace (k + 1)%nat with (S k) by lia.
  replace (S k <? length ms)%nat with false by (symmetry; by apply Nat.ltb_ge; lia).
  simpl. by repeat split.
Qed.

(** X16: a drill walks the mistake list in order.  Starting a drill with
    no mistakes changes nothing.  Otherwise, after the drill is started and
    any sequence of answers and [k] presses of "next" (with [k] below the
    number of mistakes), the trainer shows mistake number [k] as recorded,
    with the evaluator's answer for it; the mistake list and the learning
    score are untouched and the review count is the number of answers given.
    The next "next" shows mistake [k + 1], or after the last mistake leaves
    the drill for a fresh hand. *)
Theorem drill_walks_the_mistakes (s : UTGApp.AppState) (events : list UTGApp.Event) :
  let ms := UTGApp.mistakes (UTGApp.gameState s) in
  let k := length (List.filter isNext events) in
  let s' := foldl UTGApp.step (UTGApp.step s UTGApp.StartDrill) events in
  (ms = [] → UTGApp.step s UTGApp.StartDrill = s)
  ∧ (Forall (λ ev, isAct ev || isNext ev = true) events →
     (k < length ms)%nat →
     inDrill ms k (UTGApp.score (UTGApp.gameState s))
             (Z.of_nat (length (List.filter isAct events))) s'
     ∧ ∀ newHand,
         if decide (S k < length ms)%nat
         then inDrill ms (S k) (UTGApp.score (UTGApp.gameState s))
                      (Z.of_nat (length (List.filter isAct events)))
                      (UTGApp.step s' (UTGApp.Next newHand))
         else backToLearning ms newHand (UTGApp.step s' (UTGApp.Next newHand))).
Proof.
  cbv zeta. split.
  - destruct s as [g cards]. simpl. unfold UTGApp.startDrillMode. by intros ->.
  - intros Hev Hk.
    assert (inDrill (UTGApp.mistakes (UTGApp.gameState s))
              (length (List.filter isNext events)) (UTGApp.score (UTGApp.gameState s))
              (Z.of_nat (length (List.filter isAct events)))
              (foldl UTGApp.step (UTGApp.step s UTGApp.StartDrill) events)) as Hin.
    { revert Hev Hk. induction events as [|ev events IH] using rev_ind; intros Hev Hk.
      - simpl. destruct (UTGApp.mistakes (UTGApp.gameState s)) as [|m ms] eqn:Hms;
          [simpl in Hk; lia|].
        by apply startDrill_enters.
      - apply Forall_app in Hev as [Hev Hlast]. apply Forall_cons in Hlast as [Hlast _].
        rewrite foldl_snoc, !List.filter_app, !length_app in *.
        destruct ev; simpl in *; try done.
        + replace (length (List.filter isNext events) + 0)%nat
            with (length (List.filter isNext events)) in * by lia.
          replace (Z.of_nat (length (List.filter isAct events) + 1))
            with (Z.of_nat (length (List.filter isAct events)) + 1) by lia.
          apply drill_act, IH; [done|lia].
        + replace (length (List.filter isAct events) + 0)%nat
            with (length (List.filter isAct events)) by lia.
          replace (length (List.filter isNext events) + 1)%nat
            with (S (length (List.filter isNext events))) in * by lia.
          apply drill_next; [apply IH; [done|lia]|done]. }
    split; [done|]. intros newHand. case_decide.
    + by apply drill_next.
    + by eapply drill_last.
Qed.

Lemma drill_walks_the_mistakes_witness :
  inDrill (UTGApp.mistakes (UTGApp.gameState twoMistakes))
    (length (List.filter isNext drillEvents))
    (UTGApp.score (UTGApp.gameState twoMistakes))
    (Z.of_nat (length (List.filter isAct drillEvents)))
    (foldl UTGApp.step (UTGApp.step twoMistakes UTGApp.StartDrill) drillEvents).
Proof.
  refine (proj1 (proj2 (drill_walks_the_mistakes twoMistakes drillEvents) _ _)).
  - unfold drillEvents. repeat constructor.
  - vm_compute. lia.
Defined.

(** ** Dealt hands, continued *)

Lemma getValue_dealt ranks rank suit :
  ranks ⊆ ranks13 → rank ∈ ranks → suit ∈ suits →
  dealtCard ranks (makeCard rank suit).
Proof.
  intros Hsub Hr Hs. destruct (getValue_ranks rank (Hsub _ Hr)) as (z & Hz & Hb).
  unfold dealtCard, makeCard. simpl. rewrite Hz. simpl. done.
Qed.

Lemma dealLoop_spec ranks draws : ∀ hand usedCards result,
  ranks ⊆ ranks13 →
  (∀ key, key ∈ usedCards ↔ key ∈ map display hand) →
  NoDup (map display hand) → Forall (dealtCard ranks) hand →
  (length hand ≤ 5)%nat →
  dealLoop ranks draws hand usedCards = Some result →
  length result = 5%nat ∧ NoDup (map display result)
  ∧ Forall (dealtCard ranks) result.
Proof.
  induction draws as [|[i j] draws IH]; intros hand used result Hsub Hused Hnd Hwf Hlen;
    simpl.
  - destruct (length hand <? 5)%nat eqn:Hlt; [done|].
    apply Nat.ltb_ge in Hlt. intros [= <-]. repeat split; [lia|done|done].
  - destruct (length hand <? 5)%nat eqn:Hlt.
    + apply Nat.ltb_lt in Hlt.
      destruct (ranks !! i) as [rank|] eqn:Hr; [|done].
      destruct (suits !! j) as [suit|] eqn:Hs; [|done].
      apply list_elem_of_lookup_2 in Hr, Hs.
      case_decide as Hkey.
      * by apply IH.
      * apply IH; try done.
        -- intros key. rewrite map_app, elem_of_app, elem_of_union, elem_of_singleton.
           simpl. rewrite list_elem_of_singleton, Hused. tauto.
        -- rewrite map_app. apply NoDup_app. split; [done|]. split.
           ++ intros key Hin. simpl. rewrite list_elem_of_singleton. intros ->.
              by apply Hkey, Hused.
           ++ simpl. apply NoDup_singleton.
        -- apply Forall_app. split; [done|]. apply Forall_singleton.
           by apply getValue_dealt.
        -- rewrite length_app. simpl. lia.
    + apply Nat.ltb_ge in Hlt. intros [= <-]. repeat split; [lia|done|done].
Qed.

Lemma sortHand_perm hand : sortHand hand ≡ₚ hand.
Proof. apply sort_by_perm. Qed.

Lemma sortHand_sorted hand : Sorted highToLow (sortHand hand).
Proof.
  eapply Sorted_mono; [|apply (sort_by_sorted (λ a b : HandCard, value b - value a))].
  - intros x y H. unfold highToLow. simpl in H. lia.
  - intros x y. simpl. lia.
Qed.

(** X17: every hand that [generateRandomHand] returns, from either deck,
    has exactly five cards, no two with the same rank and suit (nor the same
    display text); each card's rank and suit are of the deck, its display is
    rank followed by suit and its value is [getValue] of its rank, between 2
    and 14; and the cards are in order of value, highest first. *)
Theorem generateRandomHand_well_formed (ranks : list string)
    (draws : list (nat * nat)) (hand : list HandCard) :
  ranks ⊆ ranks13 →
  generateRandomHand ranks draws = Some hand →
  length hand = 5%nat
  ∧ NoDup (map display hand)
  ∧ NoDup (map (λ c, (rank c, suit c)) hand)
  ∧ Forall (dealtCard ranks) hand
  ∧ Sorted highToLow hand.
Proof.
  intros Hsub. unfold generateRandomHand.
  destruct (dealLoop ranks draws [] ∅) as [dealt|] eqn:Hdeal; [|done].
  intros [= <-].
  apply dealLoop_spec in Hdeal as (Hlen & Hnd & Hwf); try done; first last.
  { simpl. lia. }
  { constructor. }
  { intros key. simpl. rewrite elem_of_nil. set_solver. }
  assert (NoDup (map display (sortHand dealt))) as Hnd'
    by by rewrite sortHand_perm.
  assert (Forall (dealtCard ranks) (sortHand dealt)) as Hwf'
    by by rewrite sortHand_perm.
  split; [by rewrite sortHand_perm|]. split; [done|]. split; [|split; [done|]].
  - apply (NoDup_fmap_1 (λ p : string * string, p.1 +:+ p.2)).
    rewrite <- list_fmap_compose.
    erewrite (Forall_fmap_ext_1 _ display); [done|].
    eapply Forall_impl; [done|]. intros c (_ & _ & Hd & _). by rewrite Hd.
  - apply sortHand_sorted.
Qed.

Lemma generateRandomHand_well_formed_witness :
  ∃ hand, generateRandomHand ranks9 [(0, 0); (8, 1); (0, 0); (3, 2); (7, 3); (1, 1)]%nat
          = Some hand
          ∧ length hand = 5%nat
          ∧ NoDup (map display hand)
          ∧ NoDup (map (λ c, (rank c, suit c)) hand)
          ∧ Forall (dealtCard ranks9) hand
          ∧ Sorted highToLow hand.
Proof.
  eexists. split; [vm_compute; reflexivity|].
  eapply (generateRandomHand_well_formed ranks9
            [(0, 0); (8, 1); (0, 0); (3, 2); (7, 3); (1, 1)]%nat).
  - unfold ranks9, ranks13. set_solver.
  - vm_compute. reflexivity.
Defined.

(** ** The listings shown for a range *)

Lemma elem_of_fromTo lo hi x : x ∈ fromTo lo hi ↔ lo ≤ x ≤ hi.
Proof.
  unfold fromTo. rewrite list_elem_of_In, in_map_iff. split.
  - intros (i & <- & Hi%in_seq). lia.
  - intros H. exists (Z.to_nat (x - lo)). rewrite in_seq. lia.
Qed.

Lemma elem_of_below hi x : x ∈ below hi ↔ 2 ≤ x < hi.
Proof. unfold below. rewrite elem_of_fromTo. lia. Qed.

Lemma elem_of_patCandidates threshold hand :
  hand ∈ patCandidates threshold
  ↔ ∃ a b c d e, hand = [a; b; c; d; e]
      ∧ 2 ≤ e ∧ e < d ∧ d < c ∧ c < b ∧ b < a ∧ a ≤ threshold.
Proof.
  unfold patCandidates. split.
  - intros (a & (b & (c & (d & (e & He & Hd)%list_elem_of_bind & Hc)%list_elem_of_bind
      & Hb)%list_elem_of_bind & Ha)%list_elem_of_bind & Ht)%list_elem_of_bind.
    apply list_elem_of_singleton in He.
    apply elem_of_below in Hd, Hc, Hb, Ha. apply elem_of_fromTo in Ht.
    exists a, b, c, d, e. repeat split; try done; lia.
  - intros (a & b & c & d & e & -> & ?).
    apply list_elem_of_bind. exists a. split; [|apply elem_of_fromTo; lia].
    apply list_elem_of_bind. exists b. split; [|apply elem_of_below; lia].
    apply list_elem_of_bind. exists c. split; [|apply elem_of_below; lia].
    apply list_elem_of_bind. exists d. split; [|apply elem_of_below; lia].
    apply list_elem_of_bind. exists e. split; [|apply elem_of_below; lia].
    by apply list_elem_of_singleton.
Qed.

Lemma elem_of_draw1Candidates hand :
  hand ∈ draw1Candidates
  ↔ ∃ a b c d, hand = [a; b; c; d] ∧ 2 ≤ d ∧ d < c ∧ c < b ∧ b < a ∧ a ≤ 9.
Proof.
  unfold draw1Candidates. split.
  - intros (a & (b & (c & (d & Hd & Hc)%list_elem_of_bind
      & Hb)%list_elem_of_bind & Ha)%list_elem_of_bind & Ht)%list_elem_of_bind.
    apply list_elem_of_singleton in Hd.
    apply elem_of_below in Hc, Hb, Ha. apply elem_of_fromTo in Ht.
    exists a, b, c, d. repeat split; try done; lia.
  - intros (a & b & c & d & -> & ?).
    apply list_elem_of_bind. exists a. split; [|apply elem_of_fromTo; lia].
    apply list_elem_of_bind. exists b. split; [|apply elem_of_below; lia].
    apply list_elem_of_bind. exists c. split; [|apply elem_of_below; lia].
    apply list_elem_of_bind. exists d. split; [|apply elem_of_below; lia].
    by apply list_elem_of_singleton.
Qed.

Lemma elem_of_draw2Candidates hand :
  hand ∈ draw2Candidates
  ↔ ∃ a b c, hand = [a; b; c] ∧ 2 ≤ c ∧ c < b ∧ b < a ∧ a ≤ 9.
Proof.
  unfold draw2Candidates. split.
  - intros (a & (b & (c & Hc & Hb)%list_elem_of_bind
      & Ha)%list_elem_of_bind & Ht)%list_elem_of_bind.
    apply list_elem_of_singleton in Hc.
    apply elem_of_below in Hb, Ha. apply elem_of_fromTo in Ht.
    exists a, b, c. repeat split; try done; lia.
  - intros (a & b & c & -> & ?).
    apply list_elem_of_bind. exists a. split; [|apply elem_of_fromTo; lia].
    apply list_elem_of_bind. exists b. split; [|apply elem_of_below; lia].
    apply list_elem_of_bind. exists c. split; [|apply elem_of_below; lia].
    by apply list_elem_of_singleton.
Qed.

Lemma digit_value_range c : is_digit c = true → 0 ≤ digit_value c ≤ 9.
Proof.
  unfold is_digit, digit_value.
  intros [H1%Nat.leb_le H2%Nat.leb_le]%andb_true_iff. lia.
Qed.

Lemma elem_of_listing (P : list Z → bool) candidates s :
  s ∈ map (joinNums "") (List.filter P candidates)
  ↔ ∃ hand, s = joinNums "" hand ∧ P hand = true ∧ hand ∈ candidates.
Proof.
  rewrite list_elem_of_In, in_map_iff. split.
  - intros (hand & <- & [Hin HP]%filter_In). exists hand.
    by rewrite list_elem_of_In.
  - intros (hand & -> & HP & Hin). exists hand. split; [done|].
    apply filter_In. by rewrite <- list_elem_of_In.
Qed.

(** The three pattern forms exclude one another. *)
Lemma match_digits_plus_3_only pattern :
  match_digits_plus 3 pattern = true →
  match_threshold pattern = false ∧ match_digits_plus 4 pattern = false.
Proof.
  unfold match_digits_plus, match_threshold. cbv zeta.
  intros [[Hlen%bool_decide_eq_true Hdig]%andb_true_iff _]%andb_true_iff.
  destruct (chars pattern) as [|c1 [|c2 [|c3 [|c4 [|? ?]]]]]; simplify_eq/=.
  split; [|done].
  apply andb_true_iff in Hdig as [_ [_ [H3 _]%andb_true_iff]%andb_true_iff].
  destruct (Ascii.eqb c3 "s") eqn:Hs; [|by rewrite andb_false_r].
  apply Ascii.eqb_eq in Hs. by subst.
Qed.

(** X18: Every hand that [expandBetterHandNotation] lists for a pattern
    of one of the forms Ns+, NNNN+ and NNN+ is a hand of distinct cards
    from 2 to 9, written high to low, that [interpretBetterHand] accepts
    for the same pattern: the listing shows nothing that the evaluation
    would not play. *)
Theorem expansion_hands_are_accepted (pattern s : string) :
  match_threshold pattern = true ∨ match_digits_plus 4 pattern = true
    ∨ match_digits_plus 3 pattern = true →
  s ∈ expandBetterHandNotation pattern →
  ∃ hand, s = joinNums "" hand ∧ descendingDigits hand
          ∧ interpretBetterHand pattern hand = true.
Proof.
  intros Hform Hs. unfold expandBetterHandNotation in Hs.
  unfold interpretBetterHand, descendingDigits.
  destruct (match_threshold pattern) eqn:Ht.
  - destruct (match_threshold_first _ Ht) as (c & Hc & Hdig).
    unfold parseInt_charAt in *. rewrite Hc, Hdig in *.
    pose proof (digit_value_range _ Hdig) as Hr.
    apply subseteq_take in Hs.
    apply list_elem_of_In, in_map_iff in Hs as (hand & <- & Hin).
    apply list_elem_of_In, elem_of_patCandidates in Hin
      as (a & b & c' & d & e & -> & ?).
    eexists. split; [done|]. split; [split|].
    + repeat constructor; lia.
    + repeat constructor; lia.
    + apply Math_max_le. repeat constructor; lia.
  - destruct (match_digits_plus 4 pattern) eqn:H4.
    + apply subseteq_take in Hs.
      apply elem_of_listing in Hs as (hand & -> & HP & Hin).
      apply elem_of_draw1Candidates in Hin as (a & b & c & d & -> & ?).
      eexists. split; [done|]. split; [split|]; [| |done].
      * repeat constructor; lia.
      * repeat constructor; lia.
    + destruct (match_digits_plus 3 pattern) eqn:H3; [|naive_solver].
      apply elem_of_listing in Hs as (hand & -> & HP & Hin).
      apply elem_of_draw2Candidates in Hin as (a & b & c & -> & ?).
      eexists. split; [done|]. split; [split|]; [| |done].
      * repeat constructor; lia.
      * repeat constructor; lia.
Qed.

Lemma expansion_hands_are_accepted_witness :
  ∃ hand, "7654"%string = joinNums "" hand ∧ descendingDigits hand
          ∧ interpretBetterHand "8654+" hand = true.
Proof.
  apply (expansion_hands_are_accepted "8654+" "7654").
  - right; left. reflexivity.
  - vm_compute. repeat constructor.
Defined.

(** X19: For a pattern NNN+ the listing is complete: every three-card
    draw of distinct cards from 2 to 9 that [interpretBetterHand] accepts
    appears in it, written high to low. *)
Theorem three_card_listing_complete (pattern : string) (hand : list Z) :
  match_digits_plus 3 pattern = true →
  descendingDigits hand → length hand = 3%nat →
  interpretBetterHand pattern hand = true →
  joinNums "" hand ∈ expandBetterHandNotation pattern.
Proof.
  intros H3 [Hsorted Hrange] Hlen Hok.
  destruct (match_digits_plus_3_only _ H3) as [Ht H4].
  unfold expandBetterHandNotation, interpretBetterHand in *.
  rewrite Ht, H4, H3 in *.
  apply elem_of_listing. exists hand. split; [done|]. split; [done|].
  destruct hand as [|a [|b [|c [|? ?]]]]; simplify_eq/=.
  apply elem_of_draw2Candidates. exists a, b, c. split; [done|].
  apply Sorted_inv in Hsorted as [Hsorted Hab].
  apply Sorted_inv in Hsorted as [_ Hbc].
  apply HdRel_inv in Hab, Hbc.
  apply Forall_cons in Hrange as [? Hrange].
  apply Forall_cons in Hrange as [? Hrange].
  apply Forall_cons in Hrange as [? _]. lia.
Qed.

Lemma three_card_listing_complete_witness :
  joinNums "" [5; 4; 2] ∈ expandBetterHandNotation "542+".
Proof.
  apply (three_card_listing_complete "542+" [5; 4; 2]).
  - reflexivity.
  - split; repeat constructor; lia.
  - reflexivity.
  - reflexivity.
Defined.

(** X20: The listing of a pattern Ns+ depends on its first digit only.
    Below 6 it is empty; from 6 on it begins with 65432, a straight: a hand
    of the five values 6, 5, 4, 3, 2, in any order and of any suits, is
    never eligible as a pat hand in the evaluation. *)
Theorem threshold_listing_starts_with_straight (pattern : string) (d : Z) :
  match_threshold pattern = true → parseInt_charAt pattern 0 = Num d →
  (d < 6 → expandBetterHandNotation pattern = [])
  ∧ (6 ≤ d → head (expandBetterHandNotation pattern) = Some "65432"%string)
  ∧ (∀ hand, map value hand ≡ₚ [6; 5; 4; 3; 2] → patEligible hand = false).
Proof.
  intros Ht Hd. unfold expandBetterHandNotation. rewrite Ht, Hd.
  assert (0 ≤ d ≤ 9) as Hr.
  { destruct (match_threshold_first _ Ht) as (c & Hc & Hdig).
    unfold parseInt_charAt in Hd. rewrite Hc, Hdig in Hd.
    injection Hd as <-. by apply digit_value_range. }
  assert (d = 0 ∨ d = 1 ∨ d = 2 ∨ d = 3 ∨ d = 4 ∨ d = 5
          ∨ d = 6 ∨ d = 7 ∨ d = 8 ∨ d = 9) as Hcases by lia.
  split; [|split].
  - intros Hlow.
    destruct Hcases as [->|[->|[->|[->|[->|[->|?]]]]]]; try lia; by vm_compute.
  - intros Hhigh.
    destruct Hcases as [?|[?|[?|[?|[?|[?|[->|[->|[->| ->]]]]]]]]];
      try lia; by vm_compute.
  - intros hand Hv. unfold patEligible, handValues.
    rewrite (sort_asc_unique _ _ Hv).
    replace (isStraight (sort_asc [6; 5; 4; 3; 2])) with true by (by vm_compute).
    by rewrite andb_false_r.
Qed.

Lemma threshold_listing_starts_with_straight_witness :
  head (expandBetterHandNotation "8s+") = Some "65432"%string
  ∧ patEligible sixHighStraight = false.
Proof.
  destruct (threshold_listing_starts_with_straight "8s+" 8) as (_ & Hhead & Hpat).
  - reflexivity.
  - reflexivity.
  - split.
    + apply Hhead. lia.
    + apply Hpat. reflexivity.
Defined.

Lemma expand_other pattern :
  match_threshold pattern || match_digits34_plus pattern = false →
  expandBetterHandNotation pattern = [pattern].
Proof.
  unfold match_digits34_plus, expandBetterHandNotation.
  intros [-> [-> ->]%orb_false_iff]%orb_false_iff. done.
Qed.

(** X21: [formatHandRangeWithBreakdown] and [formatHandRange] give the
    same text when the breakdown is not asked for, and also when it is but
    no include entry has one of the forms Ns+, NNN+ and NNNN+.  Neither ever
    returns the empty string, so the fallback that the strategy screen
    attaches to the formatted text with [||] is never shown. *)
Theorem breakdown_only_for_known_forms (range : HandRange) (showBreakdown : bool) :
  (showBreakdown = false
   ∨ Forall (λ item, match_threshold item || match_digits34_plus item = false)
            (includes range) →
   formatHandRangeWithBreakdown range showBreakdown = formatHandRange range)
  ∧ formatHandRangeWithBreakdown range showBreakdown ≠ ""%string
  ∧ formatHandRange range ≠ ""%string.
Proof.
  assert (∀ s, orNone s ≠ ""%string) as Hnone.
  { intros s. unfold orNone. destruct (String.eqb s "") eqn:He; [done|].
    by apply String.eqb_neq in He. }
  split; [|split; apply Hnone].
  intros H. unfold formatHandRangeWithBreakdown, formatHandRange. cbv zeta.
  match goal with |- context [map ?f (includes range)] =>
    assert (map f (includes range) = includes range) as ->; [|done] end.
  rewrite <- (map_id (includes range)) at 2. apply map_ext_Forall.
  destruct H as [->|H]; [by apply Forall_forall|].
  eapply Forall_impl; [exact H|]. intros item Hitem. cbv beta.
  rewrite (expand_other _ Hitem). simpl. by destruct (_ && _).
Qed.

Lemma breakdown_only_for_known_forms_witness :
  formatHandRangeWithBreakdown (mkRange ["all"] ["654"; "765"; "876"]) true
  = formatHandRange (mkRange ["all"] ["654"; "765"; "876"]).
Proof.
  apply (breakdown_only_for_known_forms (mkRange ["all"] ["654"; "765"; "876"]) true).
  right. repeat constructor.
Defined.

(** ** The strategy editor *)

Lemma field_keyOf key e :
  Editor.field (Editor.keyOf (Editor.field key e) e) e = Editor.field key e.
Proof.
  unfold Editor.keyOf. destruct key; simpl; repeat case_decide; simpl; congruence.
Qed.

Lemma rangeOf_read key h o :
  rangeOf key (Editor.read h o) = Editor.rangeAt h (Editor.field key o).
Proof. by destruct key. Qed.

Lemma listOf_updateList type f range :
  Editor.listOf type (Editor.updateList type f range) = f (Editor.listOf type range).
Proof. by destruct type. Qed.

Lemma rangeAt_alter f l h :
  is_Some (h !! l) → Editor.rangeAt (alter f l h) l = f (Editor.rangeAt h l).
Proof.
  intros [r Hr]. unfold Editor.rangeAt. by rewrite lookup_alter_eq, Hr.
Qed.

Lemma editing_idle st : idle st → Editor.editing st = None.
Proof. unfold idle, Editor.editing. intros ->. by destruct (Editor.editMode st). Qed.

Lemma editing_Some st e :
  Editor.editing st = Some e → Editor.editingStrategy st = Some e.
Proof. unfold Editor.editing. by destruct (Editor.editMode st). Qed.

Lemma position_determines_entry (l : list Editor.StrategyObj) x y :
  NoDup (map Editor.position l) → x ∈ l → y ∈ l →
  Editor.position x = Editor.position y → x = y.
Proof.
  induction l as [|z l IH]; simpl; intros Hnd Hx Hy Heq.
  - by apply elem_of_nil in Hx.
  - apply NoDup_cons in Hnd as [Hz Hnd].
    apply elem_of_cons in Hx as [->|Hx]; apply elem_of_cons in Hy as [->|Hy].
    + done.
    + exfalso. apply Hz. rewrite Heq. apply list_elem_of_In, in_map.
      by apply list_elem_of_In.
    + exfalso. apply Hz. rewrite <- Heq. apply list_elem_of_In, in_map.
      by apply list_elem_of_In.
    + by apply IH.
Qed.

Lemma replaceEntry_id e l :
  NoDup (map Editor.position l) → e ∈ l → Editor.replaceEntry e l = l.
Proof.
  intros Hnd He. unfold Editor.replaceEntry.
  rewrite <- (map_id l) at 2. apply map_ext_Forall, Forall_forall.
  intros x Hx. case_decide; [|done].
  symmetry. by eapply position_determines_entry.
Qed.

(** X22: a change made in the editor is in force at once, and Cancel does
    not take it back.  Opening an entry of the table for editing, adding a
    pattern to one of its ranges and pressing Cancel leaves the strategy
    objects and the stored table as they were, yet the table that the
    evaluation reads now has the new pattern at the end of that range. *)
Theorem edits_survive_cancel (st : Editor.State) (i : nat) (s : Editor.StrategyObj)
    (key : Editor.RangeKey) (type : Editor.ListKey) (newHand : string) :
  idle st →
  Editor.positionStrategies st !! i = Some s →
  is_Some (Editor.heap st !! Editor.field key s) →
  newHand ≠ ""%string →
  let st' := Editor.run st [Editor.Edit i; Editor.Add key type newHand; Editor.Cancel] in
  Editor.positionStrategies st' = Editor.positionStrategies st
  ∧ Editor.pokerStrategies st' = Editor.pokerStrategies st
  ∧ idle st'
  ∧ ∃ entry, Editor.table st' !! i = Some entry
      ∧ Editor.listOf type (rangeOf key entry)
        = Editor.listOf type (rangeOf key (Editor.read (Editor.heap st) s)) ++ [newHand].
Proof.
  intros Hidle Hs Hloc Hnew. cbv zeta.
  set (st1 := Editor.handleEditStrategy s st).
  set (st2 := Editor.mkState
                (alter (Editor.updateList type (λ l, l ++ [newHand]))
                       (Editor.field key s) (Editor.heap st))
                (Editor.positionStrategies st) (Some s) true
                (Editor.pokerStrategies st)).
  assert (Editor.step st (Editor.Edit i) = st1) as H1.
  { unfold Editor.step. by rewrite (editing_idle _ Hidle), Hs. }
  assert (Editor.step st1 (Editor.Add key type newHand) = st2) as H2.
  { unfold Editor.step, Editor.editing, st1, Editor.handleEditStrategy.
    cbn -[Editor.field Editor.keyOf alter Editor.updateList String.eqb].
    apply String.eqb_neq in Hnew. rewrite Hnew.
    unfold Editor.addHandToRange.
    cbn -[Editor.field Editor.keyOf alter Editor.updateList].
    by rewrite field_keyOf. }
  assert (Editor.step st2 Editor.Cancel = Editor.cancel st2) as H3 by done.
  unfold Editor.run. cbn [foldl]. rewrite H1, H2, H3.
  split; [done|]. split; [done|]. split; [done|].
  exists (Editor.read (Editor.heap st2) s). split.
  - unfold Editor.table, Editor.cancel, st2.
    cbn [Editor.heap Editor.positionStrategies].
    change (map ?f ?l) with (f <$> l). by rewrite list_lookup_fmap, Hs.
  - unfold st2. cbn [Editor.heap].
    by rewrite !rangeOf_read, rangeAt_alter, listOf_updateList.
Qed.

Lemma edits_survive_cancel_witness :
  let st' := Editor.run Editor.initialState
               [Editor.Edit 0; Editor.Add Editor.PatHands Editor.Includes "9s+";
                Editor.Cancel] in
  Editor.positionStrategies st' = Editor.positionStrategies Editor.initialState
  ∧ Editor.pokerStrategies st' = Editor.pokerStrategies Editor.initialState
  ∧ idle st'
  ∧ ∃ entry, Editor.table st' !! 0%nat = Some entry
      ∧ Editor.listOf Editor.Includes (rangeOf Editor.PatHands entry)
        = Editor.listOf Editor.Includes
            (rangeOf Editor.PatHands
               (Editor.read (Editor.heap Editor.initialState)
                  (Editor.mkObj UTG 0%nat 1%nat 2%nat 3%nat 4%nat None))) ++ ["9s+"%string].
Proof.
  refine (edits_survive_cancel Editor.initialState 0 (Editor.mkObj UTG 0%nat 1%nat 2%nat 3%nat 4%nat None)
            Editor.PatHands Editor.Includes "9s+" _ _ _ _).
  - reflexivity.
  - reflexivity.
  - eexists. vm_compute. reflexivity.
  - discriminate.
Defined.

Lemma step_keeps_objects (objs : list Editor.StrategyObj) st ev :
  NoDup (map Editor.position objs) →
  Editor.positionStrategies st = objs
  ∧ (∀ e, Editor.editingStrategy st = Some e → e ∈ objs) →
  Editor.positionStrategies (Editor.step st ev) = objs
  ∧ (∀ e, Editor.editingStrategy (Editor.step st ev) = Some e → e ∈ objs).
Proof.
  intros Hnd [Hobjs Hin]. unfold Editor.step.
  destruct (Editor.editing st) as [e|] eqn:He.
  - apply editing_Some in He. pose proof (Hin _ He) as Hemem.
    destruct ev as [i|key type newHand|key type index| |]; simpl.
    + done.
    + destruct (String.eqb newHand ""); [done|].
      unfold Editor.addHandToRange. rewrite He. simpl.
      split; [done|]. by intros ? [= <-].
    + unfold Editor.removeHandFromRange. rewrite He. simpl.
      split; [done|]. by intros ? [= <-].
    + rewrite Hobjs. split; [by apply replaceEntry_id|done].
    + done.
  - destruct ev as [i|key type newHand|key type index| |]; try done.
    destruct (Editor.positionStrategies st !! i) as [strategy|] eqn:Hi; [|done].
    simpl. split; [done|]. intros ? [= <-]. rewrite <- Hobjs.
    by eapply list_elem_of_lookup_2.
Qed.

(** X23: over any sequence of editor actions on a table with one entry for
    each position the strategy objects of the table stay the same, and
    neither Save nor Cancel changes the table that the evaluation reads:
    every Add and Remove has changed it already.  Save differs from Cancel
    only in writing that table to the stored item. *)
Theorem save_only_writes_storage (st0 : Editor.State) (events : list Editor.Event) :
  NoDup (map Editor.position (Editor.positionStrategies st0)) →
  idle st0 →
  let st := Editor.run st0 events in
  Editor.positionStrategies st = Editor.positionStrategies st0
  ∧ Editor.table (Editor.step st Editor.Save) = Editor.table st
  ∧ Editor.table (Editor.step st Editor.Cancel) = Editor.table st
  ∧ (is_Some (Editor.editing st) →
     Editor.pokerStrategies (Editor.step st Editor.Save) = Some (Editor.table st)).
Proof.
  intros Hnd Hidle. cbv zeta.
  assert (Editor.positionStrategies (Editor.run st0 events) = Editor.positionStrategies st0
          ∧ (∀ e, Editor.editingStrategy (Editor.run st0 events) = Some e
                  → e ∈ Editor.positionStrategies st0)) as [Hobjs Hin].
  { unfold Editor.run. apply foldl_invariant.
    - split; [done|]. intros e He. unfold idle in Hidle. congruence.
    - intros a b. by apply step_keeps_objects. }
  split; [done|].
  unfold Editor.step.
  destruct (Editor.editing (Editor.run st0 events)) as [e|] eqn:He.
  - apply editing_Some in He. pose proof (Hin _ He) as Hemem.
    unfold Editor.table. simpl.
    rewrite Hobjs, replaceEntry_id by done.
    repeat split; done.
  - repeat split; done.
Qed.

Lemma save_only_writes_storage_witness :
  let st := Editor.run Editor.initialState
              [Editor.Edit 0; Editor.Add Editor.PatHands Editor.Includes "9s+"] in
  Editor.positionStrategies st = Editor.positionStrategies Editor.initialState
  ∧ Editor.table (Editor.step st Editor.Save) = Editor.table st
  ∧ Editor.table (Editor.step st Editor.Cancel) = Editor.table st
  ∧ (is_Some (Editor.editing st) →
     Editor.pokerStrategies (Editor.step st Editor.Save) = Some (Editor.table st)).
Proof.
  refine (save_only_writes_storage Editor.initialState
            [Editor.Edit 0; Editor.Add Editor.PatHands Editor.Includes "9s+"] _ _).
  - vm_compute. repeat constructor; set_solver.
  - reflexivity.
Defined.

(** ** Saving and loading the table *)

Lemma mergeSaved_slot pre existing current saved :
  sameSlot saved existing →
  position existing ∉ map position pre →
  Stored.mergeSaved (pre ++ existing :: current) (Stored.storedStrategy saved)
  = pre ++ saved :: current.
Proof.
  intros [Hpos Hinh] Hnew. unfold Stored.mergeSaved.
  assert (list_find (λ s, position s = Stored.position (Stored.storedStrategy saved))
                    (pre ++ existing :: current)
          = Some (length pre, existing)) as ->.
  { apply list_find_Some. split; [by apply list_lookup_middle|].
    split; [done|]. intros j y Hj Hlt Hy.
    rewrite lookup_app_l in Hj by done. apply Hnew.
    simpl in Hy. rewrite <- Hpos, <- Hy.
    apply list_elem_of_In, in_map, list_elem_of_In.
    by eapply list_elem_of_lookup_2. }
  rewrite insert_app_r_alt, Nat.sub_diag by done. simpl.
  do 2 f_equal.
  destruct saved as [p [] [] [] [] [] [parent|]]; simpl in *; [done|].
  by rewrite Hinh.
Qed.

Lemma loadSaved_slots saved : ∀ current pre,
  Forall2 sameSlot saved current →
  NoDup (map position (pre ++ current)) →
  Stored.loadSaved (pre ++ current) (Stored.parsedText saved) = pre ++ saved.
Proof.
  induction saved as [|s saved IH]; intros current pre Hslots Hnd.
  - by apply Forall2_nil_inv_l in Hslots as ->.
  - apply Forall2_cons_inv_l in Hslots as (c & current' & Hslot & Hslots & ->).
    unfold Stored.loadSaved, Stored.parsedText in *. simpl.
    assert (position c ∉ map position pre) as Hfresh.
    { rewrite map_app in Hnd. simpl in Hnd.
      apply NoDup_app in Hnd as (_ & Hdisj & _).
      intros Hin. apply (Hdisj _ Hin). left. }
    rewrite mergeSaved_slot by done.
    rewrite (cons_middle s pre current'), app_assoc.
    rewrite IH; [by rewrite <- app_assoc|done|].
    rewrite <- app_assoc. simpl.
    rewrite map_app in *. simpl in *. by rewrite (proj1 Hslot).
Qed.

(** X24: saving and loading agree.  When the stored text was written for
    a table that has the positions of the current one in the same order,
    and that keeps every inheritance which the two do not share, then
    merging the parsed text into the current table gives back exactly the
    table that was stored. *)
Theorem stored_table_round_trip (current saved : list PositionStrategy) :
  NoDup (map position current) →
  Forall2 sameSlot saved current →
  Stored.loadSaved current (Stored.parsedText saved) = saved.
Proof.
  intros Hnd Hslots. by apply (loadSaved_slots saved current []).
Qed.

Lemma stored_table_round_trip_witness :
  Stored.loadSaved positionStrategies (Stored.parsedText unexcludedStrategies)
  = unexcludedStrategies.
Proof.
  refine (stored_table_round_trip positionStrategies unexcludedStrategies _ _).
  - vm_compute. repeat constructor; set_solver.
  - vm_compute. repeat constructor; done.
Defined.

(** ** Saving, then loading *)

Lemma run_keeps_objects st0 events :
  NoDup (map Editor.position (Editor.positionStrategies st0)) →
  idle st0 →
  Editor.positionStrategies (Editor.run st0 events) = Editor.positionStrategies st0
  ∧ (∀ e, Editor.editingStrategy (Editor.run st0 events) = Some e
          → e ∈ Editor.positionStrategies st0).
Proof.
  intros Hnd Hidle. unfold Editor.run. apply foldl_invariant.
  - split; [done|]. intros e He. unfold idle in Hidle. congruence.
  - intros a b. by apply step_keeps_objects.
Qed.

Lemma initial_slots h :
  Forall2 sameSlot
    (map (Editor.read h) (Editor.positionStrategies Editor.initialState))
    positionStrategies.
Proof.
  unfold Editor.initialState, positionStrategies. simpl.
  repeat (constructor; [split; simpl; [reflexivity|done]|]). constructor.
Qed.

Lemma initial_positions :
  NoDup (map Editor.position (Editor.positionStrategies Editor.initialState)).
Proof. vm_compute. repeat constructor; set_solver. Qed.

(** X25: what Save writes is what the next start restores.  After any
    sequence of editor actions on the built-in table, pressing Save while
    an entry is open stores the table that is in force, and merging the
    stored text into the built-in table, as the component does when it
    mounts, gives that table back. *)
Theorem saved_table_is_restored (events : list Editor.Event) :
  let st := Editor.run Editor.initialState events in
  is_Some (Editor.editing st) →
  Editor.pokerStrategies (Editor.step st Editor.Save) = Some (Editor.table st)
  ∧ Stored.loadSaved positionStrategies (Stored.parsedText (Editor.table st))
    = Editor.table st.
Proof.
  cbv zeta. intros [e He].
  destruct (run_keeps_objects Editor.initialState events initial_positions)
    as [Hobjs Hin]; [done|].
  split.
  - unfold Editor.step. rewrite He. apply editing_Some in He.
    unfold Editor.handleSaveStrategy. simpl.
    rewrite Hobjs, replaceEntry_id; [by rewrite <- Hobjs| |by apply Hin].
    apply initial_positions.
  - apply (loadSaved_slots _ positionStrategies []).
    + unfold Editor.table. rewrite Hobjs. apply initial_slots.
    + vm_compute. repeat constructor; set_solver.
Qed.

Lemma saved_table_is_restored_witness :
  let st := Editor.run Editor.initialState
              [Editor.Edit 0; Editor.Add Editor.PatHands Editor.Includes "9s+"] in
  Editor.pokerStrategies (Editor.step st Editor.Save) = Some (Editor.table st)
  ∧ Stored.loadSaved positionStrategies (Stored.parsedText (Editor.table st))
    = Editor.table st.
Proof.
  refine (saved_table_is_restored
            [Editor.Edit 0; Editor.Add Editor.PatHands Editor.Includes "9s+"] _).
  eexists. vm_compute. reflexivity.
Defined.

(** ** Seating the players *)

Lemma seatPlayers_UTG p1 p2 p3 p4 p5 p6 :
  Seats.seatPlayers [p1; p2; p3; p4; p5; p6] UTG
  = [seated p1 0 "UTG"; seated p2 1 "HJ"; seated p3 2 "CO"; seated p4 3 "BU";
     seated p5 4 "SB"; seated p6 5 "BB"].
Proof. reflexivity. Qed.

Lemma seatPlayers_HJ p1 p2 p3 p4 p5 p6 :
  Seats.seatPlayers [p1; p2; p3; p4; p5; p6] HJ
  = [seated p1 0 "HJ"; seated p2 1 "CO"; seated p3 2 "BU"; seated p4 3 "SB";
     seated p5 4 "BB"; seated p6 5 "UTG"].
Proof. reflexivity. Qed.

(** X26: seating six players for a new hand keeps them in their order,
    gives each of the six positions to exactly one of them, makes the
    player at BU the only dealer and the first player, who sits at the
    position that the hand is evaluated for, the only active one.  The
    player with id 6 holds the faces of the new hand, every other player
    five card backs (none if first). *)
Theorem seats_are_a_rotation (players : list Seats.Player)
    (newPlayerPosition : LearningPosition) (newHand : list HandCard) :
  length players = 6%nat →
  newPlayerPosition ∈ Seats.availablePositions →
  let result := Seats.dealtPlayers players newPlayerPosition newHand in
  map Seats.id result = map Seats.id players
  ∧ map Seats.position result ≡ₚ map Some Seats.allPositions
  ∧ (∀ p, p ∈ result → Seats.isDealer p = true ↔ Seats.position p = Some "BU"%string)
  ∧ (∃ you others, result = you :: others
       ∧ Seats.position you = Some (positionName newPlayerPosition)
       ∧ Seats.isActive you = true
       ∧ Forall (λ p, Seats.isActive p = false) others)
  ∧ (∀ p, p ∈ result →
       Seats.cards p = if decide (Seats.id p = "6"%string) then map display newHand
                       else if Seats.isActive p then [] else Seats.back5).
Proof.
  intros Hlen Hpos.
  destruct players as [|p1 [|p2 [|p3 [|p4 [|p5 [|p6 [|? ?]]]]]]]; try done.
  assert (∀ p index position,
    (if decide (Seats.id (seated p index position) = "6"%string)
     then Seats.mkPlayer (Seats.id (seated p index position))
            (Seats.name (seated p index position)) (map display newHand)
            (Seats.position (seated p index position))
            (Seats.isActive (seated p index position))
            (Seats.isDealer (seated p index position))
     else seated p index position)
    = Seats.mkPlayer (Seats.id p) (Seats.name p)
        (if decide (Seats.id p = "6"%string) then map display newHand
         else if (index =? 0)%nat then [] else Seats.back5)
        (Some position) (index =? 0)%nat (bool_decide (position = "BU"%string))) as Hmap.
  { intros p index position. simpl. by case_decide. }
  unfold Seats.dealtPlayers. cbv zeta.
  apply elem_of_cons in Hpos as [->|Hpos];
    [|apply list_elem_of_singleton in Hpos as ->].
  - rewrite seatPlayers_UTG. cbn [map]. rewrite !Hmap.
    split; [done|]. split; [done|]. split; [|split].
    + intros p Hp. set_unfold in Hp. destruct_or!; subst; done.
    + eexists _, _. split; [done|]. repeat split; try done. repeat constructor.
    + intros p Hp. set_unfold in Hp. destruct_or!; subst; done.
  - rewrite seatPlayers_HJ. cbn [map]. rewrite !Hmap.
    split; [done|]. split; [|split; [|split]].
    + simpl. unfold Seats.allPositions. simpl.
      apply (Permutation_app_comm [_;_;_;_;_] [_]).
    + intros p Hp. set_unfold in Hp. destruct_or!; subst; done.
    + eexists _, _. split; [done|]. repeat split; try done. repeat constructor.
    + intros p Hp. set_unfold in Hp. destruct_or!; subst; done.
Qed.

Lemma seats_are_a_rotation_witness :
  let players := replicate 6 (Seats.mkPlayer "6" "You" [] (Some "UTG"%string) true false) in
  let result := Seats.dealtPlayers players HJ wheelHand in
  map Seats.id result = map Seats.id players
  ∧ map Seats.position result ≡ₚ map Some Seats.allPositions
  ∧ (∀ p, p ∈ result → Seats.isDealer p = true ↔ Seats.position p = Some "BU"%string)
  ∧ (∃ you others, result = you :: others
       ∧ Seats.position you = Some (positionName HJ)
       ∧ Seats.isActive you = true
       ∧ Forall (λ p, Seats.isActive p = false) others)
  ∧ (∀ p, p ∈ result →
       Seats.cards p = if decide (Seats.id p = "6"%string) then map display wheelHand
                       else if Seats.isActive p then [] else Seats.back5).
Proof.
  refine (seats_are_a_rotation
            (replicate 6 (Seats.mkPlayer "6" "You" [] (Some "UTG"%string) true false))
            HJ wheelHand _ _).
  - reflexivity.
  - vm_compute. set_solver.
Defined.

(** ** The multi-position trainer *)

Lemma dealt_seat p1 p2 p3 p4 p5 p6 pick newHand :
  Seats.id p1 = "6"%string →
  ∃ you q2 q3 q4 q5 q6,
    Seats.dealtPlayers [p1; p2; p3; p4; p5; p6] (MultiApp.drawnPosition pick) newHand
    = [you; q2; q3; q4; q5; q6]
    ∧ Seats.id you = "6"%string
    ∧ Seats.position you = Some (positionName (MultiApp.drawnPosition pick)).
Proof.
  intros Hid. unfold Seats.dealtPlayers.
  destruct pick; simpl MultiApp.drawnPosition;
    [rewrite seatPlayers_HJ|rewrite seatPlayers_UTG]; cbn [map];
    (do 6 eexists; split; [reflexivity|]); simpl; by case_decide.
Qed.

Lemma deal_shows_answer fuel table s p1 p2 p3 p4 p5 p6 pick newHand s' :
  Seats.id p1 = "6"%string →
  MultiApp.dealNewHand fuel table [p1; p2; p3; p4; p5; p6] pick newHand s = Returns s' →
  answerForSeat fuel table s'
  ∧ MultiApp.mistakes (MultiApp.gameState s') = MultiApp.mistakes (MultiApp.gameState s)
  ∧ MultiApp.score (MultiApp.gameState s') = MultiApp.score (MultiApp.gameState s)
  ∧ MultiApp.phase (MultiApp.gameState s') = MultiApp.phase (MultiApp.gameState s).
Proof.
  intros Hid Hdeal. unfold MultiApp.dealNewHand in Hdeal. cbv zeta in Hdeal.
  apply bind_Returns in Hdeal as (e & He & [= <-]).
  split; [|done].
  destruct (dealt_seat p1 p2 p3 p4 p5 p6 pick newHand Hid)
    as (you & q2 & q3 & q4 & q5 & q6 & Hseats & Hyou & Hpos).
  exists you, q2, q3, q4, q5, q6, (MultiApp.drawnPosition pick), e.
  simpl. by rewrite Hseats.
Qed.

Lemma yourPosition_first you rest :
  Seats.id you = "6"%string → MultiApp.yourPosition (you :: rest) = Seats.position you.
Proof.
  intros Hid. unfold MultiApp.yourPosition. simpl. by rewrite decide_True.
Qed.

Lemma multi_step_invariant fuel table s ev s' :
  answerForSeat fuel table s
  ∧ Forall (genuineAt fuel table) (MultiApp.mistakes (MultiApp.gameState s))
  ∧ scoreSplits (MultiApp.gameState s) →
  MultiApp.step fuel table s ev = Returns s' →
  answerForSeat fuel table s'
  ∧ Forall (genuineAt fuel table) (MultiApp.mistakes (MultiApp.gameState s'))
  ∧ scoreSplits (MultiApp.gameState s').
Proof.
  intros (Hans & Hmis & Hphase & Hpos & Htot) Hstep.
  pose proof Hans as (you & p2 & p3 & p4 & p5 & p6 & pos & e & Hpl & Hid & Hseat & He & Hact & Hcat).
  unfold MultiApp.step in Hstep.
  destruct s as [players g]. simpl in *. subst players.
  case_bool_decide as Hstrat.
  - destruct ev; simplify_eq/=.
    + done.
    + done.
    + done.
    + split; [|split; [done|]].
      * exists you, p2, p3, p4, p5, p6, pos, e. done.
      * unfold scoreSplits. simpl. done.
  - destruct ev as [action now|pick newHand| |].
    + injection Hstep as <-. unfold MultiApp.handlePlayerAction.
      destruct (negb _ && _) eqn:Hbranch; simpl.
      * apply andb_true_iff in Hbranch as [Hneq _].
        apply negb_true_iff, bool_decide_eq_false in Hneq.
        split; [|split].
        -- exists you, p2, p3, p4, p5, p6, pos, e. done.
        -- apply Forall_app. split; [done|]. apply Forall_singleton.
           exists pos, e. simpl.
           rewrite yourPosition_first by done. repeat split; assumption.
        -- unfold scoreSplits. simpl. rewrite length_app. simpl.
           split; [done|]. lia.
      * split; [|split; [done|]].
        -- exists you, p2, p3, p4, p5, p6, pos, e. done.
        -- unfold scoreSplits. simpl. split; [done|].
           apply andb_false_iff in Hbranch as [Hc|Hl].
           ++ apply negb_false_iff in Hc. rewrite Hc. lia.
           ++ apply bool_decide_eq_false in Hl. destruct (MultiApp.phase g); done.
    + apply deal_shows_answer in Hstep as (Ha & Hm & Hs & Hp); [|done].
      simpl in *. split; [done|]. rewrite Hm. split; [done|].
      unfold scoreSplits. by rewrite Hm, Hs, Hp.
    + injection Hstep as <-. simpl. split; [|split; [done|]].
      * exists you, p2, p3, p4, p5, p6, pos, e. done.
      * unfold scoreSplits. simpl. done.
    + by injection Hstep as <-.
Qed.

(** X27: in the multi-position variant, while the table is not edited,
    every state that a session reaches shows the evaluator's answer for the
    hand shown at the position where the player sits; every record on the
    mistake list carries the position for which its hand was evaluated, the
    evaluator's answer for that hand there, and an answer of the user that
    differs from it; and every answer given is counted once, as correct or
    as a mistake. *)
Theorem recorded_position_is_evaluated (fuel : nat) (table : list PositionStrategy)
    (firstPick : bool) (firstHand : list HandCard) (events : list MultiApp.Event)
    (s : MultiApp.AppState) :
  MultiApp.run fuel table firstPick firstHand events = Returns s →
  answerForSeat fuel table s
  ∧ Forall (genuineAt fuel table) (MultiApp.mistakes (MultiApp.gameState s))
  ∧ scoreSplits (MultiApp.gameState s).
Proof.
  revert s. unfold MultiApp.run.
  induction events as [|ev events IH] using rev_ind; intros s Hrun.
  - simpl in Hrun.
    apply deal_shows_answer in Hrun as (Ha & Hm & Hs & Hp); [|done].
    split; [done|]. rewrite Hm. split; [constructor|].
    unfold scoreSplits. rewrite Hm, Hs, Hp. done.
  - rewrite foldl_app in Hrun. simpl in Hrun.
    apply bind_Returns in Hrun as (s0 & Hs0 & Hstep).
    eapply multi_step_invariant; [|exact Hstep]. by apply IH.
Qed.

Lemma recorded_position_is_evaluated_witness :
  let s := returned (MultiApp.run 6 positionStrategies false trapHand
                       [MultiApp.Act "raise" 0; MultiApp.Next true wheelHand;
                        MultiApp.Act "raise" 1]) in
  answerForSeat 6 positionStrategies s
  ∧ Forall (genuineAt 6 positionStrategies) (MultiApp.mistakes (MultiApp.gameState s))
  ∧ scoreSplits (MultiApp.gameState s).
Proof.
  refine (recorded_position_is_evaluated 6 positionStrategies false trapHand
            [MultiApp.Act "raise" 0; MultiApp.Next true wheelHand; MultiApp.Act "raise" 1]
            _ _).
  vm_compute. reflexivity.
Defined.
